(** * PyThreeHeadsGenerator: the wave generator of [rooms.py]

    A shallow embedding of [rooms.py] and the proofs of its properties.

    - Python integers are [Z]; points are pairs of integers.
    - A numpy array is its shape together with its rows; indexing follows
      numpy: a negative index counts from the end, anything else outside
      the axis raises [IndexError].
    - The [_Arrays] object that the functions share and mutate in place is
      the [data] field of the state threaded by the monad [M]; the module
      [random] is a tape of draws in that same state.
    - The state also carries a trace of what happened (waves started, door
      ledger calls, raw indices used on the shared arrays): the program
      never reads it, the theorems do.
    - [while] loops take fuel; running out of it is the outcome [Diverge]. *)

From Stdlib Require Import ZArith QArith Lia String.
From stdpp Require Import base list sorting relations.

Local Open Scope Z_scope.

(** ** Points and directions *)

Definition _point : Type := (Z * Z)%type.

Definition _LEFT : Z := 0.
Definition _RIGHT : Z := 1.
Definition _UP : Z := 2.
Definition _DOWN : Z := 3.

Definition _EMPTY : Z := 0.
Definition _SPAWNER : Z := 1.
Definition _BODY : Z := 2.

(** [_PointChecker(w, h).__call__] *)
Definition _PointChecker (w h : Z) (point : _point) : bool :=
  let '(x, y) := point in
  ((0 <=? x) && (x <? w)) && ((0 <=? y) && (y <? h)).

Definition _get_nbr_points (point : _point) (filter_ : _point -> bool) : list _point :=
  let '(x, y) := point in
  List.filter (fun item => filter_ item)
    [(x - 1, y); (x + 1, y); (x, y - 1); (x, y + 1)].

Definition _get_nbr_points_n_dirs (point : _point) (filter_ : _point -> bool)
  : list (_point * Z) :=
  let '(x, y) := point in
  List.filter (fun pair => filter_ (fst pair))
    [((x - 1, y), _LEFT); ((x + 1, y), _RIGHT); ((x, y - 1), _UP); ((x, y + 1), _DOWN)].

Definition _get_nbr_dirs (point : _point) (filter_ : _point -> bool) : list Z :=
  let '(x, y) := point in
  List.map snd
    (List.filter (fun pair => filter_ (fst pair))
       [((x - 1, y), _LEFT); ((x + 1, y), _RIGHT); ((x, y - 1), _UP); ((x, y + 1), _DOWN)]).

(** ** numpy arrays of two axes *)

Record ndarray (A : Type) : Type := NdArray {
  nd_shape : Z * Z;
  nd_rows : list (list A)
}.
Arguments NdArray {A} _ _.
Arguments nd_shape {A} _.
Arguments nd_rows {A} _.

(** [np.full(shape, v)]; the generator only builds arrays whose two
    lengths are non-negative. *)
Definition np_full {A} (shape : Z * Z) (v : A) : ndarray A :=
  NdArray shape (replicate (Z.to_nat (fst shape)) (replicate (Z.to_nat (snd shape)) v)).

(** One index of [a[i, j]] on an axis of length [n]. *)
Definition norm_index (n i : Z) : option nat :=
  if (0 <=? i) && (i <? n) then Some (Z.to_nat i)
  else if (- n <=? i) && (i <? 0) then Some (Z.to_nat (i + n))
  else None.

Definition nd_get {A} (a : ndarray A) (idx : _point) : option A :=
  match norm_index (fst (nd_shape a)) (fst idx), norm_index (snd (nd_shape a)) (snd idx) with
  | Some i, Some j =>
      match nd_rows a !! i with
      | Some row => row !! j
      | None => None
      end
  | _, _ => None
  end.

Definition nd_set {A} (a : ndarray A) (idx : _point) (v : A) : option (ndarray A) :=
  match norm_index (fst (nd_shape a)) (fst idx), norm_index (snd (nd_shape a)) (snd idx) with
  | Some i, Some j =>
      match nd_rows a !! i with
      | Some row =>
          if decide (j < length row)%nat
          then Some (NdArray (nd_shape a) (<[i := <[j := v]> row]> (nd_rows a)))
          else None
      | None => None
      end
  | _, _ => None
  end.

(** ** The shared state *)

Record _Arrays : Type := Build_Arrays {
  cells : ndarray Z;
  hor_doors : ndarray bool;
  ver_doors : ndarray bool
}.

Inductive exn : Type :=
| ValueError (msg : string)
| IndexError (msg : string).

Inductive array_id : Type := ACells | AHor | AVer.

Inductive event : Type :=
| EvWave
| EvDoorCall (p : _point) (dir : Z)
| EvIndex (a : array_id) (idx : _point).

Record World : Type := Build_World {
  data : _Arrays;
  rng : list Z;
  trace : list event
}.

Inductive outcome (A : Type) : Type :=
| Ok (a : A)
| Raise (e : exn)
| Diverge.
Arguments Ok {A} _.
Arguments Raise {A} _.
Arguments Diverge {A}.

Definition M (A : Type) : Type := World -> outcome A * World.

Definition ret {A} (a : A) : M A := fun s => (Ok a, s).

Definition bind {A B} (m : M A) (k : A -> M B) : M B :=
  fun s =>
    match m s with
    | (Ok a, s') => k a s'
    | (Raise e, s') => (Raise e, s')
    | (Diverge, s') => (Diverge, s')
    end.

Definition raise {A} (e : exn) : M A := fun s => (Raise e, s).
Definition diverge {A} : M A := fun s => (Diverge, s).

Declare Scope M_scope.
Delimit Scope M_scope with M.
Notation "x <- m ;; k" := (bind m (fun x => k))
  (at level 20, m at level 99, k at level 200, only parsing) : M_scope.
Notation "m ;; k" := (bind m (fun _ => k))
  (at level 100, k at level 200, only parsing, right associativity) : M_scope.
Local Open Scope M_scope.

Definition emit (ev : event) : M unit :=
  fun s => (Ok tt, Build_World (data s) (rng s) (ev :: trace s)).

Definition index_error : exn := IndexError "index is out of bounds".

Definition cells_get (idx : _point) : M Z :=
  emit (EvIndex ACells idx) ;;
  fun s =>
    match nd_get (cells (data s)) idx with
    | Some v => (Ok v, s)
    | None => (Raise index_error, s)
    end.

Definition cells_set (idx : _point) (v : Z) : M unit :=
  emit (EvIndex ACells idx) ;;
  fun s =>
    match nd_set (cells (data s)) idx v with
    | Some a =>
        (Ok tt, Build_World (Build_Arrays a (hor_doors (data s)) (ver_doors (data s)))
                  (rng s) (trace s))
    | None => (Raise index_error, s)
    end.

Definition hor_get (idx : _point) : M bool :=
  emit (EvIndex AHor idx) ;;
  fun s =>
    match nd_get (hor_doors (data s)) idx with
    | Some v => (Ok v, s)
    | None => (Raise index_error, s)
    end.

Definition hor_set (idx : _point) (v : bool) : M unit :=
  emit (EvIndex AHor idx) ;;
  fun s =>
    match nd_set (hor_doors (data s)) idx v with
    | Some a =>
        (Ok tt, Build_World (Build_Arrays (cells (data s)) a (ver_doors (data s)))
                  (rng s) (trace s))
    | None => (Raise index_error, s)
    end.

Definition ver_get (idx : _point) : M bool :=
  emit (EvIndex AVer idx) ;;
  fun s =>
    match nd_get (ver_doors (data s)) idx with
    | Some v => (Ok v, s)
    | None => (Raise index_error, s)
    end.

Definition ver_set (idx : _point) (v : bool) : M unit :=
  emit (EvIndex AVer idx) ;;
  fun s =>
    match nd_set (ver_doors (data s)) idx v with
    | Some a =>
        (Ok tt, Build_World (Build_Arrays (cells (data s)) (hor_doors (data s)) a)
                  (rng s) (trace s))
    | None => (Raise index_error, s)
    end.

(** An array that is local to one function. *)
Definition local_set {A} (a : ndarray A) (idx : _point) (v : A) : M (ndarray A) :=
  match nd_set a idx v with
  | Some a' => ret a'
  | None => raise index_error
  end.

(** ** Loops over Python lists *)

Fixpoint for_each {A} (l : list A) (body : A -> M unit) : M unit :=
  match l with
  | [] => ret tt
  | x :: l' => body x ;; for_each l' body
  end.

Fixpoint foldM {A B} (f : B -> A -> M B) (acc : B) (l : list A) : M B :=
  match l with
  | [] => ret acc
  | x :: l' => acc' <- f acc x ;; foldM f acc' l'
  end.

(** [[x for x in l if cond(x)]] *)
Fixpoint filterM {A} (cond : A -> M bool) (l : list A) : M (list A) :=
  match l with
  | [] => ret []
  | x :: l' =>
      b <- cond x ;;
      rest <- filterM cond l' ;;
      ret (if b then x :: rest else rest)
  end.

(** [range(n)] and [itertools.product(xs, ys)] *)
Definition range (n : Z) : list Z := List.map Z.of_nat (seq 0 (Z.to_nat n)).

Definition product (xs ys : list Z) : list _point :=
  List.flat_map (fun x => List.map (fun y => (x, y)) ys) xs.

(** ** The module [random]

    The generator is a tape of integers: every primitive draw reads the
    next one (an exhausted tape gives zeros). [_randbelow(n)] reduces the
    draw modulo [n]; [random()] is a multiple of [2^-53] below one. *)

Definition next_draw : M Z :=
  fun s =>
    match rng s with
    | [] => (Ok 0, s)
    | r :: t => (Ok r, Build_World (data s) t (trace s))
    end.

Definition randbelow (n : nat) : M nat :=
  r <- next_draw ;; ret (Z.to_nat (r mod Z.of_nat n)).

Definition random_random : M Q :=
  r <- next_draw ;; ret (Qmake (r mod 2 ^ 53) (2 ^ 53)).

Definition random_choice {A} (seq : list A) : M A :=
  match seq with
  | [] => raise (IndexError "Cannot choose from an empty sequence")
  | _ =>
      j <- randbelow (length seq) ;;
      match seq !! j with
      | Some x => ret x
      | None => raise (IndexError "list index out of range")
      end
  end.

Fixpoint sample_pool {A} (k : nat) (pool : list A) : M (list A) :=
  match k with
  | O => ret []
  | S k' =>
      j <- randbelow (length pool) ;;
      match pool !! j with
      | Some x => rest <- sample_pool k' (delete j pool) ;; ret (x :: rest)
      | None => raise (IndexError "list index out of range")
      end
  end.

(** [random.sample(population, k)]: [k] elements at distinct positions. *)
Definition random_sample {A} (population : list A) (k : Z) : M (list A) :=
  if (k <? 0) || (Z.of_nat (length population) <? k)
  then raise (ValueError "Sample larger than population or is negative")
  else sample_pool (Z.to_nat k) population.

(** ** Python lists and sets of the generator *)

(** [l.remove(x)] where [x] may be [None] and [l] holds integers. *)
Fixpoint remove_first (d : Z) (l : list Z) : option (list Z) :=
  match l with
  | [] => None
  | e :: l' =>
      if e =? d then Some l'
      else match remove_first d l' with
           | Some r => Some (e :: r)
           | None => None
           end
  end.

Definition list_remove (x : option Z) (l : list Z) : M (list Z) :=
  match x with
  | None => raise (ValueError "list.remove(x): x not in list")
  | Some d =>
      match remove_first d l with
      | Some r => ret r
      | None => raise (ValueError "list.remove(x): x not in list")
      end
  end.

(** A set of points is kept as the sequence of its insertions since it was
    last cleared; in which order Python iterates over it is a parameter of
    [generate]. *)
Definition pyset : Type := list _point.

Definition set_empty : pyset := [].
Definition set_update (s : pyset) (items : list _point) : pyset := s ++ items.
Definition set_len (s : pyset) : nat := length (remove_dups s).

(** Comparison of tuples. *)
Definition point_le (a b : _point) : Prop :=
  fst a < fst b \/ (fst a = fst b /\ snd a <= snd b).

#[global] Instance point_le_dec (a b : _point) : Decision (point_le a b).
Proof. unfold point_le. apply _. Defined.

Definition sorted (s : pyset) : list _point := merge_sort point_le (remove_dups s).

(** ** The door ledger *)

Definition _get_door (point : _point) (dir : Z) : M (option bool) :=
  emit (EvDoorCall point dir) ;;
  let '(x, y) := point in
  if dir =? _LEFT then v <- hor_get (x - 1, y) ;; ret (Some v)
  else if dir =? _RIGHT then v <- hor_get (x, y) ;; ret (Some v)
  else if dir =? _UP then v <- ver_get (x, y - 1) ;; ret (Some v)
  else if dir =? _DOWN then v <- ver_get (x, y) ;; ret (Some v)
  else ret None.

Definition _set_door (point : _point) (dir : Z) (value : bool) : M unit :=
  emit (EvDoorCall point dir) ;;
  let '(x, y) := point in
  (if dir =? _LEFT then hor_set (x - 1, y) value else ret tt) ;;
  (if dir =? _RIGHT then hor_set (x, y) value else ret tt) ;;
  (if dir =? _UP then ver_set (x, y - 1) value else ret tt) ;;
  (if dir =? _DOWN then ver_set (x, y) value else ret tt).

Definition _wire (point : _point) (filter_ : _point -> bool) : M unit :=
  pairs <- filterM (fun pair => v <- cells_get (fst pair) ;; ret (v =? _SPAWNER))
             (_get_nbr_points_n_dirs point filter_) ;;
  let dirs := List.map snd pairs in
  for_each dirs (fun dir => _set_door point dir true).

(** ** Dead ends *)

(** The loop that looks for the first open door: [inl tt] when it leaves
    the function on a second one, [inr first] when it runs to its end. *)
Fixpoint find_first (point : _point) (dirs : list Z) (first : option Z)
  : M (unit + option Z) :=
  match dirs with
  | [] => ret (inr first)
  | dir :: dirs' =>
      d <- _get_door point dir ;;
      if default false d then
        match first with
        | Some _ => ret (inl tt)
        | None => find_first point dirs' (Some dir)
        end
      else find_first point dirs' first
  end.

(** [while (len(dirs) > 0) and (random.random() <= chance)] *)
Fixpoint more_wirings (fuel : nat) (point : _point) (chance : Q) (dirs : list Z)
  : M unit :=
  match fuel with
  | O => diverge
  | S fuel' =>
      if (0 <? length dirs)%nat then
        r <- random_random ;;
        if Qle_bool r chance then
          choice <- random_choice dirs ;;
          _set_door point choice true ;;
          dirs <- list_remove (Some choice) dirs ;;
          more_wirings fuel' point chance dirs
        else ret tt
      else ret tt
  end.

(** The result is Python's [True], [False] or [None]. *)
Definition _process_as_if_dead_end (fuel : nat) (point : _point)
    (filter_ : _point -> bool) (chance : Q) : M (option bool) :=
  let '(x, y) := point in
  v <- cells_get (x, y) ;;
  if v =? _BODY then
    pairs <- filterM (fun pair => v <- cells_get (fst pair) ;; ret (v =? _BODY))
               (_get_nbr_points_n_dirs point filter_) ;;
    let dirs := List.map snd pairs in
    if (length dirs =? 1)%nat then ret (Some true)
    else
      found <- find_first point dirs None ;;
      match found with
      | inl _ => ret None
      | inr first =>
          dirs <- list_remove first dirs ;;
          choice <- random_choice dirs ;;
          _set_door point choice true ;;
          dirs <- list_remove (Some choice) dirs ;;
          more_wirings fuel point chance dirs ;;
          ret (Some false)
      end
  else ret None.

(** ** Big cells *)

Definition _big_cell_filter (point : _point) : M bool :=
  let '(x, y) := point in
  a <- hor_get (x, y) ;;
  if a then
    b <- ver_get (x, y) ;;
    if b then
      c <- hor_get (x, y + 1) ;;
      if c then ver_get (x + 1, y) else ret false
    else ret false
  else ret false.

Definition _place_big_cell (point : _point) : M unit :=
  let '(x, y) := point in
  cells_set (x, y) _EMPTY ;;
  cells_set (x + 1, y) _EMPTY ;;
  cells_set (x, y + 1) _EMPTY ;;
  cells_set (x + 1, y + 1) _EMPTY ;;
  hor_set (x, y) false ;;
  hor_set (x, y + 1) false ;;
  ver_set (x, y) false ;;
  ver_set (x + 1, y) false.

Definition _difference (x y : Z) : Z :=
  if x <? y then y - x else x - y.

Definition _max_point_difference (a b : _point) : Z :=
  Z.max (_difference (fst a) (fst b)) (_difference (snd a) (snd b)).

(** [while len(p_big_cells) > 0] *)
Fixpoint place_big_cells (fuel : nat) (p_big_cells : list _point)
    (big_cells : ndarray bool) : M (ndarray bool) :=
  match fuel with
  | O => diverge
  | S fuel' =>
      if (0 <? length p_big_cells)%nat then
        choice <- random_choice p_big_cells ;;
        _place_big_cell choice ;;
        big_cells <- local_set big_cells choice true ;;
        let p_big_cells :=
          List.filter (fun cell => 1 <? _max_point_difference cell choice) p_big_cells in
        place_big_cells fuel' p_big_cells big_cells
      else ret big_cells
  end.

(** What [generate] returns. *)
Record Layout : Type := Build_Layout {
  out_cells : ndarray bool;
  out_big_cells : ndarray bool;
  out_hor_doors : ndarray bool;
  out_ver_doors : ndarray bool;
  out_chests : list _point
}.

Definition _finish (fuel : nat) (w h : Z) (filter_ : _point -> bool) (chance : Q)
  : M Layout :=
  chests <- foldM (fun chests cell =>
              r <- _process_as_if_dead_end fuel cell filter_ chance ;;
              ret (if default false r then chests ++ [cell] else chests))
            [] (product (range w) (range h)) ;;
  let big_cells := np_full (w - 1, h - 1) false in
  p_big_cells <- filterM _big_cell_filter (product (range (w - 1)) (range (h - 1))) ;;
  big_cells <- place_big_cells fuel p_big_cells big_cells ;;
  cells <- foldM (fun cells xy =>
             v <- cells_get xy ;;
             local_set cells xy (v =? _BODY))
           (np_full (w, h) false) (product (range w) (range h)) ;;
  fun s => (Ok (Build_Layout cells big_cells (hor_doors (data s)) (ver_doors (data s)) chests), s).

(** ** The generator *)

Definition Qlt_b (a b : Q) : bool := negb (Qle_bool b a).

Definition default_chance : Q := Qmake 7 20.
Definition default_c : Z := 3.

Section Generate.

(** The order in which Python iterates over a set, as a function of the
    insertions made into it. *)
Variable set_iter : pyset -> list _point.

Variables (fuel0 : nat) (w h : Z) (filter_ : _point -> bool) (chance : Q) (c : Z).

(** The body of [while True]: [None] when no vacancy is left and the
    spawners have become body, otherwise the heads, which are the next
    spawners. When every vacancy becomes a head, [heads] is the set
    [vacancies] itself; the list [spawners] is refilled from it before the
    set is cleared. *)
Definition wave (spawners : list _point) (vacancies : pyset)
  : M (option (list _point)) :=
  vacancies <- foldM (fun vacancies spawner =>
                 found <- filterM (fun cell => v <- cells_get cell ;; ret (v =? _EMPTY))
                            (_get_nbr_points spawner filter_) ;;
                 ret (set_update vacancies found))
               vacancies spawners ;;
  let L := set_len vacancies in
  if (L =? 0)%nat then
    for_each spawners (fun spawner => cells_set spawner _BODY) ;;
    ret None
  else
    heads <- (if c <? Z.of_nat L
              then random_sample (sorted vacancies) c
              else ret (set_iter vacancies)) ;;
    for_each heads (fun head => _wire head filter_) ;;
    for_each spawners (fun spawner => cells_set spawner _BODY) ;;
    let spawners := heads in
    for_each spawners (fun spawner => cells_set spawner _SPAWNER) ;;
    ret (Some spawners).

(** [while True]; one unit of fuel per wave. *)
Fixpoint grow (fuel : nat) (spawners : list _point) : M Layout :=
  match fuel with
  | O => diverge
  | S fuel' =>
      emit EvWave ;;
      next <- wave spawners set_empty ;;
      match next with
      | None => _finish fuel0 w h filter_ chance
      | Some spawners => grow fuel' spawners
      end
  end.

End Generate.

(** A run of [generate]: how it ended, the tape that is left and the
    trace. *)
Definition run : Type := (outcome Layout * list Z * list event)%type.

Definition generate (set_iter : pyset -> list _point) (fuel : nat)
    (w h px py : Z) (chance : Q) (c : Z) (tape : list Z) : run :=
  if w <=? 0 then (Raise (ValueError "w must be positive"), tape, [])
  else if h <=? 0 then (Raise (ValueError "h must be positive"), tape, [])
  else if negb ((0 <=? px) && (px <? w))
  then (Raise (ValueError "0 <= px < w must be True"), tape, [])
  else if negb ((0 <=? py) && (py <? h))
  then (Raise (ValueError "0 <= py < h must be True"), tape, [])
  else if negb (Qlt_b 0 chance && Qlt_b chance 1)
  then (Raise (ValueError "0.0 < chance < 1.0 must be True"), tape, [])
  else if c <? 0 then (Raise (ValueError "c can not be negative"), tape, [])
  else
    let data0 := Build_Arrays (np_full (w, h) _EMPTY)
                   (np_full (w - 1, h) false) (np_full (w, h - 1) false) in
    let filter_ := _PointChecker w h in
    let '(o, s) :=
      (cells_set (px, py) _SPAWNER ;;
       grow set_iter fuel w h filter_ chance c fuel [(px, py)])
        (Build_World data0 tape []) in
    (o, rng s, trace s).

(** Insertion order, one of the orders a set may be iterated in. *)
Definition insertion_order (s : pyset) : list _point := remove_dups s.

(** ** Reading a run and a layout *)

Definition run_outcome (r : run) : outcome Layout := fst (fst r).
Definition run_tape (r : run) : list Z := snd (fst r).
Definition run_trace (r : run) : list event := snd r.

(** The set orders the theorems range over: every element once. *)
Definition set_iter_ok (set_iter : pyset -> list _point) : Prop :=
  forall s, set_iter s ≡ₚ remove_dups s.

(** The preconditions of [generate]. *)
Definition valid_input (w h px py : Z) (chance : Q) (c : Z) : Prop :=
  0 < w /\ 0 < h /\ 0 <= px < w /\ 0 <= py < h /\
  (0 < chance)%Q /\ (chance < 1)%Q /\ 0 <= c.

(** The message of the first precondition that fails, if any. *)
Definition first_violation (w h px py : Z) (chance : Q) (c : Z) : option string :=
  if decide (w <= 0) then Some "w must be positive"%string
  else if decide (h <= 0) then Some "h must be positive"%string
  else if decide (0 <= px < w) then
    if decide (0 <= py < h) then
      match Qlt_le_dec 0 chance, Qlt_le_dec chance 1 with
      | left _, left _ =>
          if decide (c < 0) then Some "c can not be negative"%string else None
      | _, _ => Some "0.0 < chance < 1.0 must be True"%string
      end
    else Some "0 <= py < h must be True"%string
  else Some "0 <= px < w must be True"%string.

(** Entry [p] of a mask is true, [p] being a genuine (non-negative) index. *)
Definition flag (a : ndarray bool) (p : _point) : bool :=
  ((0 <=? fst p) && (0 <=? snd p)) && bool_decide (nd_get a p = Some true).

Definition occupied (L : Layout) (p : _point) : bool := flag (out_cells L) p.
Definition big_at (L : Layout) (p : _point) : bool := flag (out_big_cells L) p.
Definition hor_open (L : Layout) (p : _point) : bool := flag (out_hor_doors L) p.
Definition ver_open (L : Layout) (p : _point) : bool := flag (out_ver_doors L) p.

(** The four cells of the block whose upper left corner is [b], and the
    corners of the four blocks that hold a cell. *)
Definition block (b : _point) : list _point :=
  let '(x, y) := b in [(x, y); (x + 1, y); (x, y + 1); (x + 1, y + 1)].

Definition corners (p : _point) : list _point :=
  let '(x, y) := p in [(x, y); (x - 1, y); (x, y - 1); (x - 1, y - 1)].

(** The cell was merged into a big room. *)
Definition absorbed (L : Layout) (p : _point) : bool :=
  existsb (big_at L) (corners p).

(** The cell is occupied or was merged into a big room. *)
Definition covered (L : Layout) (p : _point) : bool :=
  occupied L p || absorbed L p.

(** The four structural neighbours. *)
Definition nbrs (p : _point) : list _point :=
  let '(x, y) := p in [(x - 1, y); (x + 1, y); (x, y - 1); (x, y + 1)].

(** The door between two cells of the layout is open. *)
Definition door_open (L : Layout) (a b : _point) : bool :=
  let '(x, y) := a in
  let '(x', y') := b in
  if decide (x' = x + 1 /\ y' = y) then hor_open L a
  else if decide (x' = x - 1 /\ y' = y) then hor_open L b
  else if decide (x' = x /\ y' = y + 1) then ver_open L a
  else if decide (x' = x /\ y' = y - 1) then ver_open L b
  else false.

(** Door symmetry, as the specification words it. *)
Definition door_symmetry (L : Layout) : Prop :=
  forall a b, door_open L a b = true -> occupied L a = true /\ occupied L b = true.

Definition door_symmetry_merged (L : Layout) : Prop :=
  forall a b, door_open L a b = true -> covered L a = true /\ covered L b = true.

(** One step of the open-door adjacency between occupied cells. *)
Definition door_step (L : Layout) (a b : _point) : Prop :=
  occupied L a = true /\ occupied L b = true /\ door_open L a b = true.

Definition connected (L : Layout) : Prop :=
  forall a b, occupied L a = true -> occupied L b = true -> rtc (door_step L) a b.

Definition no_isolated (L : Layout) : Prop :=
  forall a, occupied L a = true -> exists b, door_step L a b.

(** Two cells of one big room. *)
Definition same_room (L : Layout) (a b : _point) : Prop :=
  exists k, big_at L k = true /\ a ∈ block k /\ b ∈ block k /\ a <> b.

Definition merged_step (L : Layout) (a b : _point) : Prop :=
  covered L a = true /\ covered L b = true /\
  (door_open L a b = true \/ same_room L a b).

Definition connected_merged (L : Layout) : Prop :=
  forall a b, covered L a = true -> covered L b = true -> rtc (merged_step L) a b.

Definition no_isolated_merged (L : Layout) : Prop :=
  forall a, covered L a = true -> exists b, merged_step L a b.

(** How many structural neighbours of [p] pass [test]. *)
Definition count_nbrs (test : _point -> bool) (p : _point) : nat :=
  length (List.filter test (nbrs p)).

Definition chest_leaf (L : Layout) : Prop :=
  forall p, p ∈ out_chests L -> count_nbrs (occupied L) p = 1%nat.

Definition chest_leaf_merged (L : Layout) : Prop :=
  forall p, p ∈ out_chests L ->
    occupied L p = true /\ count_nbrs (covered L) p = 1%nat.

(** Big rooms keep their distance. *)
Definition big_disjoint (L : Layout) : Prop :=
  forall a b, big_at L a = true -> big_at L b = true -> a <> b ->
    1 < _max_point_difference a b /\
    (forall p, p ∈ block a -> p ∉ block b).

(** The waves a run started. *)
Definition waves (t : list event) : nat :=
  length (List.filter (fun ev => match ev with EvWave => true | _ => false end) t).

(** What every recorded event has to satisfy on a [w] by [h] grid. *)
Definition event_ok (w h : Z) (ev : event) : Prop :=
  match ev with
  | EvWave => True
  | EvDoorCall p dir =>
      _PointChecker w h p = true /\ dir ∈ _get_nbr_dirs p (_PointChecker w h)
  | EvIndex ACells (i, j) => 0 <= i <= w - 1 /\ 0 <= j <= h - 1
  | EvIndex AHor (i, j) => 0 <= i <= w - 2 /\ 0 <= j <= h - 1
  | EvIndex AVer (i, j) => 0 <= i <= w - 1 /\ 0 <= j <= h - 2
  end.

(** The error of [dirs.remove(first)] when [first] is [None]. *)
Definition remove_error : exn := ValueError "list.remove(x): x not in list".

Definition door_of (hor ver : ndarray bool) (a b : _point) : bool :=
  let '(x, y) := a in
  let '(x', y') := b in
  if decide (x' = x + 1 /\ y' = y) then flag hor a
  else if decide (x' = x - 1 /\ y' = y) then flag hor b
  else if decide (x' = x /\ y' = y + 1) then flag ver a
  else if decide (x' = x /\ y' = y - 1) then flag ver b
  else false.

Definition nonneg (p : _point) : bool := (0 <=? fst p) && (0 <=? snd p).

Definition cell (d : _Arrays) (p : _point) : Z :=
  if nonneg p then default _EMPTY (nd_get (cells d) p) else _EMPTY.

Definition door (d : _Arrays) (a b : _point) : bool :=
  door_of (hor_doors d) (ver_doors d) a b.

Definition inb (w h : Z) (p : _point) : Prop :=
  0 <= fst p < w /\ 0 <= snd p < h.

Definition wf_nd {A} (d0 d1 : Z) (a : ndarray A) : Prop :=
  nd_shape a = (d0, d1) /\
  length (nd_rows a) = Z.to_nat d0 /\
  Forall (fun row => length row = Z.to_nat d1) (nd_rows a).

Definition wf (w h : Z) (d : _Arrays) : Prop :=
  wf_nd w h (cells d) /\ wf_nd (w - 1) h (hor_doors d) /\ wf_nd w (h - 1) (ver_doors d).

(** The unordered pair [{a, b}] is [{p, q}]. *)
Definition edge_is (a b p q : _point) : Prop :=
  (a = p /\ b = q) \/ (a = q /\ b = p).

#[global] Instance edge_is_dec a b p q : Decision (edge_is a b p q).
Proof. unfold edge_is. apply _. Defined.

Definition quiet_ev (w h : Z) (ev : event) : Prop :=
  event_ok w h ev /\ ev <> EvWave.

Definition quiet (w h : Z) (s s' : World) : Prop :=
  wf w h (data s') /\
  exists evs, trace s' = evs ++ trace s /\ Forall (quiet_ev w h) evs.

Inductive abort : Type :=
| Raised (e : exn)
| OutOfFuel.

Definition sat {A} (w h : Z) (Al : abort -> Prop) (s : World) (m : M A)
    (Post : A -> World -> Prop) : Prop :=
  wf w h (data s) ->
  match m s with
  | (Ok a, s') => quiet w h s s' /\ Post a s'
  | (Raise e, s') => quiet w h s s' /\ Al (Raised e)
  | (Diverge, s') => quiet w h s s' /\ Al OutOfFuel
  end.

Definition same (s s' : World) : Prop :=
  data s' = data s /\ rng s' = rng s.

Definition nbr (p : _point) (dir : Z) : _point :=
  let '(x, y) := p in
  if dir =? _LEFT then (x - 1, y)
  else if dir =? _RIGHT then (x + 1, y)
  else if dir =? _UP then (x, y - 1)
  else (x, y + 1).

Definition is_dir (dir : Z) : Prop := 0 <= dir <= 3.

Definition doors_same (d d' : _Arrays) : Prop :=
  hor_doors d' = hor_doors d /\ ver_doors d' = ver_doors d.

(** What a state keeps when one door changes. *)
Definition door_set (s s' : World) (p q : _point) (v : bool) : Prop :=
  rng s' = rng s /\ cells (data s') = cells (data s) /\
  forall a b, door (data s') a b =
    if decide (edge_is a b p q) then v else door (data s) a b.

Definition keeps (s s' : World) : Prop :=
  data s' = data s /\ trace s' = trace s.

(** The door between [a] and [b] is one that wiring the head [p] opens. *)
Definition wired (d : _Arrays) (p a b : _point) : Prop :=
  exists q, edge_is a b p q /\ q ∈ nbrs p /\ cell d q = _SPAWNER.

(** What a wave with the heads [heads] does to the arrays. *)
Definition wave_step (d : _Arrays) (spawners heads : list _point) (d' : _Arrays) : Prop :=
  (forall q, q ∈ heads ->
     cell d q = _EMPTY /\ exists sp, sp ∈ spawners /\ q ∈ nbrs sp) /\
  (forall q, cell d' q =
     if decide (q ∈ heads) then _SPAWNER
     else if decide (q ∈ spawners) then _BODY else cell d q) /\
  (forall a b, door d' a b = true <->
     door d a b = true \/ exists hd, hd ∈ heads /\ wired d hd a b).

(** What the last wave does to the arrays. *)
Definition wave_end (d : _Arrays) (spawners : list _point) (d' : _Arrays) : Prop :=
  doors_same d d' /\
  (forall q, cell d' q = if decide (q ∈ spawners) then _BODY else cell d q).

(** From [s] to [s'] only doors from [p] in the directions [D] were opened. *)
Definition opened (s s' : World) (p : _point) (D : list Z) : Prop :=
  cells (data s') = cells (data s) /\
  forall a b,
    (door (data s) a b = true -> door (data s') a b = true) /\
    (door (data s') a b = true ->
       door (data s) a b = true \/ exists dir, dir ∈ D /\ edge_is a b p (nbr p dir)).

(** The directions of [p] that lead to a body cell. *)
Definition body_dirs (w h : Z) (d : _Arrays) (p : _point) : list Z :=
  List.map snd
    (List.filter (fun pair => cell d (fst pair) =? _BODY)
       (_get_nbr_points_n_dirs p (_PointChecker w h))).

Definition is_body (d : _Arrays) (q : _point) : bool := cell d q =? _BODY.

Definition dirs_ok (w h : Z) (p : _point) (dirs : list Z) : Prop :=
  forall dir, dir ∈ dirs -> is_dir dir /\ inb w h (nbr p dir).

(** What processing the cell [p] does. *)
Definition dead_end_post (w h : Z) (s : World) (p : _point) (r : option bool) (s' : World) : Prop :=
  opened s s' p (body_dirs w h (data s) p) /\
  (cell (data s) p = _BODY -> body_dirs w h (data s) p <> []) /\
  (default false r = true ->
     cell (data s) p = _BODY /\ length (body_dirs w h (data s) p) = 1%nat) /\
  (cell (data s) p <> _BODY -> same s s').

(** From [d] to [d'] only doors between body cells were opened. *)
Definition grown (d d' : _Arrays) : Prop :=
  cells d' = cells d /\
  forall a b,
    (door d a b = true -> door d' a b = true) /\
    (door d' a b = true ->
       door d a b = true \/ (cell d a = _BODY /\ cell d b = _BODY)).

Definition pass_post (d : _Arrays) (l chests : list _point) (d' : _Arrays) : Prop :=
  grown d d' /\
  (forall p, p ∈ chests -> p ∈ l /\ cell d p = _BODY /\ count_nbrs (is_body d) p = 1%nat) /\
  (forall p, p ∈ l -> cell d p = _BODY -> exists q, q ∈ nbrs p /\ cell d q = _BODY).

(** The four doors inside the block. *)
Definition block_open (d : _Arrays) (k : _point) : bool :=
  let '(x, y) := k in
  door d (x, y) (x + 1, y) && door d (x, y) (x, y + 1) &&
  door d (x, y + 1) (x + 1, y + 1) && door d (x + 1, y) (x + 1, y + 1).

(** The cell lies in a block that the mask flags. *)
Definition absorbed_by (mask : ndarray bool) (q : _point) : Prop :=
  exists k, flag mask k = true /\ q ∈ block k.

(** Both cells lie in one block that the mask flags. *)
Definition joined_by (mask : ndarray bool) (a b : _point) : Prop :=
  exists k, flag mask k = true /\ a ∈ block k /\ b ∈ block k.

Definition corner_ok (w h : Z) (k : _point) : Prop :=
  0 <= fst k <= w - 2 /\ 0 <= snd k <= h - 2.

(** What merging the block [k] does to the arrays. *)
Definition placed (d d' : _Arrays) (k : _point) : Prop :=
  (forall q, cell d' q = if decide (q ∈ block k) then _EMPTY else cell d q) /\
  (forall a b, door d' a b = true <->
     door d a b = true /\ ~ (a ∈ block k /\ b ∈ block k)).

(** The loop that places big cells: [d2] and [cands0] are the arrays and
    the candidates when it starts. *)
Definition big_inv (w h : Z) (d2 : _Arrays) (cands0 cands : list _point)
    (mask : ndarray bool) (d : _Arrays) : Prop :=
  wf_nd (w - 1) (h - 1) mask /\
  (forall k, flag mask k = true -> k ∈ cands0) /\
  (forall k, k ∈ cands -> k ∈ cands0) /\
  (forall c k, c ∈ cands -> flag mask k = true -> 1 < _max_point_difference c k) /\
  (forall k1 k2, flag mask k1 = true -> flag mask k2 = true -> k1 <> k2 ->
     1 < _max_point_difference k1 k2) /\
  (forall q, absorbed_by mask q -> cell d q = _EMPTY) /\
  (forall q, ~ absorbed_by mask q -> cell d q = cell d2 q) /\
  (forall a b, door d a b = true <-> door d2 a b = true /\ ~ joined_by mask a b).

(** What [_finish] returns when it starts from the arrays [d]; [d2] are the
    arrays after the pass over the dead ends. *)
Definition finish_post (d : _Arrays) (L : Layout) : Prop :=
  exists d2 : _Arrays,
    grown d d2 /\
    (forall p, p ∈ out_chests L ->
       cell d p = _BODY /\ count_nbrs (is_body d) p = 1%nat) /\
    (forall p, cell d p = _BODY -> exists q, q ∈ nbrs p /\ cell d q = _BODY) /\
    (forall k, big_at L k = true -> block_open d2 k = true) /\
    (forall k1 k2, big_at L k1 = true -> big_at L k2 = true -> k1 <> k2 ->
       1 < _max_point_difference k1 k2) /\
    (forall q, occupied L q = true <->
       cell d q = _BODY /\ ~ absorbed_by (out_big_cells L) q) /\
    (forall a b, door_open L a b = true <->
       door d2 a b = true /\ ~ joined_by (out_big_cells L) a b).

Definition linked (d : _Arrays) (a b : _point) : Prop := door d a b = true.

(** What holds of the arrays each time [while True] starts over. *)
Definition growing (epi : _point) (d : _Arrays) (spawners : list _point) : Prop :=
  (forall p, cell d p = _EMPTY \/ cell d p = _SPAWNER \/ cell d p = _BODY) /\
  (forall p, cell d p = _SPAWNER <-> p ∈ spawners) /\
  (forall a b, door d a b = true -> cell d a <> _EMPTY /\ cell d b <> _EMPTY) /\
  cell d epi <> _EMPTY /\
  (forall a, cell d a <> _EMPTY -> rtc (linked d) epi a).

(** What holds of the arrays when the growth is over. *)
Definition grown_up (epi : _point) (d : _Arrays) : Prop :=
  (forall p, cell d p = _EMPTY \/ cell d p = _BODY) /\
  (forall a b, door d a b = true -> cell d a = _BODY /\ cell d b = _BODY) /\
  cell d epi = _BODY /\
  (forall a, cell d a = _BODY -> rtc (linked d) epi a).

(** The cells that the growth has reached. *)
Definition reached (w h : Z) (d : _Arrays) : list _point :=
  List.filter (fun p => negb (cell d p =? _EMPTY)) (product (range w) (range h)).

(** Everything the claims say of a layout that comes out. *)
Definition good_layout (L : Layout) : Prop :=
  door_symmetry_merged L /\ connected_merged L /\ no_isolated_merged L /\
  chest_leaf_merged L /\ big_disjoint L.

(** How a generation may stop early: on the [ValueError] of
    [dirs.remove(first)], or out of fuel when there is too little of it. *)
Definition may_stop (w h : Z) (fuel0 : nat) (ab : abort) : Prop :=
  match ab with
  | Raised e => e = remove_error
  | OutOfFuel => Z.of_nat fuel0 < Z.max (w * h) 3
  end.

Definition never (ab : abort) : Prop := False.

(** What is proved of a run of the loop that starts in [s] with [fuel]. *)
Definition run_ok (w h : Z) (fuel0 : nat) (c : Z) (s : World) (fuel : nat)
    (r : outcome Layout * World) : Prop :=
  (exists evs, trace (snd r) = evs ++ trace s /\ Forall (event_ok w h) evs) /\
  (forall L, fst r = Ok L -> good_layout L) /\
  (forall e, fst r = Raise e -> e = remove_error) /\
  (1 <= c -> (waves (trace s) < length (reached w h (data s)))%nat ->
     Z.of_nat (waves (trace (snd r))) <= w * h /\
     (fst r = Diverge ->
        Z.of_nat fuel + Z.of_nat (length (reached w h (data s))) <= w * h \/
        Z.of_nat fuel0 < Z.max (w * h) 3)).

(** [generate(3, 2, 2, 0, c=1)] when the walk goes left, down, left, up. *)
Definition tape_3x2 : list Z := [0; 1; 0; 0; 0].

Definition layout_3x2 : Layout :=
  Build_Layout
    (NdArray (3, 2) [[false; false]; [false; false]; [true; false]])
    (NdArray (2, 1) [[true]; [false]])
    (NdArray (2, 2) [[false; false]; [true; false]])
    (NdArray (3, 1) [[false]; [false]; [false]])
    [(2, 0)].

(** [generate(4, 2, 1, 0)] when the big room is placed in the middle. *)
Definition tape_4x2 : list Z := [1].

Definition layout_4x2 : Layout :=
  Build_Layout
    (NdArray (4, 2) [[true; true]; [false; false]; [false; false]; [true; true]])
    (NdArray (3, 1) [[false]; [true]; [false]])
    (NdArray (3, 2) [[true; true]; [false; false]; [true; true]])
    (NdArray (4, 1) [[true]; [false]; [false]; [true]])
    [].

(** [generate(5, 2, 2, 0, c=10)] when both draws of the big-room pass are
    0: the rooms are placed at the corners (0, 0) and (2, 0). *)
Definition tape_5x2 : list Z := [0; 0].

Definition layout_5x2 : Layout :=
  Build_Layout
    (NdArray (5, 2) [[false; false]; [false; false]; [false; false];
                     [false; false]; [true; true]])
    (NdArray (4, 1) [[true]; [false]; [true]; [false]])
    (NdArray (4, 2) [[false; false]; [true; true]; [false; false]; [true; true]])
    (NdArray (5, 1) [[false]; [false]; [false]; [false]; [true]])
    [].

(** Two states with the same arrays and the same tape. *)
Definition twin (s1 s2 : World) : Prop :=
  data s1 = data s2 /\ rng s1 = rng s2.

(** The computation never looks at the trace. *)
Definition blind {A} (m : M A) : Prop :=
  forall s1 s2, twin s1 s2 ->
    fst (m s1) = fst (m s2) /\ twin (snd (m s1)) (snd (m s2)).

(** [q] is an empty cell next to one of the spawners. *)
Definition vacant (w h : Z) (d : _Arrays) (spawners : list _point) (q : _point) : Prop :=
  exists sp, sp ∈ spawners /\ q ∈ nbrs sp /\ inb w h q /\ cell d q = _EMPTY.

(** How [wave] picks the heads among the vacancies. *)
Definition head_choice (set_iter : pyset -> list _point) (c : Z) (vac : pyset)
  : M (list _point) :=
  if c <? Z.of_nat (set_len vac)
  then random_sample (sorted vac) c
  else ret (set_iter vac).

(** What one wave does, with the draw that chose its heads. *)
Definition wave_desc (w h : Z) (set_iter : pyset -> list _point) (c : Z)
    (s : World) (spawners : list _point) (next : option (list _point)) (s' : World)
  : Prop :=
  exists vac s1,
    (forall q, q ∈ vac <-> vacant w h (data s) spawners q) /\ same s s1 /\
    match next with
    | None =>
        set_len vac = 0%nat /\ rng s' = rng s /\ wave_end (data s) spawners (data s')
    | Some heads =>
        set_len vac <> 0%nat /\
        (exists s2, head_choice set_iter c vac s1 = (Ok heads, s2) /\ rng s' = rng s2) /\
        Forall (inb w h) heads /\ wave_step (data s) spawners heads (data s')
    end.

(** Another order in which a set may be iterated. *)
Definition reversed_order (s : pyset) : list _point := reverse (remove_dups s).

(** The direction that leads back. *)
Definition opposite (dir : Z) : Z :=
  if dir =? _LEFT then _RIGHT
  else if dir =? _RIGHT then _LEFT
  else if dir =? _UP then _DOWN
  else _UP.

(** How many of the directions [dirs] lead from [p] through an open door. *)
Definition count_open (d : _Arrays) (p : _point) (dirs : list Z) : nat :=
  length (List.filter (fun dir => door d p (nbr p dir)) dirs).

(** The only way to stop early is to have too little fuel for the loop of
    further wirings. *)
Definition only_fuel (fuel : nat) (ab : abort) : Prop :=
  ab = OutOfFuel /\ (fuel < 3)%nat.

(** Every body cell has an open door to a neighbour that is a body cell. *)
Definition linked_up (d : _Arrays) : Prop :=
  forall p, cell d p = _BODY ->
    exists q, q ∈ nbrs p /\ cell d q = _BODY /\ door d p q = true.

(** The outcome [o] and final state [s'] of processing the cell [p] in the
    state [s], by the cases of the code. *)
Definition dead_end_case (w h : Z) (fuel : nat) (s : World) (p : _point)
    (o : outcome (option bool)) (s' : World) : Prop :=
  if decide (cell (data s) p = _BODY) then
    if decide (length (body_dirs w h (data s) p) = 1%nat)
    then o = Ok (Some true) /\ same s s'
    else
      match count_open (data s) p (body_dirs w h (data s) p) with
      | O => o = Raise remove_error /\ same s s'
      | S O =>
          (o = Ok (Some false) /\
           opened s s' p (body_dirs w h (data s) p) /\
           (2 <= count_open (data s') p (body_dirs w h (data s) p))%nat) \/
          (o = Diverge /\ (fuel < 3)%nat)
      | S (S _) => o = Ok None /\ same s s'
      end
  else o = Ok None /\ same s s'.

(** The four arrays of a layout have the shapes of a [w] by [h] level. *)
Definition shaped (w h : Z) (L : Layout) : Prop :=
  wf_nd w h (out_cells L) /\ wf_nd (w - 1) (h - 1) (out_big_cells L) /\
  wf_nd (w - 1) h (out_hor_doors L) /\ wf_nd w (h - 1) (out_ver_doors L).

(** No restriction on how a run may stop. *)
Definition anything (ab : abort) : Prop := True.

(** The growth has reached a second cell, or is about to. *)
Definition started (w h : Z) (epi : _point) (d : _Arrays) (sp : list _point) : Prop :=
  (exists q, q <> epi /\ cell d q <> _EMPTY) \/ (exists q, vacant w h d sp q).

(** The epicentre is the only cell that is not empty, and it is a body
    cell. *)
Definition lonely_body (epi : _point) (d : _Arrays) : Prop :=
  cell d epi = _BODY /\ forall q, q <> epi -> cell d q = _EMPTY.

(** Any way to stop early but the error of [dirs.remove(first)]. *)
Definition no_remove_error (ab : abort) : Prop := ab <> Raised remove_error.

(** The element types of the arrays of [generate]. *)
Inductive dtype : Type := DInt | DBool.

(** [np.full(shape, v, dtype)] and [np.empty(shape, dtype)] on a platform
    where numpy refuses some shapes: [refused dtype shape] is the message
    of the [ValueError] it raises then (a length or a size above what the
    platform can index), [None] when it builds the array. Failing for lack
    of memory is no outcome of this model, here as for the lists and sets
    of the program. *)
Definition np_new {A} (refused : dtype -> Z * Z -> option string)
    (dt : dtype) (shape : Z * Z) (v : A) : M (ndarray A) :=
  match refused dt shape with
  | Some msg => raise (ValueError msg)
  | None => ret (np_full shape v)
  end.

(** [_finish] with its two allocations: the mask of the big rooms after the
    pass over the dead ends, the array of the cells before it is filled. *)
Definition _finish_np (refused : dtype -> Z * Z -> option string) (fuel : nat)
    (w h : Z) (filter_ : _point -> bool) (chance : Q) : M Layout :=
  (chests <- foldM (fun chests cell =>
               r <- _process_as_if_dead_end fuel cell filter_ chance ;;
               ret (if default false r then chests ++ [cell] else chests))
             [] (product (range w) (range h)) ;;
   big_cells <- np_new refused DBool (w - 1, h - 1) false ;;
   p_big_cells <- filterM _big_cell_filter (product (range (w - 1)) (range (h - 1))) ;;
   big_cells <- place_big_cells fuel p_big_cells big_cells ;;
   cells <- np_new refused DBool (w, h) false ;;
   cells <- foldM (fun cells xy =>
              v <- cells_get xy ;;
              local_set cells xy (v =? _BODY))
            cells (product (range w) (range h)) ;;
   fun s => (Ok (Build_Layout cells big_cells (hor_doors (data s)) (ver_doors (data s))
                   chests), s))%M.

(** [while True] of [generate], ending in [_finish_np]. *)
Fixpoint grow_np (refused : dtype -> Z * Z -> option string)
    (set_iter : pyset -> list _point) (fuel0 : nat) (w h : Z)
    (filter_ : _point -> bool) (chance : Q) (c : Z)
    (fuel : nat) (spawners : list _point) : M Layout :=
  match fuel with
  | O => diverge
  | S fuel' =>
      (emit EvWave ;;
       next <- wave set_iter filter_ c spawners set_empty ;;
       match next with
       | None => _finish_np refused fuel0 w h filter_ chance
       | Some spawners =>
           grow_np refused set_iter fuel0 w h filter_ chance c fuel' spawners
       end)%M
  end.

(** [generate] on a platform where numpy refuses some shapes: the three
    arrays of [data] are built after the checks of the arguments, in the
    order [cells], [hor_doors], [ver_doors], before anything is drawn or
    written. [generate] is [generate_np] where no array is refused. *)
Definition generate_np (refused : dtype -> Z * Z -> option string)
    (set_iter : pyset -> list _point) (fuel : nat)
    (w h px py : Z) (chance : Q) (c : Z) (tape : list Z) : run :=
  if w <=? 0 then (Raise (ValueError "w must be positive"), tape, [])
  else if h <=? 0 then (Raise (ValueError "h must be positive"), tape, [])
  else if negb ((0 <=? px) && (px <? w))
  then (Raise (ValueError "0 <= px < w must be True"), tape, [])
  else if negb ((0 <=? py) && (py <? h))
  then (Raise (ValueError "0 <= py < h must be True"), tape, [])
  else if negb (Qlt_b 0 chance && Qlt_b chance 1)
  then (Raise (ValueError "0.0 < chance < 1.0 must be True"), tape, [])
  else if c <? 0 then (Raise (ValueError "c can not be negative"), tape, [])
  else
    match refused DInt (w, h) with
    | Some msg => (Raise (ValueError msg), tape, [])
    | None =>
    match refused DBool (w - 1, h) with
    | Some msg => (Raise (ValueError msg), tape, [])
    | None =>
    match refused DBool (w, h - 1) with
    | Some msg => (Raise (ValueError msg), tape, [])
    | None =>
      let data0 := Build_Arrays (np_full (w, h) _EMPTY)
                     (np_full (w - 1, h) false) (np_full (w, h - 1) false) in
      let filter_ := _PointChecker w h in
      let '(o, s) :=
        (cells_set (px, py) _SPAWNER ;;
         grow_np refused set_iter fuel w h filter_ chance c fuel [(px, py)])%M
          (Build_World data0 tape []) in
      (o, rng s, trace s)
    end end end.

(** The first of the three arrays of [data] that numpy refuses. *)
Definition start_refusal (refused : dtype -> Z * Z -> option string) (w h : Z)
  : option string :=
  match refused DInt (w, h) with
  | Some msg => Some msg
  | None =>
      match refused DBool (w - 1, h) with
      | Some msg => Some msg
      | None => refused DBool (w, h - 1)
      end
  end.

(** The first of the two arrays of [_finish] that numpy refuses. *)
Definition finish_refusal (refused : dtype -> Z * Z -> option string) (w h : Z)
  : option string :=
  match refused DBool (w - 1, h - 1) with
  | Some msg => Some msg
  | None => refused DBool (w, h)
  end.

(** The first of the five arrays of a run that numpy refuses. *)
Definition refusal (refused : dtype -> Z * Z -> option string) (w h : Z)
  : option string :=
  match start_refusal refused w h with
  | Some msg => Some msg
  | None => finish_refusal refused w h
  end.

(** A platform for the examples: it refuses a shape with a length of
    [2 ^ 63] or more, which does not fit the signed 64-bit lengths of numpy,
    and builds every other array. Real platforms refuse more. *)
Definition refuse_huge (dt : dtype) (shape : Z * Z) : option string :=
  if (2 ^ 63 <=? fst shape) || (2 ^ 63 <=? snd shape)
  then Some "Maximum allowed dimension exceeded"%string
  else None.

(** Some flagged corner is at most one away from [k]. *)
Definition near_room (mask : ndarray bool) (k : _point) : Prop :=
  exists k', flag mask k' = true /\ _max_point_difference k k' <= 1.

(** The test of [_big_cell_filter], read on the door arrays of a layout. *)
Definition block_open_out (L : Layout) (k : _point) : bool :=
  let '(x, y) := k in
  door_open L (x, y) (x + 1, y) && door_open L (x, y) (x, y + 1) &&
  door_open L (x, y + 1) (x + 1, y + 1) && door_open L (x + 1, y) (x + 1, y + 1).

(** [generate(3, 3, 1, 1, c=9)] when the big room is placed in the upper left
    corner: all twelve doors are open before it is placed. *)
Definition tape_3x3 : list Z := [0].

Definition layout_3x3 : Layout :=
  Build_Layout
    (NdArray (3, 3) [[false; false; true]; [false; false; true]; [true; true; true]])
    (NdArray (2, 2) [[true; false]; [false; false]])
    (NdArray (2, 3) [[false; false; true]; [true; true; true]])
    (NdArray (3, 2) [[false; true]; [false; true]; [true; true]])
    [].

(** No body cell has an empty neighbour in the grid. *)
Definition sealed (w h : Z) (d : _Arrays) : Prop :=
  forall p q, cell d p = _BODY -> q ∈ nbrs p -> inb w h q -> cell d q <> _EMPTY.

(** ** The state as the proofs read it *)

(** ** numpy indexing *)

Lemma norm_index_nonneg n i :
  0 <= i -> norm_index n i = if decide (i < n) then Some (Z.to_nat i) else None.
Proof.
  intros Hi. unfold norm_index.
  destruct (decide (i < n)) as [Hlt|Hge].
  - replace (0 <=? i) with true by (symmetry; apply Z.leb_le; lia).
    replace (i <? n) with true by (symmetry; apply Z.ltb_lt; lia). reflexivity.
  - replace (i <? n) with false by (symmetry; apply Z.ltb_ge; lia).
    replace (i <? 0) with false by (symmetry; apply Z.ltb_ge; lia).
    rewrite !andb_false_r. reflexivity.
Qed.

Lemma nd_get_inb {A} d0 d1 (a : ndarray A) x y :
  wf_nd d0 d1 a -> 0 <= x < d0 -> 0 <= y < d1 -> is_Some (nd_get a (x, y)).
Proof.
  intros (Hs & Hl & Hr) Hx Hy. unfold nd_get. rewrite Hs. simpl.
  rewrite !norm_index_nonneg by lia.
  rewrite !decide_True by lia.
  destruct (nd_rows a !! Z.to_nat x) as [row|] eqn:Hrow.
  - apply lookup_lt_is_Some.
    rewrite (proj1 (Forall_forall _ _) Hr row); [lia|].
    eapply list_elem_of_lookup_2; eauto.
  - apply lookup_ge_None in Hrow. lia.
Qed.

Lemma nd_get_outside {A} d0 d1 (a : ndarray A) x y :
  wf_nd d0 d1 a -> 0 <= x -> 0 <= y -> ~ (x < d0 /\ y < d1) -> nd_get a (x, y) = None.
Proof.
  intros (Hs & Hl & Hr) Hx Hy Hn. unfold nd_get. rewrite Hs. simpl.
  rewrite !norm_index_nonneg by lia.
  destruct (decide (x < d0)); [|reflexivity].
  rewrite decide_False by lia. reflexivity.
Qed.

Lemma nd_set_inb {A} d0 d1 (a : ndarray A) x y v :
  wf_nd d0 d1 a -> 0 <= x < d0 -> 0 <= y < d1 ->
  exists a', nd_set a (x, y) v = Some a' /\ wf_nd d0 d1 a' /\
    forall q, nonneg q = true ->
      nd_get a' q = if decide (q = (x, y)) then Some v else nd_get a q.
Proof.
  intros (Hs & Hl & Hr) Hx Hy. unfold nd_set. rewrite Hs. simpl.
  rewrite !norm_index_nonneg by lia.
  rewrite !decide_True by lia.
  destruct (nd_rows a !! Z.to_nat x) as [row|] eqn:Hrow.
  2:{ apply lookup_ge_None in Hrow. lia. }
  assert (Hlen : length row = Z.to_nat d1).
  { apply (proj1 (Forall_forall _ _) Hr row). eapply list_elem_of_lookup_2; eauto. }
  rewrite decide_True by lia.
  eexists. split; [reflexivity|]. split.
  - split; [reflexivity|]. simpl. split; [rewrite length_insert; exact Hl|].
    apply Forall_insert; [exact Hr|]. rewrite length_insert. exact Hlen.
  - intros [qx qy] Hq. unfold nonneg in Hq. simpl in Hq.
    apply andb_true_iff in Hq as [Hqx Hqy].
    apply Z.leb_le in Hqx. apply Z.leb_le in Hqy.
    unfold nd_get. simpl. rewrite ?Hs. simpl.
    rewrite !norm_index_nonneg by lia.
    destruct (decide (qx < d0)) as [Hx0|Hx0].
    2:{ rewrite decide_False; [reflexivity|]. intros [= -> ->]. lia. }
    destruct (decide (qy < d1)) as [Hy0|Hy0].
    2:{ rewrite decide_False; [reflexivity|]. intros [= -> ->]. lia. }
    destruct (decide (qx = x)) as [->|Hne].
    + rewrite list_lookup_insert_eq by lia. rewrite Hrow.
      destruct (decide (qy = y)) as [->|Hney].
      * rewrite decide_True by reflexivity.
        apply list_lookup_insert_eq. lia.
      * rewrite decide_False by congruence.
        apply list_lookup_insert_ne. lia.
    + rewrite decide_False by congruence.
      rewrite list_lookup_insert_ne by lia. reflexivity.
Qed.

Lemma np_full_wf {A} d0 d1 (v : A) : wf_nd d0 d1 (np_full (d0, d1) v).
Proof.
  unfold np_full, wf_nd. simpl. split; [reflexivity|].
  split; [apply length_replicate|].
  apply Forall_replicate. apply length_replicate.
Qed.

Lemma np_full_get {A} d0 d1 (v : A) x y :
  0 <= x < d0 -> 0 <= y < d1 -> nd_get (np_full (d0, d1) v) (x, y) = Some v.
Proof.
  intros Hx Hy. unfold nd_get, np_full. simpl.
  rewrite !norm_index_nonneg by lia. rewrite !decide_True by lia.
  rewrite lookup_replicate_2 by lia. apply lookup_replicate_2. lia.
Qed.

Lemma nd_ext {A} d0 d1 (a b : ndarray A) :
  wf_nd d0 d1 a -> wf_nd d0 d1 b ->
  (forall x y, 0 <= x < d0 -> 0 <= y < d1 -> nd_get a (x, y) = nd_get b (x, y)) ->
  a = b.
Proof.
  intros (Hs & Hl & Hr) (Hs' & Hl' & Hr') Heq.
  destruct a as [sa ra], b as [sb rb]. simpl in *. subst sa sb. f_equal.
  apply list_eq. intros i.
  destruct (decide (i < Z.to_nat d0)%nat) as [Hi|Hi].
  2:{ rewrite !(proj2 (lookup_ge_None _ _)) by lia. reflexivity. }
  destruct (lookup_lt_is_Some_2 ra i) as [r1 H1]; [lia|].
  destruct (lookup_lt_is_Some_2 rb i) as [r2 H2]; [lia|].
  rewrite H1, H2. f_equal.
  assert (L1 : length r1 = Z.to_nat d1).
  { apply (proj1 (Forall_forall _ _) Hr r1). eapply list_elem_of_lookup_2; eauto. }
  assert (L2 : length r2 = Z.to_nat d1).
  { apply (proj1 (Forall_forall _ _) Hr' r2). eapply list_elem_of_lookup_2; eauto. }
  apply list_eq. intros j.
  destruct (decide (j < Z.to_nat d1)%nat) as [Hj|Hj].
  2:{ rewrite !(proj2 (lookup_ge_None _ _)) by lia. reflexivity. }
  specialize (Heq (Z.of_nat i) (Z.of_nat j) ltac:(lia) ltac:(lia)).
  unfold nd_get in Heq. simpl in Heq.
  rewrite !norm_index_nonneg in Heq by lia.
  rewrite !decide_True in Heq by lia.
  rewrite !Nat2Z.id in Heq. rewrite H1, H2 in Heq. exact Heq.
Qed.

Lemma nonneg_inb w h p : inb w h p -> nonneg p = true.
Proof.
  intros [H1 H2]. unfold nonneg.
  apply andb_true_iff. split; apply Z.leb_le; lia.
Qed.

Lemma flag_true a p :
  flag a p = true <-> nonneg p = true /\ nd_get a p = Some true.
Proof.
  unfold flag, nonneg. rewrite andb_true_iff, bool_decide_eq_true. reflexivity.
Qed.

Lemma flag_inb d0 d1 a p :
  wf_nd d0 d1 a -> flag a p = true -> inb d0 d1 p.
Proof.
  intros Hwf Hf. apply flag_true in Hf as [Hn Hg].
  destruct p as [x y]. unfold nonneg in Hn. simpl in Hn.
  apply andb_true_iff in Hn as [Hx Hy]. apply Z.leb_le in Hx. apply Z.leb_le in Hy.
  unfold inb. simpl.
  destruct (decide (x < d0 /\ y < d1)) as [?|Hn]; [lia|].
  rewrite (nd_get_outside d0 d1) in Hg by (auto; lia). discriminate.
Qed.

Lemma flag_set d0 d1 a x y v a' :
  wf_nd d0 d1 a -> 0 <= x < d0 -> 0 <= y < d1 ->
  nd_set a (x, y) v = Some a' ->
  wf_nd d0 d1 a' /\
  forall q, flag a' q = if decide (q = (x, y)) then v else flag a q.
Proof.
  intros Hwf Hx Hy Hset.
  destruct (nd_set_inb d0 d1 a x y v Hwf Hx Hy) as (a'' & Hs & Hwf' & Hget).
  rewrite Hset in Hs. injection Hs as <-. split; [exact Hwf'|].
  intros q. unfold flag. fold (nonneg q).
  destruct (nonneg q) eqn:Hq.
  - rewrite (Hget q Hq). simpl. destruct (decide (q = (x, y))); [|reflexivity].
    destruct v; reflexivity.
  - simpl. rewrite decide_False; [reflexivity|].
    intros ->. unfold nonneg in Hq. simpl in Hq.
    apply andb_false_iff in Hq as [Hq|Hq]; apply Z.leb_gt in Hq; lia.
Qed.

Lemma cell_outside w h d p : wf w h d -> ~ inb w h p -> cell d p = _EMPTY.
Proof.
  intros (Hc & _) Hn. unfold cell. destruct (nonneg p) eqn:Hp; [|reflexivity].
  destruct p as [x y]. unfold nonneg in Hp. simpl in Hp.
  apply andb_true_iff in Hp as [Hx Hy]. apply Z.leb_le in Hx. apply Z.leb_le in Hy.
  rewrite (nd_get_outside w h); auto. unfold inb in Hn. simpl in Hn. lia.
Qed.

Lemma door_sym d a b : door d a b = door d b a.
Proof.
  unfold door, door_of. destruct a as [x y], b as [x' y'].
  repeat (destruct (decide _)); try reflexivity; lia.
Qed.

Lemma door_nbrs d a b : door d a b = true -> b ∈ nbrs a.
Proof.
  unfold door, door_of, nbrs. destruct a as [x y], b as [x' y'].
  repeat (destruct (decide _)); try discriminate; intros _;
    match goal with H : _ /\ _ |- _ => destruct H as [-> ->] end;
    rewrite !elem_of_cons; auto 10.
Qed.

Lemma nbrs_sym a b : b ∈ nbrs a -> a ∈ nbrs b.
Proof.
  destruct a as [x y], b as [x' y']. unfold nbrs.
  rewrite !elem_of_cons, !elem_of_nil.
  intros [H|[H|[H|[H|[]]]]]; injection H as -> ->.
  - right; left; f_equal; lia.
  - left; f_equal; lia.
  - do 3 right; left; f_equal; lia.
  - do 2 right; left; f_equal; lia.
Qed.

Lemma nbrs_irrefl a : a ∉ nbrs a.
Proof.
  destruct a as [x y]. unfold nbrs. rewrite !elem_of_cons, !elem_of_nil.
  intros [H|[H|[H|[H|[]]]]]; injection H; lia.
Qed.

Lemma door_inb w h d a b :
  wf w h d -> door d a b = true -> inb w h a /\ inb w h b.
Proof.
  intros (_ & Hh & Hv). unfold door, door_of. destruct a as [x y], b as [x' y'].
  repeat (destruct (decide _)); try discriminate; intros Hf;
    match goal with H : _ /\ _ |- _ => destruct H as [-> ->] end.
  - apply (flag_inb _ _ _ _ Hh) in Hf. unfold inb in *. simpl in *. lia.
  - apply (flag_inb _ _ _ _ Hh) in Hf. unfold inb in *. simpl in *. lia.
  - apply (flag_inb _ _ _ _ Hv) in Hf. unfold inb in *. simpl in *. lia.
  - apply (flag_inb _ _ _ _ Hv) in Hf. unfold inb in *. simpl in *. lia.
Qed.

Lemma door_of_hor_set hor hor' ver x y v :
  (forall q, flag hor' q = if decide (q = (x, y)) then v else flag hor q) ->
  forall a b, door_of hor' ver a b =
    if decide (edge_is a b (x, y) (x + 1, y)) then v else door_of hor ver a b.
Proof.
  intros Hf [xa ya] [xb yb]. unfold door_of, edge_is. rewrite !Hf.
  repeat (destruct (decide _)); try reflexivity;
    repeat match goal with
    | H : _ /\ _ |- _ => destruct H
    | H : _ \/ _ |- _ => destruct H
    | H : (_, _) = (_, _) |- _ => injection H as ? ?
    end; subst; try lia; try congruence;
    try (exfalso; match goal with H : ~ (_ \/ _) |- _ => apply H end;
         first [left; split; f_equal; lia | right; split; f_equal; lia]).
Qed.

Lemma door_of_ver_set hor ver ver' x y v :
  (forall q, flag ver' q = if decide (q = (x, y)) then v else flag ver q) ->
  forall a b, door_of hor ver' a b =
    if decide (edge_is a b (x, y) (x, y + 1)) then v else door_of hor ver a b.
Proof.
  intros Hf [xa ya] [xb yb]. unfold door_of, edge_is. rewrite !Hf.
  repeat (destruct (decide _)); try reflexivity;
    repeat match goal with
    | H : _ /\ _ |- _ => destruct H
    | H : _ \/ _ |- _ => destruct H
    | H : (_, _) = (_, _) |- _ => injection H as ? ?
    end; subst; try lia; try congruence;
    try (exfalso; match goal with H : ~ (_ \/ _) |- _ => apply H end;
         first [left; split; f_equal; lia | right; split; f_equal; lia]).
Qed.

(** ** Quiet runs

    [sat w h Al s m Post]: started in a well-formed state [s], the
    computation [m] records only valid events and no wave, keeps the
    arrays well-formed, and either returns a value with [Post] or stops in
    a way that [Al] allows. *)

Section Quiet.

Variables (w h : Z).
Variable Al : abort -> Prop.

Lemma quiet_refl s : wf w h (data s) -> quiet w h s s.
Proof. intros H. split; [exact H|]. exists []. split; [reflexivity|constructor]. Qed.

Lemma quiet_trans s1 s2 s3 : quiet w h s1 s2 -> quiet w h s2 s3 -> quiet w h s1 s3.
Proof.
  intros (_ & e1 & H1 & F1) (W & e2 & H2 & F2). split; [exact W|].
  exists (e2 ++ e1). split; [rewrite H2, H1, app_assoc; reflexivity|].
  apply Forall_app; auto.
Qed.

Lemma sat_ret {A} s (a : A) (Post : A -> World -> Prop) :
  Post a s -> sat w h Al s (ret a) Post.
Proof. intros HP Hwf. simpl. split; [apply quiet_refl; exact Hwf|exact HP]. Qed.

Lemma sat_raise {A} s e (Post : A -> World -> Prop) :
  Al (Raised e) -> sat w h Al s (raise e) Post.
Proof. intros HP Hwf. simpl. split; [apply quiet_refl; exact Hwf|exact HP]. Qed.

Lemma sat_diverge {A} s (Post : A -> World -> Prop) :
  Al OutOfFuel -> sat w h Al s diverge Post.
Proof. intros HP Hwf. simpl. split; [apply quiet_refl; exact Hwf|exact HP]. Qed.

Lemma sat_bind {A B} s (m : M A) (k : A -> M B) P1 (P2 : B -> World -> Prop) :
  sat w h Al s m P1 ->
  (forall a s', quiet w h s s' -> P1 a s' -> sat w h Al s' (k a) P2) ->
  sat w h Al s (bind m k) P2.
Proof.
  intros Hm Hk Hwf. specialize (Hm Hwf). unfold bind.
  destruct (m s) as [[a|e|] s1]; try exact Hm.
  destruct Hm as [Hq HP]. specialize (Hk a s1 Hq HP (proj1 Hq)).
  destruct (k a s1) as [[b|e|] s2]; destruct Hk as [Hq2 H2];
    (split; [eapply quiet_trans; eassumption|exact H2]).
Qed.

Lemma sat_mono {A} s (m : M A) (P1 P2 : A -> World -> Prop) :
  sat w h Al s m P1 ->
  (forall a s', quiet w h s s' -> P1 a s' -> P2 a s') ->
  sat w h Al s m P2.
Proof.
  intros Hm Himp Hwf. specialize (Hm Hwf).
  destruct (m s) as [[a|e|] s1]; try exact Hm.
  destruct Hm as [Hq HP]. split; [exact Hq|]. apply Himp; assumption.
Qed.

Lemma sat_emit s ev (Post : unit -> World -> Prop) :
  quiet_ev w h ev ->
  Post tt (Build_World (data s) (rng s) (ev :: trace s)) ->
  sat w h Al s (emit ev) Post.
Proof.
  intros Hev HP Hwf. simpl. split; [|exact HP].
  split; [exact Hwf|]. exists [ev]. split; [reflexivity|].
  constructor; [exact Hev|constructor].
Qed.

(** *** Loops *)

Lemma sat_for_each {A} (body : A -> M unit) (I : list A -> World -> Prop) l :
  forall done s,
  I done s ->
  (forall done' x s1, (exists rest, done ++ l = done' ++ x :: rest) ->
     I done' s1 -> sat w h Al s1 (body x) (fun _ s2 => I (done' ++ [x]) s2)) ->
  sat w h Al s (for_each l body) (fun _ s' => I (done ++ l) s').
Proof.
  induction l as [|x l IH]; intros done s HI Hbody.
  - simpl. apply sat_ret. rewrite app_nil_r. exact HI.
  - simpl. eapply sat_bind.
    + apply Hbody; [exists l; reflexivity|exact HI].
    + intros u s1 _ HI1. simpl in HI1.
      eapply sat_mono.
      * apply (IH (done ++ [x]) s1 HI1).
        intros done' y s2 [rest Hrest] HI2. apply Hbody; [|exact HI2].
        exists rest. rewrite <- Hrest, <- app_assoc. reflexivity.
      * intros u2 s2 _ HI2. simpl in HI2. rewrite <- app_assoc in HI2. exact HI2.
Qed.

Lemma sat_foldM {A B} (f : B -> A -> M B) (I : list A -> B -> World -> Prop) l :
  forall done acc s,
  I done acc s ->
  (forall done' x acc1 s1, (exists rest, done ++ l = done' ++ x :: rest) ->
     I done' acc1 s1 ->
     sat w h Al s1 (f acc1 x) (fun acc2 s2 => I (done' ++ [x]) acc2 s2)) ->
  sat w h Al s (foldM f acc l) (fun acc' s' => I (done ++ l) acc' s').
Proof.
  induction l as [|x l IH]; intros done acc s HI Hbody.
  - simpl. apply sat_ret. rewrite app_nil_r. exact HI.
  - simpl. eapply sat_bind.
    + apply Hbody; [exists l; reflexivity|exact HI].
    + intros acc1 s1 _ HI1. simpl in HI1.
      eapply sat_mono.
      * apply (IH (done ++ [x]) acc1 s1 HI1).
        intros done' y acc2 s2 [rest Hrest] HI2. apply Hbody; [|exact HI2].
        exists rest. rewrite <- Hrest, <- app_assoc. reflexivity.
      * intros acc2 s2 _ HI2. simpl in HI2. rewrite <- app_assoc in HI2. exact HI2.
Qed.

(** A comprehension whose condition only reads the state. *)
Lemma sat_filterM {A} (cond : A -> M bool) (test : A -> bool) l s0 :
  forall s, same s0 s ->
  (forall x s1, x ∈ l -> same s0 s1 ->
     sat w h Al s1 (cond x) (fun b s2 => b = test x /\ same s0 s2)) ->
  sat w h Al s (filterM cond l) (fun r s' => r = List.filter test l /\ same s0 s').
Proof.
  induction l as [|x l IH]; intros s Hs Hc.
  - simpl. apply sat_ret. auto.
  - simpl. eapply sat_bind.
    + apply Hc; [apply list_elem_of_here|exact Hs].
    + intros b s1 _ [-> Hs1]. simpl. eapply sat_bind.
      * apply (IH s1 Hs1). intros y s2 Hy. apply Hc. apply list_elem_of_further, Hy.
      * intros r s2 _ [-> Hs2]. simpl. apply sat_ret. split; [|exact Hs2].
        destruct (test x); reflexivity.
Qed.

End Quiet.

(** ** The primitives *)

Lemma checker_inb w h p : _PointChecker w h p = true <-> inb w h p.
Proof.
  destruct p as [x y]. unfold _PointChecker, inb. simpl.
  rewrite !andb_true_iff, !Z.leb_le, !Z.ltb_lt. tauto.
Qed.

Lemma pairs_spec w h p q dir :
  (q, dir) ∈ _get_nbr_points_n_dirs p (_PointChecker w h) <->
  is_dir dir /\ q = nbr p dir /\ inb w h q.
Proof.
  destruct p as [x y]. unfold _get_nbr_points_n_dirs.
  rewrite list_elem_of_In, filter_In, <- list_elem_of_In. simpl fst.
  rewrite checker_inb. rewrite !elem_of_cons, elem_of_nil.
  unfold is_dir, nbr, _LEFT, _RIGHT, _UP, _DOWN. split.
  - intros [[H|[H|[H|[H|[]]]]] Hin]; injection H as Hq Hd; subst q dir;
      simpl; (split; [lia|split; [reflexivity|exact Hin]]).
  - intros (Hd & -> & Hin). split; [|exact Hin].
    assert (dir = 0 \/ dir = 1 \/ dir = 2 \/ dir = 3) as [-> | [-> | [-> | ->]]] by lia;
      simpl; auto 10.
Qed.

Lemma dirs_spec w h p dir :
  dir ∈ _get_nbr_dirs p (_PointChecker w h) <-> is_dir dir /\ inb w h (nbr p dir).
Proof.
  replace (_get_nbr_dirs p (_PointChecker w h))
    with (List.map snd (_get_nbr_points_n_dirs p (_PointChecker w h)))
    by (destruct p; reflexivity).
  rewrite list_elem_of_In, in_map_iff. split.
  - intros ([q d] & <- & Hin). apply list_elem_of_In, pairs_spec in Hin.
    destruct Hin as (Hd & -> & Hin). auto.
  - intros [Hd Hin]. exists (nbr p dir, dir). split; [reflexivity|].
    apply list_elem_of_In, pairs_spec. auto.
Qed.

Lemma points_spec w h p q :
  q ∈ _get_nbr_points p (_PointChecker w h) <-> q ∈ nbrs p /\ inb w h q.
Proof.
  destruct p as [x y]. unfold _get_nbr_points, nbrs.
  rewrite list_elem_of_In, filter_In, <- list_elem_of_In, checker_inb. reflexivity.
Qed.

Lemma nbr_nbrs p dir : nbr p dir ∈ nbrs p.
Proof.
  destruct p as [x y]. unfold nbr, nbrs.
  repeat (destruct (_ =? _)); rewrite !elem_of_cons; auto 10.
Qed.

Lemma nbrs_nbr p q : q ∈ nbrs p -> exists dir, is_dir dir /\ q = nbr p dir.
Proof.
  destruct p as [x y]. unfold nbrs. rewrite !elem_of_cons, elem_of_nil.
  unfold is_dir.
  intros [-> | [-> | [-> | [-> | []]]]];
    [exists 0|exists 1|exists 2|exists 3]; split; try lia; reflexivity.
Qed.

Lemma doors_same_door d d' a b : doors_same d d' -> door d' a b = door d a b.
Proof. intros [H1 H2]. unfold door. rewrite H1, H2. reflexivity. Qed.

Lemma same_refl s : same s s.
Proof. split; reflexivity. Qed.

Lemma same_trans s1 s2 s3 : same s1 s2 -> same s2 s3 -> same s1 s3.
Proof. intros [A1 B1] [A2 B2]. split; congruence. Qed.

Section Prims.

Variables (w h : Z).
Variable Al : abort -> Prop.

Lemma cells_get_sat s p :
  inb w h p ->
  sat w h Al s (cells_get p) (fun v s' => v = cell (data s) p /\ same s s').
Proof.
  intros Hp Hwf. destruct p as [x y].
  destruct (nd_get_inb w h (cells (data s)) x y (proj1 Hwf)) as [v Hv];
    [apply Hp|apply Hp|].
  unfold cells_get, bind, emit. simpl. rewrite Hv. split.
  - split; [exact Hwf|]. exists [EvIndex ACells (x, y)]. split; [reflexivity|].
    constructor; [|constructor]. split; [|discriminate].
    unfold inb in Hp. simpl in *. lia.
  - split; [|split; reflexivity].
    unfold cell. rewrite (nonneg_inb w h) by exact Hp. rewrite Hv. reflexivity.
Qed.

Lemma cells_set_sat s p v :
  inb w h p ->
  sat w h Al s (cells_set p v)
    (fun _ s' => rng s' = rng s /\ doors_same (data s) (data s') /\
       forall q, cell (data s') q = if decide (q = p) then v else cell (data s) q).
Proof.
  intros Hp Hwf. destruct p as [x y].
  destruct (nd_set_inb w h (cells (data s)) x y v (proj1 Hwf)) as (a' & Hset & Hwf' & Hget);
    [apply Hp|apply Hp|].
  unfold cells_set, bind, emit. simpl. rewrite Hset. split.
  - split; [split; [exact Hwf'|exact (proj2 Hwf)]|].
    exists [EvIndex ACells (x, y)]. split; [reflexivity|].
    constructor; [|constructor]. split; [|discriminate].
    unfold inb in Hp. simpl in *. lia.
  - simpl. split; [reflexivity|]. split; [split; reflexivity|].
    intros q. unfold cell. simpl. destruct (nonneg q) eqn:Hq.
    + rewrite (Hget q Hq). destruct (decide (q = (x, y))); reflexivity.
    + rewrite decide_False; [reflexivity|]. intros ->.
      rewrite (nonneg_inb w h) in Hq by exact Hp. discriminate.
Qed.

Lemma hor_get_sat s x y :
  0 <= x <= w - 2 -> 0 <= y <= h - 1 ->
  sat w h Al s (hor_get (x, y))
    (fun v s' => v = flag (hor_doors (data s)) (x, y) /\ same s s').
Proof.
  intros Hx Hy Hwf.
  destruct (nd_get_inb (w - 1) h (hor_doors (data s)) x y (proj1 (proj2 Hwf))) as [v Hv];
    [lia|lia|].
  unfold hor_get, bind, emit. simpl. rewrite Hv. split.
  - split; [exact Hwf|]. exists [EvIndex AHor (x, y)]. split; [reflexivity|].
    constructor; [|constructor]. split; [|discriminate]. simpl. lia.
  - split; [|split; reflexivity].
    unfold flag. simpl. rewrite Hv.
    replace (0 <=? x) with true by (symmetry; apply Z.leb_le; lia).
    replace (0 <=? y) with true by (symmetry; apply Z.leb_le; lia).
    destruct v; reflexivity.
Qed.

Lemma ver_get_sat s x y :
  0 <= x <= w - 1 -> 0 <= y <= h - 2 ->
  sat w h Al s (ver_get (x, y))
    (fun v s' => v = flag (ver_doors (data s)) (x, y) /\ same s s').
Proof.
  intros Hx Hy Hwf.
  destruct (nd_get_inb w (h - 1) (ver_doors (data s)) x y (proj2 (proj2 Hwf))) as [v Hv];
    [lia|lia|].
  unfold ver_get, bind, emit. simpl. rewrite Hv. split.
  - split; [exact Hwf|]. exists [EvIndex AVer (x, y)]. split; [reflexivity|].
    constructor; [|constructor]. split; [|discriminate]. simpl. lia.
  - split; [|split; reflexivity].
    unfold flag. simpl. rewrite Hv.
    replace (0 <=? x) with true by (symmetry; apply Z.leb_le; lia).
    replace (0 <=? y) with true by (symmetry; apply Z.leb_le; lia).
    destruct v; reflexivity.
Qed.

Lemma hor_set_sat s x y v :
  0 <= x <= w - 2 -> 0 <= y <= h - 1 ->
  sat w h Al s (hor_set (x, y) v)
    (fun _ s' => rng s' = rng s /\ cells (data s') = cells (data s) /\
       forall a b, door (data s') a b =
         if decide (edge_is a b (x, y) (x + 1, y)) then v else door (data s) a b).
Proof.
  intros Hx Hy Hwf.
  destruct (nd_set_inb (w - 1) h (hor_doors (data s)) x y v (proj1 (proj2 Hwf)))
    as (a' & Hset & _); [lia|lia|].
  destruct (flag_set (w - 1) h _ x y v a' (proj1 (proj2 Hwf)) ltac:(lia) ltac:(lia) Hset)
    as [Hwf' Hflag].
  unfold hor_set, bind, emit. simpl. rewrite Hset. split.
  - split; [split; [exact (proj1 Hwf)|split; [exact Hwf'|exact (proj2 (proj2 Hwf))]]|].
    exists [EvIndex AHor (x, y)]. split; [reflexivity|].
    constructor; [|constructor]. split; [|discriminate]. simpl. lia.
  - simpl. split; [reflexivity|]. split; [reflexivity|].
    unfold door. simpl. apply door_of_hor_set. exact Hflag.
Qed.

Lemma ver_set_sat s x y v :
  0 <= x <= w - 1 -> 0 <= y <= h - 2 ->
  sat w h Al s (ver_set (x, y) v)
    (fun _ s' => rng s' = rng s /\ cells (data s') = cells (data s) /\
       forall a b, door (data s') a b =
         if decide (edge_is a b (x, y) (x, y + 1)) then v else door (data s) a b).
Proof.
  intros Hx Hy Hwf.
  destruct (nd_set_inb w (h - 1) (ver_doors (data s)) x y v (proj2 (proj2 Hwf)))
    as (a' & Hset & _); [lia|lia|].
  destruct (flag_set w (h - 1) _ x y v a' (proj2 (proj2 Hwf)) ltac:(lia) ltac:(lia) Hset)
    as [Hwf' Hflag].
  unfold ver_set, bind, emit. simpl. rewrite Hset. split.
  - split; [split; [exact (proj1 Hwf)|split; [exact (proj1 (proj2 Hwf))|exact Hwf']]|].
    exists [EvIndex AVer (x, y)]. split; [reflexivity|].
    constructor; [|constructor]. split; [|discriminate]. simpl. lia.
  - simpl. split; [reflexivity|]. split; [reflexivity|].
    unfold door. simpl. apply door_of_ver_set. exact Hflag.
Qed.

End Prims.

(** ** The door ledger, the random module and list removal *)

Lemma edge_is_sym a b p q : edge_is a b p q <-> edge_is a b q p.
Proof. unfold edge_is. tauto. Qed.

Lemma if_edge_iff {A} a b p q p' q' (v d : A) :
  (edge_is a b p q <-> edge_is a b p' q') ->
  (if decide (edge_is a b p q) then v else d) =
  (if decide (edge_is a b p' q') then v else d).
Proof. intros H. repeat destruct (decide _); tauto. Qed.

Lemma quiet_same w h s s' :
  wf w h (data s) -> data s' = data s -> trace s' = trace s -> quiet w h s s'.
Proof.
  intros Hwf Hd Ht. split; [rewrite Hd; exact Hwf|].
  exists []. split; [exact Ht|constructor].
Qed.

Section Ledger.

Variables (w h : Z).
Variable Al : abort -> Prop.

Lemma emit_sat s ev :
  quiet_ev w h ev -> sat w h Al s (emit ev) (fun _ s' => same s s').
Proof. intros Hev. apply sat_emit; [exact Hev|]. split; reflexivity. Qed.

Lemma sat_ret_bind {A B} s (a : A) (k : A -> M B) (P : B -> World -> Prop) :
  sat w h Al s (k a) P -> sat w h Al s (bind (ret a) k) P.
Proof. intros H. exact H. Qed.

Lemma door_call_ok p dir :
  inb w h p -> is_dir dir -> inb w h (nbr p dir) -> quiet_ev w h (EvDoorCall p dir).
Proof.
  intros Hp Hd Hn. split; [|discriminate]. simpl. split.
  - apply checker_inb, Hp.
  - apply dirs_spec. auto.
Qed.

Lemma _get_door_sat s p dir :
  inb w h p -> is_dir dir -> inb w h (nbr p dir) ->
  sat w h Al s (_get_door p dir)
    (fun r s' => r = Some (door (data s) p (nbr p dir)) /\ same s s').
Proof.
  intros Hp Hd Hn. unfold _get_door.
  eapply sat_bind; [apply emit_sat, door_call_ok; assumption|].
  intros [] s1 _ Hs1. destruct p as [x y]. unfold inb in Hp, Hn. simpl in Hp.
  unfold is_dir in Hd. unfold nbr, _LEFT, _RIGHT, _UP, _DOWN in *.
  assert (dir = 0 \/ dir = 1 \/ dir = 2 \/ dir = 3) as [-> | [-> | [-> | ->]]] by lia;
    simpl in *.
  - eapply sat_bind; [apply hor_get_sat; lia|].
    intros v s2 _ [-> Hs2]. apply sat_ret. split; [|eapply same_trans; eassumption].
    destruct Hs1 as [-> _]. unfold door, door_of.
    rewrite decide_False by lia. rewrite decide_True by lia. reflexivity.
  - eapply sat_bind; [apply hor_get_sat; lia|].
    intros v s2 _ [-> Hs2]. apply sat_ret. split; [|eapply same_trans; eassumption].
    destruct Hs1 as [-> _]. unfold door, door_of.
    rewrite decide_True by lia. reflexivity.
  - eapply sat_bind; [apply ver_get_sat; lia|].
    intros v s2 _ [-> Hs2]. apply sat_ret. split; [|eapply same_trans; eassumption].
    destruct Hs1 as [-> _]. unfold door, door_of.
    rewrite decide_False by lia. rewrite decide_False by lia.
    rewrite decide_False by lia. rewrite decide_True by lia. reflexivity.
  - eapply sat_bind; [apply ver_get_sat; lia|].
    intros v s2 _ [-> Hs2]. apply sat_ret. split; [|eapply same_trans; eassumption].
    destruct Hs1 as [-> _]. unfold door, door_of.
    rewrite decide_False by lia. rewrite decide_False by lia.
    rewrite decide_True by lia. reflexivity.
Qed.

Lemma _set_door_sat s p dir v :
  inb w h p -> is_dir dir -> inb w h (nbr p dir) ->
  sat w h Al s (_set_door p dir v) (fun _ s' => door_set s s' p (nbr p dir) v).
Proof.
  intros Hp Hd Hn. unfold _set_door.
  eapply sat_bind; [apply emit_sat, door_call_ok; assumption|].
  intros [] s1 _ [Hd1 Hr1]. destruct p as [x y]. unfold inb in Hp, Hn. simpl in Hp.
  unfold is_dir in Hd. unfold door_set, nbr, _LEFT, _RIGHT, _UP, _DOWN in *.
  assert (dir = 0 \/ dir = 1 \/ dir = 2 \/ dir = 3) as [-> | [-> | [-> | ->]]] by lia;
    simpl in *.
  - eapply sat_bind; [apply hor_set_sat; lia|].
    intros [] s2 _ (Hr2 & Hc2 & Hdoor).
    apply sat_ret_bind.
    apply sat_ret_bind.
    apply sat_ret. rewrite Hr2, Hc2, Hr1, Hd1. split; [reflexivity|].
    split; [reflexivity|]. intros a b. rewrite Hdoor, Hd1.
    apply if_edge_iff. replace (x - 1 + 1) with x by lia. apply edge_is_sym.
  - apply sat_ret_bind.
    eapply sat_bind; [apply hor_set_sat; lia|].
    intros [] s3 _ (Hr2 & Hc2 & Hdoor).
    apply sat_ret_bind.
    apply sat_ret. rewrite Hr2, Hc2, Hr1, Hd1. split; [reflexivity|].
    split; [reflexivity|]. intros a b. rewrite Hdoor, Hd1. reflexivity.
  - apply sat_ret_bind.
    apply sat_ret_bind.
    eapply sat_bind; [apply ver_set_sat; lia|].
    intros [] s4 _ (Hr2 & Hc2 & Hdoor).
    apply sat_ret. rewrite Hr2, Hc2, Hr1, Hd1. split; [reflexivity|].
    split; [reflexivity|]. intros a b. rewrite Hdoor, Hd1.
    apply if_edge_iff. replace (y - 1 + 1) with y by lia. apply edge_is_sym.
  - apply sat_ret_bind.
    apply sat_ret_bind.
    apply sat_ret_bind.
    eapply sat_mono; [apply ver_set_sat; lia|].
    intros [] s5 _ (Hr2 & Hc2 & Hdoor).
    rewrite Hr2, Hc2, Hr1, Hd1. split; [reflexivity|].
    split; [reflexivity|]. intros a b. rewrite Hdoor, Hd1. reflexivity.
Qed.

(** A condition that reads one cell. *)
Lemma cell_test_sat s0 s q (c : Z) :
  inb w h q -> same s0 s ->
  sat w h Al s (v <- cells_get q ;; ret (v =? c))%M
    (fun b s' => b = (cell (data s0) q =? c) /\ same s0 s').
Proof.
  intros Hq Hs. eapply sat_bind; [apply cells_get_sat, Hq|].
  intros v s1 _ [-> Hs1]. apply sat_ret.
  destruct Hs as [Hd Hr]. rewrite Hd. split; [reflexivity|].
  eapply same_trans; [split; eassumption|exact Hs1].
Qed.

(** *** The random module *)

Lemma keeps_quiet s s' : wf w h (data s) -> keeps s s' -> quiet w h s s'.
Proof. intros Hwf [Hd Ht]. apply quiet_same; assumption. Qed.

Lemma next_draw_sat s :
  sat w h Al s next_draw (fun _ s' => keeps s s').
Proof.
  intros Hwf. unfold next_draw. destruct (rng s) as [|r t]; simpl.
  - split; [apply quiet_refl, Hwf|split; reflexivity].
  - split; [apply quiet_same; [exact Hwf|reflexivity|reflexivity]|split; reflexivity].
Qed.

Lemma randbelow_sat s n :
  (0 < n)%nat ->
  sat w h Al s (randbelow n) (fun j s' => (j < n)%nat /\ keeps s s').
Proof.
  intros Hn. unfold randbelow. eapply sat_bind; [apply next_draw_sat|].
  intros r s1 _ Hk. apply sat_ret. split; [|exact Hk].
  pose proof (Z.mod_pos_bound r (Z.of_nat n) ltac:(lia)). lia.
Qed.

Lemma random_random_sat s :
  sat w h Al s random_random (fun _ s' => keeps s s').
Proof.
  unfold random_random. eapply sat_bind; [apply next_draw_sat|].
  intros r s1 _ Hk. apply sat_ret. exact Hk.
Qed.

Lemma random_choice_sat {A} s (l : list A) :
  l <> [] ->
  sat w h Al s (random_choice l) (fun x s' => x ∈ l /\ keeps s s').
Proof.
  intros Hl. unfold random_choice. destruct l as [|a l]; [congruence|].
  eapply sat_bind; [apply randbelow_sat; simpl; lia|].
  intros j s1 _ [Hj Hk].
  destruct (lookup_lt_is_Some_2 (a :: l) j Hj) as [x Hx]. rewrite Hx.
  apply sat_ret. split; [|exact Hk]. eapply list_elem_of_lookup_2, Hx.
Qed.

Lemma keeps_trans s1 s2 s3 : keeps s1 s2 -> keeps s2 s3 -> keeps s1 s3.
Proof. intros [A1 B1] [A2 B2]. split; congruence. Qed.

Lemma sample_pool_sat {A} k : forall (pool : list A) s,
  (k <= length pool)%nat ->
  sat w h Al s (sample_pool k pool)
    (fun r s' => length r = k /\ r ⊆+ pool /\ keeps s s').
Proof.
  induction k as [|k IH]; intros pool s Hk.
  - simpl. apply sat_ret. split; [reflexivity|]. split; [|split; reflexivity].
    apply submseteq_nil_l.
  - simpl. eapply sat_bind; [apply randbelow_sat; lia|].
    intros j s1 _ [Hj Hk1].
    destruct (lookup_lt_is_Some_2 pool j Hj) as [x Hx]. rewrite Hx.
    eapply sat_bind.
    + apply (IH (delete j pool) s1). rewrite length_delete by eauto. lia.
    + intros r s2 _ (Hlen & Hsub & Hk2). apply sat_ret.
      split; [simpl; lia|]. split; [|eapply keeps_trans; eassumption].
      rewrite (delete_Permutation pool j x Hx). apply submseteq_skip. exact Hsub.
Qed.

Lemma random_sample_sat {A} s (population : list A) k :
  0 <= k <= Z.of_nat (length population) ->
  sat w h Al s (random_sample population k)
    (fun r s' => length r = Z.to_nat k /\ r ⊆+ population /\ keeps s s').
Proof.
  intros Hk. unfold random_sample.
  replace (k <? 0) with false by (symmetry; apply Z.ltb_ge; lia).
  replace (Z.of_nat (length population) <? k) with false
    by (symmetry; apply Z.ltb_ge; lia).
  simpl. apply sample_pool_sat. lia.
Qed.

(** *** Removing from a list of directions *)

Lemma remove_first_in d l :
  d ∈ l -> exists r, remove_first d l = Some r /\ l ≡ₚ d :: r.
Proof.
  induction l as [|e l IH]; intros Hin.
  - apply elem_of_nil in Hin as [].
  - simpl. destruct (e =? d) eqn:He.
    + apply Z.eqb_eq in He as ->. exists l. split; reflexivity.
    + apply Z.eqb_neq in He. apply elem_of_cons in Hin as [->|Hin]; [congruence|].
      destruct (IH Hin) as (r & -> & Hp). exists (e :: r). split; [reflexivity|].
      rewrite Hp. apply perm_swap.
Qed.

Lemma list_remove_sat s d l :
  d ∈ l ->
  sat w h Al s (list_remove (Some d) l)
    (fun r s' => l ≡ₚ d :: r /\ s' = s).
Proof.
  intros Hin. unfold list_remove.
  destruct (remove_first_in d l Hin) as (r & -> & Hp).
  apply sat_ret. auto.
Qed.

End Ledger.

(** ** One wave *)

Section Wave.

Variables (w h : Z).
Variable Al : abort -> Prop.
Variable set_iter : pyset -> list _point.
Hypothesis set_iter_perm : set_iter_ok set_iter.

Lemma sat_wf {A} s (m : M A) (P : A -> World -> Prop) :
  (wf w h (data s) -> sat w h Al s m P) -> sat w h Al s m P.
Proof. intros H Hwf. exact (H Hwf Hwf). Qed.

Lemma cell_inb d p : wf w h d -> cell d p <> _EMPTY -> inb w h p.
Proof.
  intros Hwf Hc. destruct (decide (inb w h p)) as [?|Hn]; [assumption|].
  exfalso. apply Hc. eapply cell_outside; eassumption.
Qed.

Lemma cells_same_cell d d' : cells d' = cells d -> forall q, cell d' q = cell d q.
Proof. intros H q. unfold cell. rewrite H. reflexivity. Qed.

Lemma _wire_sat s p :
  inb w h p ->
  sat w h Al s (_wire p (_PointChecker w h))
    (fun _ s' => rng s' = rng s /\ cells (data s') = cells (data s) /\
       forall a b, door (data s') a b = true <->
         door (data s) a b = true \/ wired (data s) p a b).
Proof.
  intros Hp. apply sat_wf. intros Hwf. unfold _wire.
  eapply sat_bind.
  { apply (sat_filterM w h Al _ (fun pair => cell (data s) (fst pair) =? _SPAWNER) _ s s).
    - apply same_refl.
    - intros [q dir] s1 Hin Hs1. apply pairs_spec in Hin as (_ & _ & Hq).
      apply cell_test_sat; assumption. }
  intros pairs s1 _ [-> [Hd1 Hr1]].
  set (dirs := List.map snd _).
  assert (Hdirs : forall dir, dir ∈ dirs <->
            is_dir dir /\ inb w h (nbr p dir) /\ cell (data s) (nbr p dir) = _SPAWNER).
  { intros dir. unfold dirs. rewrite list_elem_of_In, in_map_iff. split.
    - intros ([q d0] & <- & Hin). apply filter_In in Hin as [Hin Ht].
      apply list_elem_of_In, pairs_spec in Hin as (Hd & -> & Hq). simpl in *.
      apply Z.eqb_eq in Ht. auto.
    - intros (Hd & Hq & Hc). exists (nbr p dir, dir). split; [reflexivity|].
      apply filter_In. split; [apply list_elem_of_In, pairs_spec; auto|].
      simpl. apply Z.eqb_eq, Hc. }
  eapply sat_mono.
  { apply (sat_for_each w h Al _
      (fun done s2 => rng s2 = rng s /\ cells (data s2) = cells (data s) /\
         forall a b, door (data s2) a b = true <->
           door (data s) a b = true \/ exists dir, dir ∈ done /\ edge_is a b p (nbr p dir))
      dirs [] s1).
    - rewrite Hr1, Hd1. split; [reflexivity|]. split; [reflexivity|].
      intros a b. split; [auto|]. intros [?|(dir & Hin & _)]; [assumption|].
      apply elem_of_nil in Hin as [].
    - intros done' dir s2 [rest Hrest] (Hr2 & Hc2 & Hdoor2). simpl in Hrest.
      assert (Hin : dir ∈ dirs).
      { rewrite Hrest. apply elem_of_app. right. apply list_elem_of_here. }
      apply Hdirs in Hin as (Hd & Hq & Hc).
      eapply sat_mono; [apply _set_door_sat; assumption|].
      intros [] s3 _ (Hr3 & Hc3 & Hdoor3).
      rewrite Hr3, Hc3. split; [exact Hr2|]. split; [exact Hc2|].
      intros a b. rewrite Hdoor3.
      destruct (decide (edge_is a b p (nbr p dir))) as [He|He].
      + split; [|reflexivity]. intros _. right. exists dir.
        split; [apply elem_of_app; right; apply list_elem_of_here|exact He].
      + rewrite Hdoor2. split.
        * intros [?|(d0 & Hin0 & He0)]; [auto|]. right. exists d0.
          split; [apply elem_of_app; auto|exact He0].
        * intros [?|(d0 & Hin0 & He0)]; [auto|]. right. exists d0.
          split; [|exact He0]. apply elem_of_app in Hin0 as [?|Hin0]; [assumption|].
          apply list_elem_of_singleton in Hin0 as ->. contradiction. }
  intros [] s2 _ (Hr2 & Hc2 & Hdoor2). simpl in Hdoor2.
  split; [exact Hr2|]. split; [exact Hc2|].
  intros a b. rewrite Hdoor2. split.
  - intros [?|(dir & Hin & He)]; [auto|]. right.
    apply Hdirs in Hin as (Hd & Hq & Hc). exists (nbr p dir).
    split; [exact He|]. split; [apply nbr_nbrs|exact Hc].
  - intros [?|(q & He & Hq & Hc)]; [auto|]. right.
    apply nbrs_nbr in Hq as (dir & Hd & ->). exists dir. split; [|exact He].
    apply Hdirs. split; [exact Hd|]. split; [|exact Hc].
    apply (cell_inb (data s)); [exact Hwf|]. rewrite Hc. discriminate.
Qed.

(** [for p in l: cells[p] = v] *)
Lemma paint_sat s l v :
  Forall (inb w h) l ->
  sat w h Al s (for_each l (fun p => cells_set p v))
    (fun _ s' => rng s' = rng s /\ doors_same (data s) (data s') /\
       forall q, cell (data s') q = if decide (q ∈ l) then v else cell (data s) q).
Proof.
  intros Hl.
  eapply sat_mono.
  { apply (sat_for_each w h Al _
      (fun done s2 => rng s2 = rng s /\ doors_same (data s) (data s2) /\
         forall q, cell (data s2) q = if decide (q ∈ done) then v else cell (data s) q)
      l [] s).
    - split; [reflexivity|]. split; [split; reflexivity|]. intros q.
      rewrite decide_False; [reflexivity|]. apply not_elem_of_nil.
    - intros done' p s2 [rest Hrest] (Hr2 & [Hh2 Hv2] & Hc2). simpl in Hrest.
      assert (Hp : inb w h p).
      { apply (proj1 (Forall_forall _ _) Hl). rewrite Hrest.
        apply elem_of_app. right. apply list_elem_of_here. }
      eapply sat_mono; [apply cells_set_sat, Hp|].
      intros [] s3 _ (Hr3 & [Hh3 Hv3] & Hc3).
      split; [congruence|]. split; [split; congruence|].
      intros q. rewrite Hc3, Hc2.
      destruct (decide (q = p)) as [->|Hne].
      + rewrite decide_True; [reflexivity|].
        apply elem_of_app. right. apply list_elem_of_here.
      + destruct (decide (q ∈ done')) as [Hin|Hin].
        * rewrite decide_True; [reflexivity|]. apply elem_of_app. auto.
        * rewrite decide_False; [reflexivity|]. intros Hin'.
          apply elem_of_app in Hin' as [?|Hin']; [contradiction|].
          apply list_elem_of_singleton in Hin'. contradiction. }
  intros [] s2 _ H. exact H.
Qed.

(** The scan for vacancies. *)
Lemma scan_sat s spawners vac0 :
  Forall (inb w h) spawners ->
  sat w h Al s
    (foldM (fun vacancies spawner =>
              found <- filterM (fun cell => v <- cells_get cell ;; ret (v =? _EMPTY))
                         (_get_nbr_points spawner (_PointChecker w h)) ;;
              ret (set_update vacancies found))
           vac0 spawners)%M
    (fun vac s' => same s s' /\
       forall q, q ∈ vac <->
         q ∈ vac0 \/ exists sp, sp ∈ spawners /\ q ∈ nbrs sp /\ inb w h q /\
                               cell (data s) q = _EMPTY).
Proof.
  intros Hsp.
  eapply sat_mono.
  { apply (sat_foldM w h Al _
      (fun done vac s2 => same s s2 /\
         forall q, q ∈ vac <->
           q ∈ vac0 \/ exists sp, sp ∈ done /\ q ∈ nbrs sp /\ inb w h q /\
                                 cell (data s) q = _EMPTY)
      spawners [] vac0 s).
    - split; [apply same_refl|]. intros q. split; [auto|].
      intros [?|(sp & Hin & _)]; [assumption|]. apply elem_of_nil in Hin as [].
    - intros done' sp vac1 s1 [rest Hrest] [Hs1 Hvac]. simpl in Hrest.
      eapply sat_bind.
      { apply (sat_filterM w h Al _ (fun q => cell (data s) q =? _EMPTY) _ s s1 Hs1).
        intros q s2 Hin Hs2. apply points_spec in Hin as [_ Hq].
        apply cell_test_sat; assumption. }
      intros found s2 _ [-> Hs2]. apply sat_ret. split; [exact Hs2|].
      intros q. unfold set_update. rewrite elem_of_app, Hvac.
      rewrite list_elem_of_In, filter_In, <- list_elem_of_In, points_spec, Z.eqb_eq.
      split.
      + intros [[?|(sp0 & Hin & Hrest0)]|((Hn & Hq) & Hc)]; [auto| |].
        * right. exists sp0. split; [apply elem_of_app; auto|exact Hrest0].
        * right. exists sp. split; [apply elem_of_app; right; apply list_elem_of_here|auto].
      + intros [?|(sp0 & Hin & Hn & Hq & Hc)]; [auto|].
        apply elem_of_app in Hin as [Hin|Hin].
        * left. right. exists sp0. auto.
        * apply list_elem_of_singleton in Hin as ->. right. auto. }
  intros vac s2 _ H. exact H.
Qed.

Lemma sorted_elem vac q : q ∈ sorted vac <-> q ∈ vac.
Proof.
  unfold sorted. rewrite merge_sort_Permutation. apply elem_of_remove_dups.
Qed.

Lemma set_iter_elem vac q : q ∈ set_iter vac <-> q ∈ vac.
Proof. rewrite (set_iter_perm vac). apply elem_of_remove_dups. Qed.

(** Choosing the heads. *)
Lemma heads_sat s vac c :
  0 <= c -> set_len vac <> 0%nat ->
  sat w h Al s
    (if c <? Z.of_nat (set_len vac)
     then random_sample (sorted vac) c
     else ret (set_iter vac))
    (fun heads s' => keeps s s' /\ (forall q, q ∈ heads -> q ∈ vac) /\
                     (1 <= c -> heads <> [])).
Proof.
  intros Hc HL. destruct (c <? Z.of_nat (set_len vac)) eqn:Hlt.
  - apply Z.ltb_lt in Hlt.
    assert (Hlen : length (sorted vac) = set_len vac).
    { unfold sorted, set_len. rewrite merge_sort_Permutation. reflexivity. }
    eapply sat_mono; [apply random_sample_sat; lia|].
    intros heads s1 _ (Hl & Hsub & Hk). split; [exact Hk|]. split.
    + intros q Hq. apply sorted_elem. eapply elem_of_submseteq; eassumption.
    + intros Hc1 ->. simpl in Hl. lia.
  - apply sat_ret. split; [split; reflexivity|]. split.
    + intros q Hq. apply set_iter_elem, Hq.
    + intros _ Hnil. apply HL. unfold set_len.
      rewrite <- (set_iter_perm vac), Hnil. reflexivity.
Qed.

Lemma wired_cells d d' p a b :
  cells d' = cells d -> wired d' p a b <-> wired d p a b.
Proof.
  intros H. unfold wired. split; intros (q & He & Hq & Hc); exists q;
    (split; [exact He|split; [exact Hq|]]).
  - rewrite <- (cells_same_cell d d' H). exact Hc.
  - rewrite (cells_same_cell d d' H). exact Hc.
Qed.

Lemma wiring_sat s heads :
  Forall (inb w h) heads ->
  sat w h Al s (for_each heads (fun head => _wire head (_PointChecker w h)))
    (fun _ s' => rng s' = rng s /\ cells (data s') = cells (data s) /\
       forall a b, door (data s') a b = true <->
         door (data s) a b = true \/ exists hd, hd ∈ heads /\ wired (data s) hd a b).
Proof.
  intros Hh.
  eapply sat_mono.
  { apply (sat_for_each w h Al _
      (fun done s2 => rng s2 = rng s /\ cells (data s2) = cells (data s) /\
         forall a b, door (data s2) a b = true <->
           door (data s) a b = true \/ exists hd, hd ∈ done /\ wired (data s) hd a b)
      heads [] s).
    - split; [reflexivity|]. split; [reflexivity|]. intros a b. split; [auto|].
      intros [?|(hd & Hin & _)]; [assumption|]. apply elem_of_nil in Hin as [].
    - intros done' hd s2 [rest Hrest] (Hr2 & Hc2 & Hdoor2). simpl in Hrest.
      assert (Hp : inb w h hd).
      { apply (proj1 (Forall_forall _ _) Hh). rewrite Hrest.
        apply elem_of_app. right. apply list_elem_of_here. }
      eapply sat_mono; [apply _wire_sat, Hp|].
      intros [] s3 _ (Hr3 & Hc3 & Hdoor3).
      split; [congruence|]. split; [congruence|].
      intros a b. rewrite Hdoor3, Hdoor2, (wired_cells _ _ hd a b Hc2). split.
      + intros [[?|(h0 & Hin & Hw)]|Hw]; [auto| |].
        * right. exists h0. split; [apply elem_of_app; auto|exact Hw].
        * right. exists hd. split; [apply elem_of_app; right; apply list_elem_of_here|exact Hw].
      + intros [?|(h0 & Hin & Hw)]; [auto|].
        apply elem_of_app in Hin as [Hin|Hin].
        * left. right. exists h0. auto.
        * apply list_elem_of_singleton in Hin as ->. right. exact Hw. }
  intros [] s2 _ H. exact H.
Qed.

Lemma set_len_0 vac : set_len vac = 0%nat <-> vac = [].
Proof.
  unfold set_len. split.
  - intros H. destruct vac as [|q vac]; [reflexivity|]. exfalso.
    assert (Hin : q ∈ remove_dups (q :: vac))
      by (apply elem_of_remove_dups, list_elem_of_here).
    destruct (remove_dups (q :: vac)); [apply elem_of_nil in Hin as []|discriminate].
  - intros ->. reflexivity.
Qed.

Lemma wave_sat s spawners c :
  0 <= c -> Forall (inb w h) spawners ->
  sat w h Al s (wave set_iter (_PointChecker w h) c spawners set_empty)
    (fun next s' =>
       match next with
       | None => rng s' = rng s /\ wave_end (data s) spawners (data s')
       | Some heads =>
           wave_step (data s) spawners heads (data s') /\ (1 <= c -> heads <> [])
       end).
Proof.
  intros Hc Hsp. unfold wave.
  eapply sat_bind; [apply scan_sat, Hsp|].
  intros vac s1 _ [[Hd1 Hr1] Hvac].
  destruct (set_len vac =? 0)%nat eqn:HL.
  - eapply sat_bind; [apply paint_sat, Hsp|].
    intros [] s2 _ (Hr2 & Hds & Hcell). apply sat_ret.
    rewrite Hd1 in Hds, Hcell. split; [congruence|]. split; assumption.
  - apply Nat.eqb_neq in HL.
    eapply sat_bind; [apply heads_sat; assumption|].
    intros heads s2 _ ([Hd2 _] & Hin & Hne).
    assert (Hheads : forall q, q ∈ heads ->
              inb w h q /\ cell (data s) q = _EMPTY /\ exists sp, sp ∈ spawners /\ q ∈ nbrs sp).
    { intros q Hq. apply Hin, Hvac in Hq as [Hq|(sp & Hs & Hn & Hq & Hc0)].
      - apply elem_of_nil in Hq as [].
      - split; [exact Hq|]. split; [exact Hc0|]. exists sp. auto. }
    assert (Hhin : Forall (inb w h) heads).
    { apply Forall_forall. intros q Hq. apply Hheads, Hq. }
    eapply sat_bind; [apply wiring_sat, Hhin|].
    intros [] s3 _ (_ & Hc3 & Hdoor3).
    eapply sat_bind; [apply paint_sat, Hsp|].
    intros [] s4 _ (_ & Hds4 & Hcell4).
    eapply sat_bind; [apply paint_sat, Hhin|].
    intros [] s5 _ (_ & Hds5 & Hcell5). apply sat_ret.
    rewrite Hd2, Hd1 in Hc3, Hdoor3.
    split; [|exact Hne]. split; [|split].
    + intros q Hq. destruct (Hheads q Hq) as (_ & ? & ?). auto.
    + intros q. rewrite Hcell5, Hcell4, (cells_same_cell _ _ Hc3). reflexivity.
    + intros a b. rewrite (doors_same_door _ _ a b Hds5), (doors_same_door _ _ a b Hds4).
      apply Hdoor3.
Qed.

End Wave.

(** ** Dead ends *)

Section DeadEnd.

Variables (w h : Z).
Variable Al : abort -> Prop.
Variable fuel : nat.
Hypothesis Al_remove : Al (Raised remove_error).
Hypothesis Al_fuel : (fuel < 3)%nat -> Al OutOfFuel.

Lemma opened_refl s p D : opened s s p D.
Proof. split; [reflexivity|]. intros a b. split; auto. Qed.

Lemma opened_trans s1 s2 s3 p D :
  opened s1 s2 p D -> opened s2 s3 p D -> opened s1 s3 p D.
Proof.
  intros [C1 H1] [C2 H2]. split; [congruence|]. intros a b. split.
  - intros H. apply H2, H1, H.
  - intros H. apply H2 in H as [H|H]; [|auto]. apply H1 in H. exact H.
Qed.

Lemma opened_mono s1 s2 p D D' :
  (forall dir, dir ∈ D -> dir ∈ D') -> opened s1 s2 p D -> opened s1 s2 p D'.
Proof.
  intros Hsub [C H]. split; [exact C|]. intros a b. split; [apply H|].
  intros Hd. apply H in Hd as [Hd|(dir & Hin & He)]; [auto|]. right. exists dir. auto.
Qed.

Lemma opened_keeps s1 s2 s3 p D : opened s1 s2 p D -> keeps s2 s3 -> opened s1 s3 p D.
Proof. intros H [Hd _]. unfold opened in *. rewrite Hd. exact H. Qed.

Lemma keeps_opened s1 s2 s3 p D : keeps s1 s2 -> opened s2 s3 p D -> opened s1 s3 p D.
Proof. intros [Hd _] H. unfold opened in *. rewrite <- Hd. exact H. Qed.

Lemma door_set_opened s s' p dir :
  door_set s s' p (nbr p dir) true -> opened s s' p [dir].
Proof.
  intros (_ & Hc & Hd). split; [exact Hc|]. intros a b. rewrite Hd.
  destruct (decide (edge_is a b p (nbr p dir))) as [He|He].
  - split; [reflexivity|]. intros _. right. exists dir.
    split; [apply list_elem_of_here|exact He].
  - split; auto.
Qed.

Lemma find_first_sat p dirs : forall first s,
  inb w h p -> dirs_ok w h p dirs ->
  sat w h Al s (find_first p dirs first)
    (fun r s' => same s s' /\
       match r with
       | inl _ => dirs <> []
       | inr x => x = first \/ exists f, x = Some f /\ f ∈ dirs
       end).
Proof.
  induction dirs as [|dir dirs IH]; intros first s Hp Hok.
  - simpl. apply sat_ret. split; [apply same_refl|auto].
  - simpl.
    destruct (Hok dir (list_elem_of_here _ _)) as [Hd Hn].
    assert (Hok' : dirs_ok w h p dirs).
    { intros d0 H0. apply Hok. apply list_elem_of_further, H0. }
    eapply sat_bind; [apply _get_door_sat; assumption|].
    intros r s1 _ [_ Hs1].
    destruct (default false r).
    + destruct first as [f0|].
      * apply sat_ret. split; [exact Hs1|discriminate].
      * eapply sat_mono; [apply (IH (Some dir) s1 Hp Hok')|].
        intros [u|x] s2 _ [Hs2 Hr]; (split; [eapply same_trans; eassumption|]).
        -- discriminate.
        -- right. destruct Hr as [->|(f & -> & Hf)].
           ++ exists dir. split; [reflexivity|apply list_elem_of_here].
           ++ exists f. split; [reflexivity|apply list_elem_of_further, Hf].
    + eapply sat_mono; [apply (IH first s1 Hp Hok')|].
      intros [u|x] s2 _ [Hs2 Hr]; (split; [eapply same_trans; eassumption|]).
      * discriminate.
      * destruct Hr as [->|(f & -> & Hf)]; [auto|]. right.
        exists f. split; [reflexivity|apply list_elem_of_further, Hf].
Qed.

Lemma more_wirings_sat p chance : forall n dirs s,
  inb w h p -> dirs_ok w h p dirs ->
  ((n <= length dirs)%nat -> Al OutOfFuel) ->
  sat w h Al s (more_wirings n p chance dirs) (fun _ s' => opened s s' p dirs).
Proof.
  induction n as [|n IH]; intros dirs s Hp Hok Hfuel.
  - simpl. apply sat_diverge. apply Hfuel. lia.
  - simpl. destruct (0 <? length dirs)%nat eqn:Hlen.
    2:{ apply sat_ret, opened_refl. }
    apply Nat.ltb_lt in Hlen.
    eapply sat_bind; [apply random_random_sat|].
    intros r s1 _ Hk1.
    destruct (Qle_bool r chance).
    2:{ apply sat_ret. eapply keeps_opened; [exact Hk1|apply opened_refl]. }
    eapply sat_bind.
    { apply random_choice_sat. intros ->. simpl in Hlen. lia. }
    intros choice s2 _ [Hin Hk2].
    destruct (Hok choice Hin) as [Hd Hn].
    eapply sat_bind; [apply _set_door_sat; assumption|].
    intros [] s3 _ Hset. apply door_set_opened in Hset.
    eapply sat_bind; [apply list_remove_sat, Hin|].
    intros dirs' s4 _ [Hperm ->].
    eapply sat_mono.
    { apply (IH dirs' s3 Hp).
      - intros d0 H0. apply Hok. rewrite Hperm. apply list_elem_of_further, H0.
      - intros Hle. apply Hfuel. rewrite Hperm. simpl. lia. }
    intros [] s5 _ Hop.
    eapply keeps_opened; [exact Hk1|].
    eapply keeps_opened; [exact Hk2|].
    eapply opened_trans.
    + eapply opened_mono; [|exact Hset].
      intros d0 H0. apply list_elem_of_singleton in H0 as ->. exact Hin.
    + eapply opened_mono; [|exact Hop].
      intros d0 H0. rewrite Hperm. apply list_elem_of_further, H0.
Qed.

Lemma body_dirs_spec d p dir :
  wf w h d ->
  dir ∈ body_dirs w h d p <-> is_dir dir /\ cell d (nbr p dir) = _BODY.
Proof.
  intros Hwf. unfold body_dirs. rewrite list_elem_of_In, in_map_iff. split.
  - intros ([q d0] & <- & Hin). apply filter_In in Hin as [Hin Ht].
    apply list_elem_of_In, pairs_spec in Hin as (Hd & -> & Hq). simpl in *.
    apply Z.eqb_eq in Ht. auto.
  - intros (Hd & Hc). exists (nbr p dir, dir). split; [reflexivity|].
    apply filter_In. split; [|simpl; apply Z.eqb_eq, Hc].
    apply list_elem_of_In, pairs_spec. split; [exact Hd|]. split; [reflexivity|].
    apply (cell_inb w h d); [exact Hwf|]. rewrite Hc. discriminate.
Qed.

Lemma filter_filter_length {A B} (f g : A -> bool) (f' : B -> bool) (pr : A -> B) l :
  (forall x, f x = f' (pr x)) ->
  (forall x, f' (pr x) = true -> g x = true) ->
  length (List.filter f (List.filter g l)) = length (List.filter f' (List.map pr l)).
Proof.
  intros Hf Hg. induction l as [|x l IH]; [reflexivity|]. simpl.
  destruct (f' (pr x)) eqn:E.
  - rewrite (Hg x E). simpl. rewrite Hf, E. simpl. rewrite IH. reflexivity.
  - destruct (g x); [simpl; rewrite Hf, E|]; exact IH.
Qed.

Lemma body_dirs_length d p :
  wf w h d -> length (body_dirs w h d p) = count_nbrs (is_body d) p.
Proof.
  intros Hwf. unfold body_dirs, count_nbrs. rewrite length_map.
  destruct p as [x y]. unfold _get_nbr_points_n_dirs.
  rewrite (filter_filter_length _ _ (is_body d) fst); [reflexivity|reflexivity|].
  intros [q dir] Hq. simpl in *. apply checker_inb.
  apply (cell_inb w h d); [exact Hwf|]. apply Z.eqb_eq in Hq. rewrite Hq. discriminate.
Qed.

Lemma body_dirs_le d p : (length (body_dirs w h d p) <= 4)%nat.
Proof.
  unfold body_dirs. rewrite length_map.
  etransitivity; [apply List.filter_length_le|].
  destruct p as [x y]. unfold _get_nbr_points_n_dirs.
  etransitivity; [apply List.filter_length_le|]. simpl. lia.
Qed.

Lemma opened_same s s' p D : same s s' -> opened s s' p D.
Proof.
  intros [Hd _]. unfold opened. rewrite Hd. apply opened_refl.
Qed.

Lemma _process_as_if_dead_end_sat s p chance :
  inb w h p ->
  sat w h Al s (_process_as_if_dead_end fuel p (_PointChecker w h) chance)
    (dead_end_post w h s p).
Proof.
  intros Hp. apply sat_wf. intros Hwf. unfold _process_as_if_dead_end.
  destruct p as [x y].
  eapply sat_bind; [apply cells_get_sat, Hp|].
  intros v s1 _ [-> Hs1].
  destruct (cell (data s) (x, y) =? _BODY) eqn:Hbody.
  2:{ apply sat_ret. split; [apply opened_same, Hs1|]. split; [|split].
      - intros Hc. rewrite Hc in Hbody. discriminate.
      - discriminate.
      - intros _. exact Hs1. }
  apply Z.eqb_eq in Hbody.
  eapply sat_bind.
  { apply (sat_filterM w h Al _ (fun pair => cell (data s) (fst pair) =? _BODY) _ s s1 Hs1).
    intros [q dir] s2 Hin Hs2. apply pairs_spec in Hin as (_ & _ & Hq).
    apply cell_test_sat; assumption. }
  intros pairs s2 _ [-> Hs2].
  fold (body_dirs w h (data s) (x, y)).
  set (dirs := body_dirs w h (data s) (x, y)).
  assert (Hok : dirs_ok w h (x, y) dirs).
  { intros dir Hin. apply (body_dirs_spec _ _ _ Hwf) in Hin as [Hd Hc].
    split; [exact Hd|]. apply (cell_inb w h (data s)); [exact Hwf|].
    rewrite Hc. discriminate. }
  destruct (length dirs =? 1)%nat eqn:Hone.
  { apply Nat.eqb_eq in Hone. apply sat_ret.
    split; [apply opened_same, Hs2|]. split; [|split].
    - intros _ Hnil. fold dirs in Hnil. rewrite Hnil in Hone. discriminate.
    - intros _. split; [exact Hbody|exact Hone].
    - intros Hn. contradiction. }
  apply Nat.eqb_neq in Hone.
  eapply sat_bind; [apply (find_first_sat (x, y) dirs None s2 Hp Hok)|].
  intros [u|first] s3 _ [Hs3 Hr].
  { apply sat_ret. split; [apply opened_same; eapply same_trans; eassumption|].
    split; [intros _; exact Hr|]. split; [discriminate|]. intros Hn. contradiction. }
  destruct first as [f|].
  2:{ apply sat_raise, Al_remove. }
  destruct Hr as [Hr|(f' & Hf' & Hf)]; [discriminate|]. injection Hf' as <-.
  assert (Hs03 : same s s3) by (eapply same_trans; eassumption).
  eapply sat_bind; [apply list_remove_sat, Hf|].
  intros dirs1 s4 _ [Hperm1 ->].
  assert (Hlen1 : length dirs = S (length dirs1)) by (rewrite Hperm1; reflexivity).
  eapply sat_bind.
  { apply random_choice_sat. intros ->. simpl in Hlen1. lia. }
  intros choice s5 _ [Hin Hk5].
  assert (Hin' : choice ∈ dirs) by (rewrite Hperm1; apply list_elem_of_further, Hin).
  destruct (Hok choice Hin') as [Hd Hn].
  eapply sat_bind; [apply _set_door_sat; assumption|].
  intros [] s6 _ Hset. apply door_set_opened in Hset.
  eapply sat_bind; [apply list_remove_sat, Hin|].
  intros dirs2 s7 _ [Hperm2 ->].
  assert (Hlen2 : length dirs1 = S (length dirs2)) by (rewrite Hperm2; reflexivity).
  assert (Hsub2 : forall d0, d0 ∈ dirs2 -> d0 ∈ dirs).
  { intros d0 H0. rewrite Hperm1, Hperm2. do 2 apply list_elem_of_further. exact H0. }
  eapply sat_bind.
  { apply (more_wirings_sat (x, y) chance fuel dirs2 s6 Hp).
    - intros d0 H0. apply Hok, Hsub2, H0.
    - intros Hle. apply Al_fuel. pose proof (body_dirs_le (data s) (x, y)).
      fold dirs in H. lia. }
  intros [] s8 _ Hop. apply sat_ret.
  split; [|split; [|split]].
  - eapply opened_trans; [apply opened_same, Hs03|].
    eapply keeps_opened; [exact Hk5|].
    eapply opened_trans.
    + eapply opened_mono; [|exact Hset].
      intros d0 H0. apply list_elem_of_singleton in H0 as ->. exact Hin'.
    + eapply opened_mono; [|exact Hop]. exact Hsub2.
  - intros _ Hnil. fold dirs in Hnil. rewrite Hnil in Hlen1. discriminate.
  - discriminate.
  - intros Hnb. contradiction.
Qed.

End DeadEnd.

(** ** The grid scan *)

Lemma range_spec n x : x ∈ range n <-> 0 <= x < n.
Proof.
  unfold range. rewrite list_elem_of_In, in_map_iff. split.
  - intros (i & <- & Hi). apply in_seq in Hi. lia.
  - intros Hx. exists (Z.to_nat x). split; [lia|]. apply in_seq. lia.
Qed.

Lemma product_spec xs ys x y : (x, y) ∈ product xs ys <-> x ∈ xs /\ y ∈ ys.
Proof.
  unfold product. split.
  - intros H. apply list_elem_of_In, in_flat_map in H as (x0 & Hx & Hy).
    apply in_map_iff in Hy as (y0 & Heq & Hy).
    injection Heq as <- <-. rewrite !list_elem_of_In. auto.
  - intros [Hx Hy]. apply list_elem_of_In, in_flat_map.
    exists x. split; [apply list_elem_of_In, Hx|].
    apply in_map_iff. exists y. split; [reflexivity|apply list_elem_of_In, Hy].
Qed.

Lemma grid_spec w h p : p ∈ product (range w) (range h) <-> inb w h p.
Proof.
  destruct p as [x y]. rewrite product_spec, !range_spec. reflexivity.
Qed.

Lemma grown_refl d : grown d d.
Proof. split; [reflexivity|]. intros a b. split; auto. Qed.

Lemma body_dirs_cells w h d d' p :
  cells d' = cells d -> body_dirs w h d' p = body_dirs w h d p.
Proof.
  intros H. unfold body_dirs. f_equal. apply filter_ext.
  intros pair. rewrite (cells_same_cell d d' H). reflexivity.
Qed.

Section Pass.

Variables (w h : Z).
Variable Al : abort -> Prop.
Variable fuel : nat.
Hypothesis Al_remove : Al (Raised remove_error).
Hypothesis Al_fuel : (fuel < 3)%nat -> Al OutOfFuel.

Lemma dead_end_pass_sat s chance l :
  Forall (inb w h) l ->
  sat w h Al s
    (foldM (fun chests cell =>
              r <- _process_as_if_dead_end fuel cell (_PointChecker w h) chance ;;
              ret (if default false r then chests ++ [cell] else chests))
       [] l)%M
    (fun chests s' => pass_post (data s) l chests (data s')).
Proof.
  intros Hl. apply sat_wf. intros Hwf.
  eapply sat_mono.
  { apply (sat_foldM w h Al _
      (fun done chests s1 => pass_post (data s) done chests (data s1)) l [] [] s).
    - split; [apply grown_refl|]. split.
      + intros p Hp. apply elem_of_nil in Hp as [].
      + intros p Hp. apply elem_of_nil in Hp as [].
    - intros done' p chests s1 [rest Hrest] ([Hc1 Hg1] & Hch & Hnb). simpl in Hrest.
      assert (Hp : inb w h p).
      { apply (proj1 (Forall_forall _ _) Hl). rewrite Hrest.
        apply elem_of_app. right. apply list_elem_of_here. }
      eapply sat_bind.
      { apply (_process_as_if_dead_end_sat w h Al fuel Al_remove Al_fuel s1 p chance Hp). }
      intros r s2 Hq ([Hc2 Hop] & Hne & Hleaf & Hsame). apply sat_ret.
      rewrite (body_dirs_cells w h _ _ p Hc1) in Hop, Hne, Hleaf.
      rewrite (cells_same_cell _ _ Hc1) in Hne, Hleaf, Hsame.
      split; [|split].
      + split; [congruence|]. intros a b. split.
        * intros H. apply Hop, Hg1, H.
        * intros H. destruct (decide (cell (data s) p = _BODY)) as [Hb|Hb].
          -- apply Hop in H as [H|(dir & Hin & He)]; [apply Hg1, H|].
             right. apply (body_dirs_spec w h _ _ _ Hwf) in Hin as [_ Hc].
             destruct He as [[-> ->]|[-> ->]]; auto.
          -- destruct (Hsame Hb) as [Hd _]. rewrite Hd in H. apply Hg1, H.
      + intros q Hq0. destruct (default false r) eqn:Hr.
        * apply elem_of_app in Hq0 as [Hq0|Hq0].
          -- destruct (Hch q Hq0) as (? & ? & ?). split; [apply elem_of_app; auto|auto].
          -- apply list_elem_of_singleton in Hq0 as ->.
             destruct (Hleaf eq_refl) as [Hb Hlen].
             split; [apply elem_of_app; right; apply list_elem_of_here|].
             split; [exact Hb|]. rewrite <- (body_dirs_length w h _ _ Hwf). exact Hlen.
        * destruct (Hch q Hq0) as (? & ? & ?). split; [apply elem_of_app; auto|auto].
      + intros q Hq0 Hb. apply elem_of_app in Hq0 as [Hq0|Hq0]; [apply Hnb; assumption|].
        apply list_elem_of_singleton in Hq0 as ->.
        destruct (body_dirs w h (data s) p) as [|dir ds] eqn:Hbd; [destruct (Hne Hb eq_refl)|].
        assert (Hin : dir ∈ body_dirs w h (data s) p) by (rewrite Hbd; apply list_elem_of_here).
        apply (body_dirs_spec w h _ _ _ Hwf) in Hin as [_ Hc].
        exists (nbr p dir). split; [apply nbr_nbrs|exact Hc]. }
  intros chests s2 _ H. exact H.
Qed.

End Pass.

(** ** Big cells *)

Lemma corners_block k q : k ∈ corners q <-> q ∈ block k.
Proof.
  destruct k as [x y], q as [x' y']. unfold corners, block.
  rewrite !elem_of_cons, !elem_of_nil. split.
  - intros [H|[H|[H|[H|[]]]]]; injection H as -> ->.
    + auto.
    + right; left. f_equal; lia.
    + do 2 right; left. f_equal; lia.
    + do 3 right; left. f_equal; lia.
  - intros [H|[H|[H|[H|[]]]]]; injection H as -> ->.
    + auto.
    + right; left. f_equal; lia.
    + do 2 right; left. f_equal; lia.
    + do 3 right; left. f_equal; lia.
Qed.

Lemma absorbed_by_spec mask q :
  existsb (flag mask) (corners q) = true <-> absorbed_by mask q.
Proof.
  rewrite existsb_exists. unfold absorbed_by. split.
  - intros (k & Hin & Hf). exists k. split; [exact Hf|].
    apply corners_block, list_elem_of_In, Hin.
  - intros (k & Hf & Hin). exists k. split; [|exact Hf].
    apply list_elem_of_In, corners_block, Hin.
Qed.

Lemma absorbed_by_dec mask q : {absorbed_by mask q} + {~ absorbed_by mask q}.
Proof.
  destruct (existsb (flag mask) (corners q)) eqn:E.
  - left. apply absorbed_by_spec, E.
  - right. intros H. apply absorbed_by_spec in H. congruence.
Qed.

Lemma joined_by_dec mask a b : {joined_by mask a b} + {~ joined_by mask a b}.
Proof.
  destruct (existsb (fun k => flag mask k && bool_decide (b ∈ block k)) (corners a)) eqn:E.
  - left. apply existsb_exists in E as (k & Hin & Hk).
    apply andb_true_iff in Hk as [Hf Hb]. apply bool_decide_eq_true in Hb.
    exists k. split; [exact Hf|]. split; [|exact Hb].
    apply corners_block, list_elem_of_In, Hin.
  - right. intros (k & Hf & Ha & Hb).
    assert (existsb (fun k => flag mask k && bool_decide (b ∈ block k)) (corners a) = true);
      [|congruence].
    apply existsb_exists. exists k. split.
    + apply list_elem_of_In, corners_block, Ha.
    + rewrite Hf. simpl. apply bool_decide_eq_true, Hb.
Qed.

Lemma dist_sym a b : _max_point_difference a b = _max_point_difference b a.
Proof.
  unfold _max_point_difference, _difference.
  repeat match goal with
  | |- context [?x <? ?y] => destruct (Z.ltb_spec x y)
  end; lia.
Qed.

Lemma dist_gt a b :
  1 < _max_point_difference a b <->
  (fst a - fst b > 1 \/ fst b - fst a > 1 \/ snd a - snd b > 1 \/ snd b - snd a > 1).
Proof.
  unfold _max_point_difference, _difference.
  repeat match goal with
  | |- context [?x <? ?y] => destruct (Z.ltb_spec x y)
  end; lia.
Qed.

Lemma block_coords k q :
  q ∈ block k <->
  (fst q = fst k \/ fst q = fst k + 1) /\ (snd q = snd k \/ snd q = snd k + 1).
Proof.
  destruct k as [x y], q as [x' y']. unfold block.
  rewrite !elem_of_cons, !elem_of_nil. simpl. split.
  - intros [H|[H|[H|[H|[]]]]]; injection H as -> ->; lia.
  - intros [[-> | ->] [-> | ->]]; auto 10.
Qed.

Lemma nbrs_coords a b :
  b ∈ nbrs a <->
  (snd b = snd a /\ (fst b = fst a - 1 \/ fst b = fst a + 1)) \/
  (fst b = fst a /\ (snd b = snd a - 1 \/ snd b = snd a + 1)).
Proof.
  destruct a as [x y], b as [x' y']. unfold nbrs.
  rewrite !elem_of_cons, !elem_of_nil. simpl. split.
  - intros [H|[H|[H|[H|[]]]]]; injection H as -> ->; lia.
  - intros [[-> [-> | ->]]|[-> [-> | ->]]]; auto 10.
Qed.

Lemma edge_is_coords a b p q :
  edge_is a b p q <->
  (fst a = fst p /\ snd a = snd p /\ fst b = fst q /\ snd b = snd q) \/
  (fst a = fst q /\ snd a = snd q /\ fst b = fst p /\ snd b = snd p).
Proof.
  destruct a, b, p, q. unfold edge_is. simpl. split.
  - intros [[H1 H2]|[H1 H2]]; injection H1 as -> ->; injection H2 as -> ->; lia.
  - intros [(-> & -> & -> & ->)|(-> & -> & -> & ->)]; auto.
Qed.

(** Two neighbours lie in one block exactly when the door between them is
    one of the four inner doors of the block. *)
Lemma block_edges x y a b :
  b ∈ nbrs a ->
  (a ∈ block (x, y) /\ b ∈ block (x, y)) <->
  (edge_is a b (x, y) (x + 1, y) \/ edge_is a b (x, y + 1) (x + 1, y + 1) \/
   edge_is a b (x, y) (x, y + 1) \/ edge_is a b (x + 1, y) (x + 1, y + 1)).
Proof.
  rewrite nbrs_coords, !block_coords, !edge_is_coords.
  destruct a as [xa ya], b as [xb yb]. simpl.
  intros Hn. split.
  - intros [[Hxa Hya] [Hxb Hyb]].
    destruct Hxa as [-> | ->], Hya as [-> | ->], Hxb as [Hxb|Hxb], Hyb as [Hyb|Hyb];
      try (exfalso; lia); subst xb yb;
      first [ left; left; lia | left; right; lia
            | right; left; left; lia | right; left; right; lia
            | do 2 right; left; left; lia | do 2 right; left; right; lia
            | do 3 right; left; lia | do 3 right; right; lia ].
  - intros [H|[H|[H|H]]];
      destruct H as [(-> & -> & -> & ->)|(-> & -> & -> & ->)]; lia.
Qed.

Lemma two_blocks k k' q :
  q ∈ block k -> q ∈ block k' -> k <> k' -> ~ 1 < _max_point_difference k k'.
Proof.
  rewrite !block_coords, dist_gt. destruct k as [x y], k' as [x' y'], q as [a b].
  simpl. intros [Hx Hy] [Hx' Hy'] _. lia.
Qed.

Section Big.

Variables (w h : Z).
Variable Al : abort -> Prop.

Lemma flag_hor_door d x y : flag (hor_doors d) (x, y) = door d (x, y) (x + 1, y).
Proof. unfold door, door_of. rewrite decide_True by lia. reflexivity. Qed.

Lemma flag_ver_door d x y : flag (ver_doors d) (x, y) = door d (x, y) (x, y + 1).
Proof.
  unfold door, door_of. rewrite decide_False by lia. rewrite decide_False by lia.
  rewrite decide_True by lia. reflexivity.
Qed.

Lemma _big_cell_filter_sat s0 s k :
  corner_ok w h k -> same s0 s ->
  sat w h Al s (_big_cell_filter k)
    (fun r s' => r = block_open (data s0) k /\ same s0 s').
Proof.
  intros [Hx Hy] Hs. destruct k as [x y]. simpl in Hx, Hy.
  unfold _big_cell_filter, block_open.
  assert (Hd : data s = data s0) by apply Hs.
  eapply sat_bind; [apply hor_get_sat; lia|].
  intros a s1 _ [-> Hs1]. rewrite flag_hor_door, Hd.
  assert (H1 : same s0 s1) by (eapply same_trans; eassumption).
  destruct (door (data s0) (x, y) (x + 1, y)); [|apply sat_ret; auto].
  eapply sat_bind; [apply ver_get_sat; lia|].
  intros b s2 _ [-> Hs2]. rewrite flag_ver_door, (proj1 H1).
  assert (H2 : same s0 s2) by (eapply same_trans; eassumption).
  destruct (door (data s0) (x, y) (x, y + 1)); [|apply sat_ret; auto].
  eapply sat_bind; [apply hor_get_sat; lia|].
  intros c s3 _ [-> Hs3]. rewrite flag_hor_door, (proj1 H2).
  assert (H3 : same s0 s3) by (eapply same_trans; eassumption).
  destruct (door (data s0) (x, y + 1) (x + 1, y + 1)); [|apply sat_ret; auto].
  eapply sat_mono; [apply ver_get_sat; lia|].
  intros e s4 _ [-> Hs4]. rewrite flag_ver_door, (proj1 H3).
  split; [reflexivity|]. eapply same_trans; eassumption.
Qed.

Lemma _place_big_cell_sat s k :
  corner_ok w h k ->
  sat w h Al s (_place_big_cell k) (fun _ s' => placed (data s) (data s') k).
Proof.
  intros [Hx Hy]. destruct k as [x y]. simpl in Hx, Hy. unfold _place_big_cell.
  eapply sat_bind; [apply cells_set_sat; unfold inb; simpl; lia|].
  intros [] s1 _ (_ & Hds1 & Hc1).
  eapply sat_bind; [apply cells_set_sat; unfold inb; simpl; lia|].
  intros [] s2 _ (_ & Hds2 & Hc2).
  eapply sat_bind; [apply cells_set_sat; unfold inb; simpl; lia|].
  intros [] s3 _ (_ & Hds3 & Hc3).
  eapply sat_bind; [apply cells_set_sat; unfold inb; simpl; lia|].
  intros [] s4 _ (_ & Hds4 & Hc4).
  eapply sat_bind; [apply hor_set_sat; lia|].
  intros [] s5 _ (_ & Hcs5 & Hd5).
  eapply sat_bind; [apply hor_set_sat; lia|].
  intros [] s6 _ (_ & Hcs6 & Hd6).
  eapply sat_bind; [apply ver_set_sat; lia|].
  intros [] s7 _ (_ & Hcs7 & Hd7).
  eapply sat_mono; [apply ver_set_sat; lia|].
  intros [] s8 _ (_ & Hcs8 & Hd8).
  split.
  - intros q.
    rewrite (cells_same_cell _ _ Hcs8 q), (cells_same_cell _ _ Hcs7 q),
      (cells_same_cell _ _ Hcs6 q), (cells_same_cell _ _ Hcs5 q), Hc4, Hc3, Hc2, Hc1.
    destruct (decide (q ∈ block (x, y))) as [Hin|Hin];
      unfold block in Hin; rewrite !elem_of_cons, elem_of_nil in Hin;
      repeat destruct (decide _); try reflexivity; exfalso; tauto.
  - intros a b. rewrite Hd8, Hd7, Hd6, Hd5.
    rewrite (doors_same_door _ _ a b Hds4), (doors_same_door _ _ a b Hds3),
      (doors_same_door _ _ a b Hds2), (doors_same_door _ _ a b Hds1).
    destruct (door (data s) a b) eqn:Hdoor.
    + apply door_nbrs in Hdoor. rewrite (block_edges x y a b Hdoor).
      repeat destruct (decide _); split; try discriminate; try tauto; intros _;
        (split; [reflexivity|tauto]).
    + repeat destruct (decide _); split; try discriminate; tauto.
Qed.

Lemma local_set_sat {A} d0 d1 s (a : ndarray A) x y v :
  wf_nd d0 d1 a -> 0 <= x < d0 -> 0 <= y < d1 ->
  sat w h Al s (local_set a (x, y) v)
    (fun a' s' => s' = s /\ nd_set a (x, y) v = Some a').
Proof.
  intros Hwf Hx Hy. unfold local_set.
  destruct (nd_set_inb d0 d1 a x y v Hwf Hx Hy) as (a' & -> & _).
  apply sat_ret. auto.
Qed.

Lemma filter_shrinks {A} (f : A -> bool) l x :
  x ∈ l -> f x = false -> (length (List.filter f l) < length l)%nat.
Proof.
  induction l as [|y l IH]; intros Hin Hf; [apply elem_of_nil in Hin as []|].
  simpl. apply elem_of_cons in Hin as [<-|Hin].
  - rewrite Hf. pose proof (List.filter_length_le f l). lia.
  - specialize (IH Hin Hf). destruct (f y); simpl; lia.
Qed.

Lemma place_big_cells_sat d2 cands0 :
  (forall k, k ∈ cands0 -> corner_ok w h k) ->
  forall n cands mask s,
  big_inv w h d2 cands0 cands mask (data s) ->
  ((n <= length cands)%nat -> Al OutOfFuel) ->
  sat w h Al s (place_big_cells n cands mask)
    (fun mask' s' => big_inv w h d2 cands0 [] mask' (data s')).
Proof.
  intros Hok. induction n as [|n IH]; intros cands mask s Hinv Hfuel.
  - simpl. apply sat_diverge, Hfuel. lia.
  - simpl. destruct (0 <? length cands)%nat eqn:Hlen.
    2:{ apply Nat.ltb_ge in Hlen. destruct cands; [|simpl in Hlen; lia].
        apply sat_ret, Hinv. }
    apply Nat.ltb_lt in Hlen.
    destruct Hinv as (Hwf & Hm0 & Hc0 & Hcm & Hmm & Hce & Hcs & Hdo).
    eapply sat_bind.
    { apply random_choice_sat. intros ->. simpl in Hlen. lia. }
    intros choice s1 _ [Hin [Hd1 _]].
    assert (Hck : corner_ok w h choice) by apply Hok, Hc0, Hin.
    eapply sat_bind; [apply _place_big_cell_sat, Hck|].
    intros [] s2 _ [Hpc Hpd]. rewrite Hd1 in Hpc, Hpd.
    destruct choice as [cx cy]. destruct Hck as [Hcx Hcy]. simpl in Hcx, Hcy.
    eapply sat_bind; [apply (local_set_sat (w - 1) (h - 1)); [exact Hwf|lia|lia]|].
    intros mask' s3 _ [-> Hset].
    destruct (flag_set (w - 1) (h - 1) mask cx cy true mask' Hwf ltac:(lia) ltac:(lia) Hset)
      as [Hwf' Hflag].
    apply IH.
    + split; [exact Hwf'|]. split; [|split; [|split; [|split; [|split; [|split]]]]].
      * intros k. rewrite Hflag. destruct (decide (k = (cx, cy))) as [->|_]; auto.
      * intros k Hk. apply list_elem_of_In, filter_In in Hk as [Hk _].
        apply Hc0, list_elem_of_In, Hk.
      * intros c k Hc. rewrite Hflag.
        apply list_elem_of_In, filter_In in Hc as [Hc Hfar].
        apply Z.ltb_lt in Hfar.
        destruct (decide (k = (cx, cy))) as [->|_]; [auto|].
        apply Hcm, list_elem_of_In, Hc.
      * intros k1 k2. rewrite !Hflag.
        destruct (decide (k1 = (cx, cy))) as [->|_];
          destruct (decide (k2 = (cx, cy))) as [->|_]; intros H1 H2 Hne.
        -- congruence.
        -- apply Hcm; assumption.
        -- rewrite dist_sym. apply Hcm; assumption.
        -- apply Hmm; assumption.
      * intros q (k & Hk & Hq). rewrite Hflag in Hk. rewrite Hpc.
        destruct (decide (q ∈ block (cx, cy))) as [_|Hnb]; [reflexivity|].
        destruct (decide (k = (cx, cy))) as [->|_]; [contradiction|].
        apply Hce. exists k. auto.
      * intros q Hq. rewrite Hpc.
        destruct (decide (q ∈ block (cx, cy))) as [Hb|_].
        -- exfalso. apply Hq. exists (cx, cy). split; [|exact Hb].
           rewrite Hflag. apply decide_True. reflexivity.
        -- apply Hcs. intros (k & Hk & Hqk). apply Hq. exists k. split; [|exact Hqk].
           rewrite Hflag. destruct (decide _); auto.
      * intros a b. rewrite Hpd, Hdo. split.
        -- intros [[Hd Hj] Hnb]. split; [exact Hd|].
           intros (k & Hk & Ha & Hb). rewrite Hflag in Hk.
           destruct (decide (k = (cx, cy))) as [->|_]; [tauto|].
           apply Hj. exists k. auto.
        -- intros [Hd Hj]. split; [split; [exact Hd|]|].
           ++ intros (k & Hk & Ha & Hb). apply Hj. exists k.
              split; [|auto]. rewrite Hflag. destruct (decide _); auto.
           ++ intros [Ha Hb]. apply Hj. exists (cx, cy).
              split; [|auto]. rewrite Hflag. apply decide_True. reflexivity.
    + intros Hle. apply Hfuel.
      assert (Hz : (1 <? _max_point_difference (cx, cy) (cx, cy)) = false).
      { apply Z.ltb_ge. unfold _max_point_difference, _difference. simpl.
        rewrite !Z.ltb_irrefl. lia. }
      pose proof (filter_shrinks
        (fun cell => 1 <? _max_point_difference cell (cx, cy)) cands (cx, cy) Hin Hz).
      lia.
Qed.

End Big.

(** ** The end of a generation *)

Lemma flag_full_false shape q : flag (np_full shape false) q = false.
Proof.
  unfold flag. apply andb_false_iff. right. apply bool_decide_eq_false.
  unfold nd_get, np_full. simpl.
  destruct (norm_index _ _) as [i|]; [|discriminate].
  destruct (norm_index _ _) as [j|]; [|discriminate].
  destruct (replicate _ _ !! i) as [row|] eqn:Hrow; [|discriminate].
  apply lookup_replicate in Hrow as [-> _].
  intros H. apply lookup_replicate in H as [H _]. discriminate.
Qed.

Lemma product_length xs ys : length (product xs ys) = (length xs * length ys)%nat.
Proof.
  unfold product. induction xs as [|x xs IH]; [reflexivity|].
  change (length (List.map (fun y => (x, y)) ys ++
                  flat_map (fun x0 => List.map (fun y => (x0, y)) ys) xs)
          = (length ys + length xs * length ys)%nat).
  rewrite length_app, length_map. f_equal. exact IH.
Qed.

Lemma range_length n : length (range n) = Z.to_nat n.
Proof. unfold range. rewrite length_map, length_seq. reflexivity. Qed.

Lemma door_open_door L d :
  out_hor_doors L = hor_doors d -> out_ver_doors L = ver_doors d ->
  forall a b, door_open L a b = door d a b.
Proof.
  intros Hh Hv a b. unfold door_open, door, door_of, hor_open, ver_open.
  rewrite Hh, Hv. reflexivity.
Qed.

Section Finish.

Variables (w h : Z).
Hypothesis Hw : 0 < w.
Hypothesis Hh : 0 < h.
Variable Al : abort -> Prop.
Variable fuel : nat.
Hypothesis Al_remove : Al (Raised remove_error).
Hypothesis Al_fuel : Z.of_nat fuel < Z.max (w * h) 3 -> Al OutOfFuel.

Lemma assemble_sat s :
  sat w h Al s
    (foldM (fun cells xy => v <- cells_get xy ;; local_set cells xy (v =? _BODY))
       (np_full (w, h) false) (product (range w) (range h)))%M
    (fun out s' => same s s' /\ forall q, flag out q = is_body (data s) q).
Proof.
  apply sat_wf. intros Hwf.
  eapply sat_mono.
  { apply (sat_foldM w h Al _
      (fun done acc s1 => same s s1 /\ wf_nd w h acc /\
         forall q, flag acc q = if decide (q ∈ done) then is_body (data s) q else false)
      (product (range w) (range h)) [] (np_full (w, h) false) s).
    - split; [apply same_refl|]. split; [apply np_full_wf|].
      intros q. rewrite decide_False by apply not_elem_of_nil. apply flag_full_false.
    - intros done' p acc s1 [rest Hrest] (Hs1 & Hacc & Hflag). simpl in Hrest.
      assert (Hp : inb w h p).
      { apply grid_spec. rewrite Hrest. apply elem_of_app. right. apply list_elem_of_here. }
      eapply sat_bind; [apply cells_get_sat, Hp|].
      intros v s2 _ [-> Hs2]. destruct p as [x y].
      eapply sat_mono; [apply (local_set_sat w h Al w h); [exact Hacc|apply Hp|apply Hp]|].
      intros acc' s3 _ [-> Hset].
      destruct (flag_set w h acc x y _ acc' Hacc (proj1 Hp) (proj2 Hp) Hset) as [Hwf' Hfl].
      split; [eapply same_trans; eassumption|]. split; [exact Hwf'|].
      intros q. rewrite Hfl, Hflag. rewrite (proj1 Hs1).
      destruct (decide (q = (x, y))) as [->|Hne].
      + rewrite decide_True; [reflexivity|].
        apply elem_of_app. right. apply list_elem_of_here.
      + destruct (decide (q ∈ done')) as [Hin|Hin].
        * rewrite decide_True; [reflexivity|]. apply elem_of_app. auto.
        * rewrite decide_False; [reflexivity|]. intros Hin'.
          apply elem_of_app in Hin' as [?|Hin']; [contradiction|].
          apply list_elem_of_singleton in Hin'. contradiction. }
  intros out s2 _ (Hs2 & _ & Hflag). split; [exact Hs2|].
  intros q. rewrite Hflag. destruct (decide _) as [Hin|Hin]; [reflexivity|].
  unfold is_body. rewrite (cell_outside w h (data s) q Hwf); [reflexivity|].
  intros Hq. apply Hin, grid_spec, Hq.
Qed.

Lemma corner_grid k :
  k ∈ product (range (w - 1)) (range (h - 1)) <-> corner_ok w h k.
Proof.
  destruct k as [x y]. rewrite product_spec, !range_spec. unfold corner_ok. simpl. lia.
Qed.

Lemma _finish_sat s chance :
  sat w h Al s (_finish fuel w h (_PointChecker w h) chance)
    (fun L s' => finish_post (data s) L).
Proof.
  apply sat_wf. intros Hwf. unfold _finish.
  eapply sat_bind.
  { apply (dead_end_pass_sat w h Al fuel Al_remove).
    - intros Hf. apply Al_fuel. lia.
    - apply Forall_forall. intros p Hp. apply grid_spec, Hp. }
  intros chests s1 Hq1 ([Hc1 Hg1] & Hch & Hnb).
  eapply sat_bind.
  { apply (sat_filterM w h Al _ (block_open (data s1)) _ s1 s1 (same_refl s1)).
    intros k s2 Hk Hs2. apply _big_cell_filter_sat; [apply corner_grid, Hk|exact Hs2]. }
  intros cands s2 _ [-> [Hd2 _]].
  set (cands := List.filter _ _).
  assert (Hcands : forall k, k ∈ cands -> corner_ok w h k /\ block_open (data s1) k = true).
  { intros k Hk. apply list_elem_of_In, filter_In in Hk as [Hk Hb].
    split; [apply corner_grid, list_elem_of_In, Hk|exact Hb]. }
  eapply sat_bind.
  { apply (place_big_cells_sat w h Al (data s1) cands).
    - intros k Hk. apply Hcands, Hk.
    - rewrite Hd2. split; [apply np_full_wf|].
      split; [intros k Hk; rewrite flag_full_false in Hk; discriminate|].
      split; [auto|].
      split; [intros c k _ Hk; rewrite flag_full_false in Hk; discriminate|].
      split; [intros k1 k2 Hk; rewrite flag_full_false in Hk; discriminate|].
      assert (Hna : forall q, ~ absorbed_by (np_full (w - 1, h - 1) false) q).
      { intros q (k & Hk & _). rewrite flag_full_false in Hk. discriminate. }
      split; [intros q Hq; destruct (Hna q Hq)|]. split; [reflexivity|].
      intros a b. split; [|tauto]. intros Hd. split; [exact Hd|].
      intros (k & Hk & _). rewrite flag_full_false in Hk. discriminate.
    - intros Hle. apply Al_fuel.
      assert (Hlen : (length cands <= Z.to_nat (w - 1) * Z.to_nat (h - 1))%nat).
      { unfold cands. etransitivity; [apply List.filter_length_le|].
        rewrite product_length, !range_length. reflexivity. }
      nia. }
  intros mask s3 _ (Hmwf & Hm0 & _ & _ & Hmm & Hce & Hcs & Hdo).
  eapply sat_bind; [apply assemble_sat|].
  intros out s4 _ [[Hd4 _] Hout].
  intros Hwf4. simpl. split; [apply quiet_refl, Hwf4|].
  exists (data s1). simpl.
  split; [split; assumption|].
  split; [intros p Hp; destruct (Hch p Hp) as (_ & ? & ?); auto|].
  split.
  { intros p Hp. apply Hnb; [|exact Hp]. apply grid_spec.
    apply (cell_inb w h (data s)); [exact Hwf|]. rewrite Hp. discriminate. }
  split; [intros k Hk; apply Hcands, Hm0, Hk|].
  split; [exact Hmm|].
  split.
  - intros q. unfold occupied. simpl. rewrite Hout. unfold is_body.
    rewrite Z.eqb_eq. destruct (absorbed_by_dec mask q) as [Ha|Ha].
    + rewrite (Hce q Ha). split; [discriminate|tauto].
    + rewrite (Hcs q Ha), (cells_same_cell _ _ Hc1 q). tauto.
  - intros a b.
    rewrite (door_open_door _ (data s4)) by reflexivity.
    rewrite Hd4. apply Hdo.
Qed.

End Finish.

(** ** The invariant of the growth *)

Lemma rtc_mono {A} (R S : relation A) a b :
  (forall x y, R x y -> S x y) -> rtc R a b -> rtc S a b.
Proof.
  intros H Hr. induction Hr as [|x y z Hxy _ IH]; [apply rtc_refl|].
  eapply rtc_l; [apply H, Hxy|exact IH].
Qed.

Lemma rtc_sym {A} (R : relation A) a b :
  (forall x y, R x y -> R y x) -> rtc R a b -> rtc R b a.
Proof.
  intros H Hr. induction Hr as [|x y z Hxy _ IH]; [apply rtc_refl|].
  eapply rtc_r; [exact IH|apply H, Hxy].
Qed.

Lemma growing_step epi d sp heads d' :
  growing epi d sp -> wave_step d sp heads d' -> growing epi d' heads.
Proof.
  intros (Hst & Hsp & Hdo & Hepi & Hconn) (Hheads & Hcell & Hdoor).
  assert (Hne : forall q, cell d q <> _EMPTY -> cell d' q <> _EMPTY).
  { intros q Hq. rewrite Hcell. repeat destruct (decide _); [discriminate|discriminate|exact Hq]. }
  assert (Hmono : forall a b, linked d a b -> linked d' a b).
  { intros a b H. apply Hdoor. left. exact H. }
  split; [|split; [|split; [|split]]].
  - intros p. rewrite Hcell. repeat destruct (decide _); auto.
  - intros p. rewrite Hcell. destruct (decide (p ∈ heads)) as [Hin|Hin]; [tauto|].
    destruct (decide (p ∈ sp)) as [Hs|Hs].
    + split; [discriminate|contradiction].
    + rewrite Hsp. tauto.
  - intros a b H. apply Hdoor in H as [H|(hd & Hin & q & He & Hq & Hc)].
    + destruct (Hdo a b H). auto.
    + assert (Hhd : cell d' hd <> _EMPTY).
      { rewrite Hcell, decide_True by exact Hin. discriminate. }
      assert (Hq' : cell d' q <> _EMPTY).
      { apply Hne. rewrite Hc. discriminate. }
      destruct He as [[-> ->]|[-> ->]]; auto.
  - apply Hne, Hepi.
  - intros a. rewrite Hcell. destruct (decide (a ∈ heads)) as [Hin|Hin].
    + intros _. destruct (Hheads a Hin) as (_ & s0 & Hs0 & Hn).
      assert (Hc0 : cell d s0 = _SPAWNER) by (apply Hsp, Hs0).
      eapply rtc_r.
      * apply (rtc_mono (linked d)); [exact Hmono|]. apply Hconn. rewrite Hc0. discriminate.
      * apply Hdoor. right. exists a. split; [exact Hin|]. exists s0.
        split; [right; auto|]. split; [apply nbrs_sym, Hn|exact Hc0].
    + intros Ha. apply (rtc_mono (linked d)); [exact Hmono|]. apply Hconn.
      destruct (decide (a ∈ sp)) as [Hs|Hs]; [|exact Ha].
      apply Hsp in Hs. rewrite Hs. discriminate.
Qed.

Lemma growing_end epi d sp d' :
  growing epi d sp -> wave_end d sp d' -> grown_up epi d'.
Proof.
  intros (Hst & Hsp & Hdo & Hepi & Hconn) (Hds & Hcell).
  assert (Hbody : forall q, cell d q <> _EMPTY -> cell d' q = _BODY).
  { intros q Hq. rewrite Hcell. destruct (decide (q ∈ sp)) as [Hs|Hs]; [reflexivity|].
    destruct (Hst q) as [H|[H|H]]; [contradiction| |exact H].
    apply Hsp in H. contradiction. }
  assert (Hback : forall q, cell d' q = _BODY -> cell d q <> _EMPTY).
  { intros q. rewrite Hcell. destruct (decide (q ∈ sp)) as [Hs|Hs].
    - intros _. apply Hsp in Hs. rewrite Hs. discriminate.
    - intros ->. discriminate. }
  split; [|split; [|split]].
  - intros p. rewrite Hcell. destruct (decide (p ∈ sp)) as [Hs|Hs]; [auto|].
    destruct (Hst p) as [H|[H|H]]; auto. apply Hsp in H. contradiction.
  - intros a b. rewrite (doors_same_door _ _ a b Hds). intros H.
    destruct (Hdo a b H). auto.
  - apply Hbody, Hepi.
  - intros a Ha. apply (rtc_mono (linked d)).
    + intros x y. unfold linked. rewrite (doors_same_door _ _ x y Hds). auto.
    + apply Hconn, Hback, Ha.
Qed.

Lemma filter_grows {A} (f g : A -> bool) l x :
  (forall y, f y = true -> g y = true) ->
  x ∈ l -> f x = false -> g x = true ->
  (length (List.filter f l) < length (List.filter g l))%nat.
Proof.
  intros Hfg. induction l as [|y l IH]; intros Hin Hf Hg;
    [apply elem_of_nil in Hin as []|].
  assert (Hle : (length (List.filter f l) <= length (List.filter g l))%nat).
  { clear -Hfg. induction l as [|z l IH]; [reflexivity|]. simpl.
    destruct (f z) eqn:E; [rewrite (Hfg z E); simpl; lia|].
    destruct (g z); simpl; lia. }
  simpl. apply elem_of_cons in Hin as [<-|Hin].
  - rewrite Hf, Hg. simpl. lia.
  - specialize (IH Hin Hf Hg). destruct (f y) eqn:E; [rewrite (Hfg y E); simpl; lia|].
    destruct (g y); simpl; lia.
Qed.

Lemma reached_le w h d : 0 < w -> 0 < h -> Z.of_nat (length (reached w h d)) <= w * h.
Proof.
  intros Hw Hh. unfold reached.
  pose proof (List.filter_length_le (fun p => negb (cell d p =? _EMPTY))
                (product (range w) (range h))) as Hle.
  rewrite product_length, !range_length in Hle. nia.
Qed.

Lemma reached_step w h epi d sp heads d' :
  wf w h d' -> growing epi d sp -> wave_step d sp heads d' -> heads <> [] ->
  (length (reached w h d) < length (reached w h d'))%nat.
Proof.
  intros Hwf Hg (Hheads & Hcell & _) Hne.
  destruct heads as [|hd heads]; [congruence|].
  destruct (Hheads hd (list_elem_of_here _ _)) as (He & _).
  assert (Hc : cell d' hd = _SPAWNER).
  { rewrite Hcell, decide_True by apply list_elem_of_here. reflexivity. }
  apply (filter_grows _ _ _ hd).
  - intros q. rewrite !negb_true_iff, !Z.eqb_neq, Hcell.
    intros Hq. repeat destruct (decide _); [discriminate|discriminate|exact Hq].
  - apply grid_spec. apply (cell_inb w h d'); [exact Hwf|]. rewrite Hc. discriminate.
  - rewrite He. reflexivity.
  - rewrite Hc. reflexivity.
Qed.

(** ** From the arrays to the layout *)

Section Layout.

Variables (w h : Z) (epi : _point) (d : _Arrays) (L : Layout).
Hypothesis Hwf : wf w h d.
Hypothesis Hgrown : grown_up epi d.
Hypothesis Hfin : finish_post d L.

Lemma absorbed_spec q : absorbed L q = true <-> absorbed_by (out_big_cells L) q.
Proof. unfold absorbed, big_at. apply absorbed_by_spec. Qed.

Lemma block_body k q :
  big_at L k = true -> q ∈ block k -> cell d q = _BODY.
Proof.
  destruct Hfin as (d2 & [Hc Hg] & _ & _ & Hbo & _).
  destruct Hgrown as (_ & Hdo & _).
  intros Hk Hq. specialize (Hbo k Hk). destruct k as [x y].
  unfold block_open in Hbo. rewrite !andb_true_iff in Hbo.
  destruct Hbo as [[[H1 H2] H3] H4].
  assert (Hb : forall a b, door d2 a b = true -> cell d a = _BODY /\ cell d b = _BODY).
  { intros a b H. apply Hg in H as [H|H]; [apply Hdo, H|exact H]. }
  apply Hb in H1, H3.
  unfold block in Hq. rewrite !elem_of_cons, elem_of_nil in Hq.
  destruct Hq as [-> | [-> | [-> | [-> | []]]]]; tauto.
Qed.

Lemma covered_body q : covered L q = true <-> cell d q = _BODY.
Proof.
  destruct Hfin as (d2 & _ & _ & _ & _ & _ & Hocc & _).
  unfold covered. rewrite orb_true_iff, Hocc, absorbed_spec.
  split.
  - intros [[Hb _]|(k & Hk & Hq)]; [exact Hb|]. eapply block_body; eassumption.
  - intros Hb. destruct (absorbed_by_dec (out_big_cells L) q); auto.
Qed.

Lemma door2_body d2 a b :
  grown d d2 -> door d2 a b = true -> cell d a = _BODY /\ cell d b = _BODY.
Proof.
  intros [_ Hg] H. destruct Hgrown as (_ & Hdo & _).
  apply Hg in H as [H|H]; [apply Hdo, H|exact H].
Qed.

Lemma layout_door_symmetry : door_symmetry_merged L.
Proof.
  destruct Hfin as (d2 & Hg & _ & _ & _ & _ & _ & Hdoor).
  intros a b H. apply Hdoor in H as [H _].
  rewrite !covered_body. eapply door2_body; eassumption.
Qed.

Lemma layout_big_disjoint : big_disjoint L.
Proof.
  destruct Hfin as (d2 & _ & _ & _ & _ & Hfar & _).
  intros a b Ha Hb Hne. split; [apply Hfar; assumption|].
  intros p Hpa Hpb. apply (two_blocks a b p Hpa Hpb Hne). apply Hfar; assumption.
Qed.

Lemma merged_step_sym a b : merged_step L a b -> merged_step L b a.
Proof.
  destruct Hfin as (d2 & _ & _ & _ & _ & _ & _ & Hdoor).
  intros (Ha & Hb & H). split; [exact Hb|]. split; [exact Ha|].
  destruct H as [H|(k & Hk & Hka & Hkb & Hne)].
  - left. apply Hdoor in H as [H Hj]. apply Hdoor. split; [rewrite door_sym; exact H|].
    intros (k & Hk & Hkb & Hka). apply Hj. exists k. auto.
  - right. exists k. auto.
Qed.

Lemma merged_of_door a b : door d a b = true -> merged_step L a b.
Proof.
  destruct Hfin as (d2 & Hg & _ & _ & _ & _ & _ & Hdoor).
  intros H. assert (H2 : door d2 a b = true) by (apply Hg, H).
  destruct (door2_body d2 a b Hg H2) as [Ha Hb].
  split; [apply covered_body, Ha|]. split; [apply covered_body, Hb|].
  destruct (joined_by_dec (out_big_cells L) a b) as [(k & Hk & Hka & Hkb)|Hj].
  - right. exists k. split; [exact Hk|]. split; [exact Hka|]. split; [exact Hkb|].
    intros ->. apply door_nbrs in H. exact (nbrs_irrefl b H).
  - left. apply Hdoor. auto.
Qed.

Lemma layout_connected : connected_merged L.
Proof.
  destruct Hgrown as (_ & _ & _ & Hconn).
  assert (Hto : forall a, covered L a = true -> rtc (merged_step L) epi a).
  { intros a Ha. apply covered_body in Ha.
    apply (rtc_mono (linked d)); [|apply Hconn, Ha].
    intros x y. apply merged_of_door. }
  intros a b Ha Hb. etransitivity; [|apply Hto, Hb].
  apply rtc_sym; [apply merged_step_sym|apply Hto, Ha].
Qed.

Lemma layout_no_isolated : no_isolated_merged L.
Proof.
  intros a Ha. pose proof Ha as Hbody. apply covered_body in Hbody.
  destruct Hfin as (d2 & _ & _ & Hnb & _).
  destruct (Hnb a Hbody) as (q & Hq & Hqb).
  assert (Hne : a <> q) by (intros ->; exact (nbrs_irrefl q Hq)).
  assert (Hr : rtc (merged_step L) a q).
  { apply layout_connected; [exact Ha|apply covered_body, Hqb]. }
  destruct Hr as [|x y z Hxy _]; [congruence|]. exists y. exact Hxy.
Qed.

Lemma two_in_list {A} (l : list A) x y :
  x ∈ l -> y ∈ l -> x <> y -> (2 <= length l)%nat.
Proof.
  intros Hx Hy Hne. destruct l as [|a [|b l]]; simpl; try lia.
  - apply elem_of_nil in Hx as [].
  - apply list_elem_of_singleton in Hx, Hy. congruence.
Qed.

Lemma block_nbrs k p :
  p ∈ block k -> exists q1 q2, q1 <> q2 /\ q1 ∈ block k /\ q2 ∈ block k /\
                              q1 ∈ nbrs p /\ q2 ∈ nbrs p.
Proof.
  destruct k as [x y]. unfold block. rewrite !elem_of_cons, elem_of_nil.
  intros [-> | [-> | [-> | [-> | []]]]].
  - exists (x + 1, y), (x, y + 1). unfold nbrs. rewrite !elem_of_cons.
    split; [intros [=]; lia|]. auto 10.
  - exists (x, y), (x + 1, y + 1). unfold nbrs. rewrite !elem_of_cons.
    split; [intros [=]; lia|].
    replace (x + 1 - 1) with x by lia. auto 10.
  - exists (x, y), (x + 1, y + 1). unfold nbrs. rewrite !elem_of_cons.
    split; [intros [=]; lia|].
    replace (y + 1 - 1) with y by lia. auto 10.
  - exists (x + 1, y), (x, y + 1). unfold nbrs. rewrite !elem_of_cons.
    split; [intros [=]; lia|].
    replace (x + 1 - 1) with x by lia. replace (y + 1 - 1) with y by lia. auto 10.
Qed.

Lemma layout_chest_leaf : chest_leaf_merged L.
Proof.
  intros p Hp.
  destruct Hfin as (d2 & _ & Hch & _ & _ & _ & Hocc & _).
  destruct (Hch p Hp) as [Hbody Hone].
  assert (Hcount : count_nbrs (covered L) p = count_nbrs (is_body d) p).
  { unfold count_nbrs. f_equal. apply filter_ext. intros q. unfold is_body.
    destruct (covered L q) eqn:E.
    - apply covered_body in E. rewrite E. reflexivity.
    - symmetry. apply Z.eqb_neq. intros Hq. apply covered_body in Hq. congruence. }
  split; [|congruence].
  apply Hocc. split; [exact Hbody|].
  intros (k & Hk & Hpk).
  destruct (block_nbrs k p Hpk) as (q1 & q2 & Hne & H1 & H2 & Hn1 & Hn2).
  assert (Hb1 : is_body d q1 = true).
  { unfold is_body. apply Z.eqb_eq. eapply block_body; eassumption. }
  assert (Hb2 : is_body d q2 = true).
  { unfold is_body. apply Z.eqb_eq. eapply block_body; eassumption. }
  assert (Hlen : (2 <= count_nbrs (is_body d) p)%nat).
  { unfold count_nbrs. apply (two_in_list _ q1 q2); [| |exact Hne].
    - apply list_elem_of_In, filter_In. split; [apply list_elem_of_In, Hn1|exact Hb1].
    - apply list_elem_of_In, filter_In. split; [apply list_elem_of_In, Hn2|exact Hb2]. }
  lia.
Qed.

Lemma layout_good : good_layout L.
Proof.
  split; [apply layout_door_symmetry|]. split; [apply layout_connected|].
  split; [apply layout_no_isolated|]. split; [apply layout_chest_leaf|].
  apply layout_big_disjoint.
Qed.

End Layout.

(** ** Whole runs *)

Lemma sat_total {A} w h s (m : M A) (P : A -> World -> Prop) :
  sat w h never s m P -> wf w h (data s) ->
  exists a s', m s = (Ok a, s') /\ quiet w h s s' /\ P a s'.
Proof.
  intros H Hwf. specialize (H Hwf).
  destruct (m s) as [[a|e|] s']; [|destruct H as [_ []]|destruct H as [_ []]].
  exists a, s'. split; [reflexivity|exact H].
Qed.

Lemma waves_cons_wave t : waves (EvWave :: t) = S (waves t).
Proof. reflexivity. Qed.

Lemma waves_quiet w h evs t : Forall (quiet_ev w h) evs -> waves (evs ++ t) = waves t.
Proof.
  induction 1 as [|ev evs [_ Hne] _ IH]; [reflexivity|].
  simpl. unfold waves in *. simpl. destruct ev; [congruence|exact IH|exact IH].
Qed.

Lemma quiet_ok w h evs : Forall (quiet_ev w h) evs -> Forall (event_ok w h) evs.
Proof. intros H. eapply Forall_impl; [exact H|]. intros ev [H1 _]. exact H1. Qed.

Lemma cell_full shape q : cell (Build_Arrays (np_full shape _EMPTY)
                                  (np_full (fst shape - 1, snd shape) false)
                                  (np_full (fst shape, snd shape - 1) false)) q = _EMPTY.
Proof.
  unfold cell. destruct (nonneg q); [|reflexivity]. simpl.
  unfold nd_get, np_full. simpl.
  destruct (norm_index _ _) as [i|]; [|reflexivity].
  destruct (norm_index _ _) as [j|]; [|reflexivity].
  destruct (replicate _ _ !! i) as [row|] eqn:Hrow; [|reflexivity].
  apply lookup_replicate in Hrow as [-> _].
  destruct (replicate _ _ !! j) as [v|] eqn:Hv; [|reflexivity].
  apply lookup_replicate in Hv as [-> _]. reflexivity.
Qed.

Lemma door_full c s1 s2 a b :
  door (Build_Arrays c (np_full s1 false) (np_full s2 false)) a b = false.
Proof.
  unfold door, door_of. simpl. destruct a, b.
  repeat destruct (decide _); try apply flag_full_false; reflexivity.
Qed.

Section Runs.

Variables (w h : Z).
Hypothesis Hw : 0 < w.
Hypothesis Hh : 0 < h.
Variable set_iter : pyset -> list _point.
Hypothesis set_iter_perm : set_iter_ok set_iter.
Variables (epi : _point) (fuel0 : nat) (chance : Q) (c : Z).
Hypothesis Hc : 0 <= c.

Lemma grow_unroll fuel sp s :
  wf w h (data s) -> Forall (inb w h) sp ->
  exists next s1,
    quiet w h (Build_World (data s) (rng s) (EvWave :: trace s)) s1 /\
    grow set_iter fuel0 w h (_PointChecker w h) chance c (S fuel) sp s =
      match next with
      | None => _finish fuel0 w h (_PointChecker w h) chance s1
      | Some heads => grow set_iter fuel0 w h (_PointChecker w h) chance c fuel heads s1
      end /\
    match next with
    | None => wave_end (data s) sp (data s1)
    | Some heads => wave_step (data s) sp heads (data s1) /\ (1 <= c -> heads <> [])
    end.
Proof.
  intros Hwf Hsp.
  set (s0 := Build_World (data s) (rng s) (EvWave :: trace s)).
  destruct (sat_total w h s0 _ _ (wave_sat w h never set_iter set_iter_perm s0 sp c Hc Hsp) Hwf)
    as (next & s1 & Hrun & Hq & Hpost).
  exists next, s1. split; [exact Hq|]. split.
  - simpl. unfold bind at 1. unfold emit. fold s0. unfold bind at 1. rewrite Hrun.
    destruct next; reflexivity.
  - destruct next as [heads|]; [exact Hpost|apply Hpost].
Qed.

Lemma growing_inb d sp : wf w h d -> growing epi d sp -> Forall (inb w h) sp.
Proof.
  intros Hwf (_ & Hsp & _). apply Forall_forall. intros p Hp.
  apply (cell_inb w h d); [exact Hwf|]. apply Hsp in Hp. rewrite Hp. discriminate.
Qed.

Lemma grow_run : forall fuel sp s,
  wf w h (data s) -> growing epi (data s) sp ->
  run_ok w h fuel0 c s fuel
    (grow set_iter fuel0 w h (_PointChecker w h) chance c fuel sp s).
Proof.
  induction fuel as [|fuel IH]; intros sp s Hwf Hg.
  - simpl. unfold diverge. split; [exists []; split; [reflexivity|constructor]|].
    split; [discriminate|]. split; [discriminate|].
    intros _ Hlt. simpl. pose proof (reached_le w h (data s) Hw Hh).
    split; [lia|]. intros _. left. lia.
  - destruct (grow_unroll fuel sp s Hwf (growing_inb _ _ Hwf Hg))
      as (next & s1 & [Hwf1 (evs1 & Ht1 & Hev1)] & -> & Hpost).
    simpl in Ht1.
    assert (Hw1 : waves (trace s1) = S (waves (trace s))).
    { rewrite Ht1, (waves_quiet w h) by exact Hev1. reflexivity. }
    destruct next as [heads|].
    + destruct Hpost as [Hstep Hne].
      destruct (IH heads s1 Hwf1 (growing_step _ _ _ _ _ Hg Hstep))
        as ((evs & Ht & Hev) & HG & HR & HW).
      split; [|split; [exact HG|split; [exact HR|]]].
      * exists (evs ++ evs1 ++ [EvWave]). split.
        -- rewrite Ht, Ht1, <- !app_assoc. reflexivity.
        -- apply Forall_app. split; [exact Hev|]. apply Forall_app.
           split; [apply (quiet_ok w h), Hev1|]. constructor; [exact I|constructor].
      * intros Hc1 Hlt.
        pose proof (reached_step w h epi _ _ _ _ Hwf1 Hg Hstep (Hne Hc1)) as Hgrow.
        destruct (HW Hc1) as [Hwv Hdiv]; [lia|].
        split; [exact Hwv|]. intros Hd. destruct (Hdiv Hd); [left; lia|right; assumption].
    + pose proof (growing_end _ _ _ _ Hg Hpost) as Hup.
      pose proof (_finish_sat w h Hw Hh (may_stop w h fuel0) fuel0 eq_refl (fun H => H)
                    s1 chance Hwf1) as Hfin.
      destruct (_finish fuel0 w h (_PointChecker w h) chance s1) as [o s2].
      assert (Hq2 : quiet w h s1 s2) by (destruct o; apply Hfin).
      destruct Hq2 as [Hwf2 (evs2 & Ht2 & Hev2)].
      split; [|split; [|split]].
      * exists (evs2 ++ evs1 ++ [EvWave]). split.
        -- simpl. rewrite Ht2, Ht1, <- !app_assoc. reflexivity.
        -- apply Forall_app. split; [apply (quiet_ok w h), Hev2|]. apply Forall_app.
           split; [apply (quiet_ok w h), Hev1|]. constructor; [exact I|constructor].
      * intros L HL. simpl in HL. subst o.
        apply (layout_good epi (data s1) L Hup). apply Hfin.
      * intros e He. simpl in He. subst o. apply Hfin.
      * intros _ Hlt. simpl.
        pose proof (reached_le w h (data s) Hw Hh).
        split.
        -- rewrite Ht2, (waves_quiet w h) by exact Hev2. lia.
        -- intros Hd. subst o. right. apply Hfin.
Qed.

End Runs.

(** ** [generate] *)

Lemma Qlt_b_true a b : (a < b)%Q -> Qlt_b a b = true.
Proof.
  intros H. unfold Qlt_b. apply negb_true_iff.
  destruct (Qle_bool b a) eqn:E; [|reflexivity].
  apply Qle_bool_iff in E. exfalso. exact (Qlt_not_le _ _ H E).
Qed.

Lemma Qlt_b_false a b : (b <= a)%Q -> Qlt_b a b = false.
Proof.
  intros H. unfold Qlt_b. apply negb_false_iff. apply Qle_bool_iff, H.
Qed.

(** The validation passes exactly on the valid inputs. *)
Lemma first_violation_None w h px py chance c :
  first_violation w h px py chance c = None <-> valid_input w h px py chance c.
Proof.
  unfold first_violation, valid_input.
  destruct (decide (w <= 0)); [split; [discriminate|lia]|].
  destruct (decide (h <= 0)); [split; [discriminate|lia]|].
  destruct (decide (0 <= px < w)); [|split; [discriminate|tauto]].
  destruct (decide (0 <= py < h)); [|split; [discriminate|tauto]].
  destruct (Qlt_le_dec 0 chance) as [H0|H0].
  2:{ split; [discriminate|]. intros (_ & _ & _ & _ & H & _).
      exfalso. exact (Qlt_not_le _ _ H H0). }
  destruct (Qlt_le_dec chance 1) as [H1|H1].
  2:{ split; [discriminate|]. intros (_ & _ & _ & _ & _ & H & _).
      exfalso. exact (Qlt_not_le _ _ H H1). }
  destruct (decide (c < 0)); [split; [discriminate|lia]|].
  split; [intros _; repeat split; try assumption; lia|reflexivity].
Qed.

Lemma generate_invalid set_iter fuel w h px py chance c tape msg :
  first_violation w h px py chance c = Some msg ->
  generate set_iter fuel w h px py chance c tape = (Raise (ValueError msg), tape, []).
Proof.
  unfold first_violation, generate.
  destruct (decide (w <= 0)) as [H|H].
  { intros [= <-]. replace (w <=? 0) with true by (symmetry; apply Z.leb_le; lia).
    reflexivity. }
  replace (w <=? 0) with false by (symmetry; apply Z.leb_gt; lia).
  destruct (decide (h <= 0)) as [H1|H1].
  { intros [= <-]. replace (h <=? 0) with true by (symmetry; apply Z.leb_le; lia).
    reflexivity. }
  replace (h <=? 0) with false by (symmetry; apply Z.leb_gt; lia).
  destruct (decide (0 <= px < w)) as [H2|H2].
  2:{ intros [= <-].
      replace ((0 <=? px) && (px <? w)) with false; [reflexivity|].
      symmetry. apply andb_false_iff.
      destruct (decide (0 <= px)); [right; apply Z.ltb_ge; lia|left; apply Z.leb_gt; lia]. }
  replace ((0 <=? px) && (px <? w)) with true
    by (symmetry; apply andb_true_iff; split; [apply Z.leb_le|apply Z.ltb_lt]; lia).
  destruct (decide (0 <= py < h)) as [H3|H3].
  2:{ intros [= <-].
      replace ((0 <=? py) && (py <? h)) with false; [reflexivity|].
      symmetry. apply andb_false_iff.
      destruct (decide (0 <= py)); [right; apply Z.ltb_ge; lia|left; apply Z.leb_gt; lia]. }
  replace ((0 <=? py) && (py <? h)) with true
    by (symmetry; apply andb_true_iff; split; [apply Z.leb_le|apply Z.ltb_lt]; lia).
  simpl negb.
  destruct (Qlt_le_dec 0 chance) as [H4|H4].
  2:{ intros [= <-]. rewrite (Qlt_b_false 0 chance H4). reflexivity. }
  rewrite (Qlt_b_true 0 chance H4).
  destruct (Qlt_le_dec chance 1) as [H5|H5].
  2:{ intros [= <-]. rewrite (Qlt_b_false chance 1 H5). reflexivity. }
  rewrite (Qlt_b_true chance 1 H5). simpl negb.
  destruct (decide (c < 0)) as [H6|H6]; [|discriminate].
  intros [= <-]. replace (c <? 0) with true by (symmetry; apply Z.ltb_lt; lia).
  reflexivity.
Qed.

Lemma generate_valid set_iter fuel w h px py chance c tape :
  valid_input w h px py chance c ->
  generate set_iter fuel w h px py chance c tape =
  let '(o, s) :=
    bind (cells_set (px, py) _SPAWNER)
      (fun _ => grow set_iter fuel w h (_PointChecker w h) chance c fuel [(px, py)])
      (Build_World (Build_Arrays (np_full (w, h) _EMPTY)
                      (np_full (w - 1, h) false) (np_full (w, h - 1) false))
         tape []) in
  (o, rng s, trace s).
Proof.
  intros (Hw & Hh & Hx & Hy & H0 & H1 & Hc). unfold generate.
  replace (w <=? 0) with false by (symmetry; apply Z.leb_gt; lia).
  replace (h <=? 0) with false by (symmetry; apply Z.leb_gt; lia).
  replace ((0 <=? px) && (px <? w)) with true
    by (symmetry; apply andb_true_iff; split; [apply Z.leb_le|apply Z.ltb_lt]; lia).
  replace ((0 <=? py) && (py <? h)) with true
    by (symmetry; apply andb_true_iff; split; [apply Z.leb_le|apply Z.ltb_lt]; lia).
  rewrite (Qlt_b_true 0 chance H0), (Qlt_b_true chance 1 H1).
  replace (c <? 0) with false by (symmetry; apply Z.ltb_ge; lia).
  reflexivity.
Qed.

(** What is proved of every run of [generate] on a valid input. *)
Lemma generate_run set_iter fuel w h px py chance c tape :
  set_iter_ok set_iter -> valid_input w h px py chance c ->
  let r := generate set_iter fuel w h px py chance c tape in
  Forall (event_ok w h) (run_trace r) /\
  (forall L, run_outcome r = Ok L -> good_layout L) /\
  (forall e, run_outcome r = Raise e -> e = remove_error) /\
  (1 <= c -> Z.of_nat (waves (run_trace r)) <= w * h /\
             (Z.max (w * h) 3 <= Z.of_nat fuel -> run_outcome r <> Diverge)).
Proof.
  intros Hsi Hv. pose proof Hv as (Hw & Hh & Hx & Hy & _ & _ & Hc).
  rewrite (generate_valid _ _ _ _ _ _ _ _ _ Hv).
  set (d0 := Build_Arrays _ _ _). set (s0 := Build_World d0 tape []).
  assert (Hwf0 : wf w h d0) by (repeat split; apply np_full_wf || reflexivity).
  assert (Hepi : inb w h (px, py)) by (split; assumption).
  destruct (sat_total w h s0 _ _ (cells_set_sat w h never s0 (px, py) _SPAWNER Hepi) Hwf0)
    as ([] & s1 & Hrun & [Hwf1 (evs1 & Ht1 & Hev1)] & (_ & Hds & Hcell)).
  unfold bind. rewrite Hrun.
  assert (Hcell0 : forall q, cell d0 q = _EMPTY) by (intros q; apply (cell_full (w, h))).
  assert (Hg : growing (px, py) (data s1) [(px, py)]).
  { split; [|split; [|split; [|split]]].
    - intros p. rewrite Hcell, Hcell0. destruct (decide _); auto.
    - intros p. rewrite Hcell, Hcell0, list_elem_of_singleton.
      destruct (decide _); [tauto|]. split; [discriminate|contradiction].
    - intros a b Hd. rewrite (doors_same_door _ _ a b Hds) in Hd.
      assert (Hf : door (data s0) a b = false) by apply door_full. congruence.
    - rewrite Hcell, decide_True by reflexivity. discriminate.
    - intros a. rewrite Hcell, Hcell0. destruct (decide (a = (px, py))) as [->|_].
      + intros _. apply rtc_refl.
      + intros H. congruence. }
  pose proof (grow_run w h Hw Hh set_iter Hsi (px, py) fuel chance c Hc fuel
                [(px, py)] s1 Hwf1 Hg) as Hrun1.
  destruct (grow set_iter fuel w h (_PointChecker w h) chance c fuel [(px, py)] s1)
    as [o s2].
  destruct Hrun1 as ((evs & Ht & Hev) & HG & HR & HW).
  simpl in Ht, HG, HR, HW. simpl in Ht1. rewrite app_nil_r in Ht1.
  unfold run_trace, run_outcome. simpl.
  split; [|split; [exact HG|split; [exact HR|]]].
  - rewrite Ht, Ht1. apply Forall_app. split; [exact Hev|apply (quiet_ok w h), Hev1].
  - intros Hc1.
    assert (Hin : (px, py) ∈ reached w h (data s1)).
    { unfold reached. apply list_elem_of_In, filter_In.
      split; [apply list_elem_of_In, grid_spec, Hepi|].
      rewrite Hcell, decide_True by reflexivity. reflexivity. }
    assert (Hpos : (0 < length (reached w h (data s1)))%nat).
    { destruct (reached w h (data s1)); [apply elem_of_nil in Hin as []|simpl; lia]. }
    assert (Hwv : waves (trace s1) = 0%nat).
    { rewrite Ht1. rewrite <- (app_nil_r evs1). apply (waves_quiet w h), Hev1. }
    destruct (HW Hc1) as [Hle Hdiv]; [lia|].
    split; [exact Hle|]. intros Hfuel ->. destruct (Hdiv eq_refl); lia.
Qed.

Lemma generate_ok_valid set_iter fuel w h px py chance c tape L :
  run_outcome (generate set_iter fuel w h px py chance c tape) = Ok L ->
  valid_input w h px py chance c.
Proof.
  intros H. apply first_violation_None.
  destruct (first_violation w h px py chance c) as [msg|] eqn:E; [|reflexivity].
  rewrite (generate_invalid _ _ _ _ _ _ _ _ _ _ E) in H. discriminate.
Qed.

Lemma generate_good set_iter fuel w h px py chance c tape L :
  set_iter_ok set_iter ->
  run_outcome (generate set_iter fuel w h px py chance c tape) = Ok L ->
  good_layout L.
Proof.
  intros Hsi H. pose proof (generate_ok_valid _ _ _ _ _ _ _ _ _ _ H) as Hv.
  apply (generate_run set_iter fuel w h px py chance c tape Hsi Hv). exact H.
Qed.

Lemma insertion_order_ok : set_iter_ok insertion_order.
Proof. intros s. reflexivity. Qed.

(** ** Two runs worked out *)

Lemma run_3x2 :
  run_outcome (generate insertion_order 6 3 2 2 0 default_chance 1 tape_3x2)
  = Ok layout_3x2.
Proof. vm_compute. reflexivity. Qed.

Lemma run_4x2 :
  run_outcome (generate insertion_order 8 4 2 1 0 default_chance default_c tape_4x2)
  = Ok layout_4x2.
Proof. vm_compute. reflexivity. Qed.

Lemma door_open_nbrs L a b : door_open L a b = true -> b ∈ nbrs a.
Proof.
  unfold door_open, nbrs. destruct a as [x y], b as [x' y'].
  repeat (destruct (decide _)); try discriminate; intros _;
    match goal with H : _ /\ _ |- _ => destruct H as [-> ->] end;
    rewrite !elem_of_cons; auto 10.
Qed.

Lemma left_column_4x2 a b :
  door_step layout_4x2 a b -> fst a = 0 -> fst b = 0.
Proof.
  destruct a as [xa ya]. simpl. intros (Ha & Hb & Hd) ->.
  assert (Hya : ya = 0 \/ ya = 1).
  { apply (flag_inb 4 2) in Ha; [unfold inb in Ha; simpl in Ha; lia|].
    repeat split. repeat constructor. }
  apply door_open_nbrs in Hd. unfold nbrs in Hd.
  rewrite !elem_of_cons, elem_of_nil in Hd.
  destruct Hd as [-> | [-> | [-> | [-> | []]]]]; try reflexivity.
  - discriminate Hb.
  - destruct Hya as [-> | ->]; discriminate Hb.
Qed.

Lemma not_connected_4x2 : ~ connected layout_4x2.
Proof.
  intros H. specialize (H (0, 0) (3, 0) eq_refl eq_refl).
  assert (Hinv : forall a b, rtc (door_step layout_4x2) a b -> fst a = 0 -> fst b = 0).
  { intros a b Hr. induction Hr as [|x y z Hxy _ IH]; [auto|].
    intros Hx. apply IH. eapply left_column_4x2; eassumption. }
  specialize (Hinv _ _ H eq_refl). discriminate Hinv.
Qed.

Lemma isolated_3x2 : ~ no_isolated layout_3x2.
Proof.
  intros H. destruct (H (2, 0) eq_refl) as (b & _ & Hb & Hd).
  apply door_open_nbrs in Hd. unfold nbrs in Hd.
  rewrite !elem_of_cons, elem_of_nil in Hd.
  destruct Hd as [-> | [-> | [-> | [-> | []]]]]; discriminate Hb.
Qed.

(** ** Runs that differ in their trace only *)

Lemma twin_refl s : twin s s.
Proof. split; reflexivity. Qed.

Lemma blind_ret {A} (a : A) : blind (ret a).
Proof. intros s1 s2 H. split; [reflexivity|exact H]. Qed.

Lemma blind_raise {A} e : blind (@raise A e).
Proof. intros s1 s2 H. split; [reflexivity|exact H]. Qed.

Lemma blind_diverge {A} : blind (@diverge A).
Proof. intros s1 s2 H. split; [reflexivity|exact H]. Qed.

Lemma blind_emit ev : blind (emit ev).
Proof. intros s1 s2 [Hd Hr]. split; [reflexivity|split; assumption]. Qed.

Lemma blind_bind {A B} (m : M A) (k : A -> M B) :
  blind m -> (forall a, blind (k a)) -> blind (bind m k).
Proof.
  intros Hm Hk s1 s2 H. unfold bind. destruct (Hm s1 s2 H) as [Ho Ht].
  destruct (m s1) as [o1 t1], (m s2) as [o2 t2]. simpl in Ho, Ht. subst o2.
  destruct o1 as [a|e|]; [apply Hk, Ht|split; [reflexivity|exact Ht]..].
Qed.

Lemma blind_cells_get idx : blind (cells_get idx).
Proof.
  apply blind_bind; [apply blind_emit|]. intros _ s1 s2 [Hd Hr]. rewrite Hd.
  destruct (nd_get _ _); (split; [reflexivity|split; assumption]).
Qed.

Lemma blind_hor_get idx : blind (hor_get idx).
Proof.
  apply blind_bind; [apply blind_emit|]. intros _ s1 s2 [Hd Hr]. rewrite Hd.
  destruct (nd_get _ _); (split; [reflexivity|split; assumption]).
Qed.

Lemma blind_ver_get idx : blind (ver_get idx).
Proof.
  apply blind_bind; [apply blind_emit|]. intros _ s1 s2 [Hd Hr]. rewrite Hd.
  destruct (nd_get _ _); (split; [reflexivity|split; assumption]).
Qed.

Lemma blind_cells_set idx v : blind (cells_set idx v).
Proof.
  apply blind_bind; [apply blind_emit|]. intros _ s1 s2 [Hd Hr]. cbv beta. rewrite Hd.
  destruct (nd_set _ _ _); simpl; rewrite ?Hd, ?Hr;
    (split; [reflexivity|split; simpl; first [reflexivity|assumption]]).
Qed.

Lemma blind_hor_set idx v : blind (hor_set idx v).
Proof.
  apply blind_bind; [apply blind_emit|]. intros _ s1 s2 [Hd Hr]. cbv beta. rewrite Hd.
  destruct (nd_set _ _ _); simpl; rewrite ?Hd, ?Hr;
    (split; [reflexivity|split; simpl; first [reflexivity|assumption]]).
Qed.

Lemma blind_ver_set idx v : blind (ver_set idx v).
Proof.
  apply blind_bind; [apply blind_emit|]. intros _ s1 s2 [Hd Hr]. cbv beta. rewrite Hd.
  destruct (nd_set _ _ _); simpl; rewrite ?Hd, ?Hr;
    (split; [reflexivity|split; simpl; first [reflexivity|assumption]]).
Qed.

Lemma blind_local_set {A} (a : ndarray A) idx v : blind (local_set a idx v).
Proof. unfold local_set. destruct (nd_set _ _ _); [apply blind_ret|apply blind_raise]. Qed.

Lemma blind_next_draw : blind next_draw.
Proof.
  intros s1 s2 [Hd Hr]. unfold next_draw. rewrite Hr.
  destruct (rng s2) eqn:E; (split; [reflexivity|split; simpl; congruence]).
Qed.

Lemma blind_for_each {A} (body : A -> M unit) l :
  (forall x, blind (body x)) -> blind (for_each l body).
Proof.
  intros Hb. induction l as [|x l IH]; [apply blind_ret|].
  simpl. apply blind_bind; [apply Hb|intros _; exact IH].
Qed.

Lemma blind_foldM {A B} (f : B -> A -> M B) l :
  (forall acc x, blind (f acc x)) -> forall acc, blind (foldM f acc l).
Proof.
  intros Hf. induction l as [|x l IH]; intros acc; [apply blind_ret|].
  simpl. apply blind_bind; [apply Hf|intros acc'; apply IH].
Qed.

Lemma blind_filterM {A} (cond : A -> M bool) l :
  (forall x, blind (cond x)) -> blind (filterM cond l).
Proof.
  intros Hc. induction l as [|x l IH]; [apply blind_ret|].
  simpl. apply blind_bind; [apply Hc|]. intros b.
  apply blind_bind; [exact IH|]. intros rest. apply blind_ret.
Qed.

Lemma blind_randbelow n : blind (randbelow n).
Proof. apply blind_bind; [apply blind_next_draw|intros r; apply blind_ret]. Qed.

Lemma blind_random_random : blind random_random.
Proof. apply blind_bind; [apply blind_next_draw|intros r; apply blind_ret]. Qed.

Lemma blind_random_choice {A} (l : list A) : blind (random_choice l).
Proof.
  unfold random_choice. destruct l as [|a l]; [apply blind_raise|].
  apply blind_bind; [apply blind_randbelow|]. intros j.
  destruct (_ !! j); [apply blind_ret|apply blind_raise].
Qed.

Lemma blind_sample_pool {A} k : forall pool : list A, blind (sample_pool k pool).
Proof.
  induction k as [|k IH]; intros pool; [apply blind_ret|].
  simpl. apply blind_bind; [apply blind_randbelow|]. intros j.
  destruct (pool !! j); [|apply blind_raise].
  apply blind_bind; [apply IH|intros rest; apply blind_ret].
Qed.

Lemma blind_random_sample {A} (population : list A) k : blind (random_sample population k).
Proof.
  unfold random_sample. destruct (_ || _); [apply blind_raise|apply blind_sample_pool].
Qed.

Lemma blind_list_remove x l : blind (list_remove x l).
Proof.
  unfold list_remove. destruct x as [d|]; [|apply blind_raise].
  destruct (remove_first d l); [apply blind_ret|apply blind_raise].
Qed.

Lemma blind_get_door p dir : blind (_get_door p dir).
Proof.
  unfold _get_door. apply blind_bind; [apply blind_emit|]. intros _. destruct p as [x y].
  repeat (destruct (_ =? _);
          [apply blind_bind; [first [apply blind_hor_get|apply blind_ver_get]|
                              intros v; apply blind_ret]|]).
  apply blind_ret.
Qed.

Lemma blind_set_door p dir v : blind (_set_door p dir v).
Proof.
  unfold _set_door. apply blind_bind; [apply blind_emit|]. intros _. destruct p as [x y].
  repeat (first [ apply blind_bind; [|intros _]
                | destruct (_ =? _); [first [apply blind_hor_set|apply blind_ver_set]|
                                      apply blind_ret] ]).
Qed.

Lemma blind_cell_test q (c : Z) : blind (v <- cells_get q ;; ret (v =? c))%M.
Proof. apply blind_bind; [apply blind_cells_get|intros v; apply blind_ret]. Qed.

Lemma blind_wire p filter_ : blind (_wire p filter_).
Proof.
  unfold _wire. apply blind_bind.
  - apply blind_filterM. intros pair. apply blind_cell_test.
  - intros pairs. apply blind_for_each. intros dir. apply blind_set_door.
Qed.

Lemma blind_find_first p dirs : forall first, blind (find_first p dirs first).
Proof.
  induction dirs as [|dir dirs IH]; intros first; [apply blind_ret|].
  simpl. apply blind_bind; [apply blind_get_door|]. intros d.
  destruct (default false d); [|apply IH].
  destruct first; [apply blind_ret|apply IH].
Qed.

Lemma blind_more_wirings p chance fuel : forall dirs, blind (more_wirings fuel p chance dirs).
Proof.
  induction fuel as [|fuel IH]; intros dirs; [apply blind_diverge|].
  simpl. destruct (0 <? length dirs)%nat; [|apply blind_ret].
  apply blind_bind; [apply blind_random_random|]. intros r.
  destruct (Qle_bool r chance); [|apply blind_ret].
  apply blind_bind; [apply blind_random_choice|]. intros choice.
  apply blind_bind; [apply blind_set_door|]. intros _.
  apply blind_bind; [apply (blind_list_remove (Some choice) dirs)|]. intros dirs'. apply IH.
Qed.

Lemma blind_process fuel p filter_ chance :
  blind (_process_as_if_dead_end fuel p filter_ chance).
Proof.
  unfold _process_as_if_dead_end. destruct p as [x y].
  apply blind_bind; [apply blind_cells_get|]. intros v.
  destruct (v =? _BODY); [|apply blind_ret].
  apply blind_bind; [apply blind_filterM; intros pair; apply blind_cell_test|].
  intros pairs. destruct (_ =? 1)%nat; [apply blind_ret|].
  apply blind_bind; [apply blind_find_first|]. intros [u|first]; [apply blind_ret|].
  apply blind_bind; [apply blind_list_remove|]. intros dirs1.
  apply blind_bind; [apply blind_random_choice|]. intros choice.
  apply blind_bind; [apply blind_set_door|]. intros _.
  apply blind_bind; [apply blind_list_remove|]. intros dirs2.
  apply blind_bind; [apply blind_more_wirings|]. intros _. apply blind_ret.
Qed.

Lemma blind_big_cell_filter k : blind (_big_cell_filter k).
Proof.
  unfold _big_cell_filter. destruct k as [x y].
  apply blind_bind; [apply blind_hor_get|]. intros a. destruct a; [|apply blind_ret].
  apply blind_bind; [apply blind_ver_get|]. intros b. destruct b; [|apply blind_ret].
  apply blind_bind; [apply blind_hor_get|]. intros c. destruct c; [|apply blind_ret].
  apply blind_ver_get.
Qed.

Lemma blind_place_big_cell k : blind (_place_big_cell k).
Proof.
  unfold _place_big_cell. destruct k as [x y].
  repeat (apply blind_bind; [first [apply blind_cells_set|apply blind_hor_set|apply blind_ver_set]|
                             intros _]).
  apply blind_ver_set.
Qed.

Lemma blind_place_big_cells fuel : forall cands mask, blind (place_big_cells fuel cands mask).
Proof.
  induction fuel as [|fuel IH]; intros cands mask; [apply blind_diverge|].
  simpl. destruct (0 <? length cands)%nat; [|apply blind_ret].
  apply blind_bind; [apply blind_random_choice|]. intros choice.
  apply blind_bind; [apply blind_place_big_cell|]. intros _.
  apply blind_bind; [apply blind_local_set|]. intros mask'. apply IH.
Qed.

Lemma blind_finish fuel w h filter_ chance : blind (_finish fuel w h filter_ chance).
Proof.
  unfold _finish.
  apply blind_bind.
  { apply blind_foldM. intros acc cell.
    apply blind_bind; [apply blind_process|intros r; apply blind_ret]. }
  intros chests.
  apply blind_bind; [apply blind_filterM; intros k; apply blind_big_cell_filter|].
  intros cands.
  apply blind_bind; [apply blind_place_big_cells|]. intros mask.
  apply blind_bind.
  { apply blind_foldM. intros acc xy.
    apply blind_bind; [apply blind_cells_get|intros v; apply blind_local_set]. }
  intros out s1 s2 [Hd Hr]. simpl. rewrite Hd. split; [reflexivity|split; assumption].
Qed.

(** ** Runs that differ in the order of their sets *)

Lemma bool_iff (a b : bool) : (a = true <-> b = true) -> a = b.
Proof.
  destruct a, b; intros [H1 H2]; try reflexivity.
  - symmetry. apply H1. reflexivity.
  - apply H2. reflexivity.
Qed.

#[local] Instance point_le_trans : Transitive point_le.
Proof. intros [a1 a2] [b1 b2] [c1 c2]. unfold point_le. simpl. lia. Qed.

#[local] Instance point_le_total : Total point_le.
Proof. intros [a1 a2] [b1 b2]. unfold point_le. simpl. lia. Qed.

#[local] Instance point_le_antisym : AntiSymm eq point_le.
Proof.
  intros [a1 a2] [b1 b2]. unfold point_le. simpl. intros H1 H2. f_equal; lia.
Qed.

Lemma same_elements_dups (v1 v2 : pyset) :
  (forall q, q ∈ v1 <-> q ∈ v2) -> remove_dups v1 ≡ₚ remove_dups v2.
Proof.
  intros H. apply NoDup_Permutation; [apply NoDup_remove_dups..|].
  intros q. rewrite !elem_of_remove_dups. apply H.
Qed.

Lemma same_elements_len (v1 v2 : pyset) :
  (forall q, q ∈ v1 <-> q ∈ v2) -> set_len v1 = set_len v2.
Proof. intros H. unfold set_len. rewrite (same_elements_dups v1 v2 H). reflexivity. Qed.

Lemma same_elements_sorted (v1 v2 : pyset) :
  (forall q, q ∈ v1 <-> q ∈ v2) -> sorted v1 = sorted v2.
Proof.
  intros H. unfold sorted. apply (StronglySorted_unique point_le).
  - apply StronglySorted_merge_sort; apply _.
  - apply StronglySorted_merge_sort; apply _.
  - rewrite !merge_sort_Permutation. apply same_elements_dups, H.
Qed.

Lemma sat_remember {A} w h Al s (m : M A) (P : A -> World -> Prop) :
  sat w h Al s m P -> sat w h Al s m (fun a s' => P a s' /\ m s = (Ok a, s')).
Proof.
  intros H Hwf. specialize (H Hwf).
  destruct (m s) as [[a|e|] s'] eqn:E; [|exact H..].
  destruct H as [Hq HP]. split; [exact Hq|]. split; [exact HP|reflexivity].
Qed.

Lemma bind_ok {A B} (m : M A) (k : A -> M B) s a s' :
  m s = (Ok a, s') -> bind m k s = k a s'.
Proof. intros H. unfold bind. rewrite H. reflexivity. Qed.

Section Twins.

Variables (w h : Z).
Hypothesis Hw : 0 < w.
Hypothesis Hh : 0 < h.

Lemma cells_get_cell d x y :
  wf w h d -> 0 <= x < w -> 0 <= y < h -> nd_get (cells d) (x, y) = Some (cell d (x, y)).
Proof.
  intros Hwf Hx Hy.
  destruct (nd_get_inb w h (cells d) x y (proj1 Hwf) Hx Hy) as [v Hv].
  unfold cell. rewrite (nonneg_inb w h) by (split; assumption). rewrite Hv. reflexivity.
Qed.

Lemma flag_get d0 d1 (a : ndarray bool) x y :
  wf_nd d0 d1 a -> 0 <= x < d0 -> 0 <= y < d1 -> nd_get a (x, y) = Some (flag a (x, y)).
Proof.
  intros Hwf Hx Hy. destruct (nd_get_inb d0 d1 a x y Hwf Hx Hy) as [v Hv].
  unfold flag. simpl. rewrite Hv.
  replace (0 <=? x) with true by (symmetry; apply Z.leb_le; lia).
  replace (0 <=? y) with true by (symmetry; apply Z.leb_le; lia).
  destruct v; reflexivity.
Qed.

(** Well-formed arrays are what their cells and doors say. *)
Lemma arrays_ext d1 d2 :
  wf w h d1 -> wf w h d2 ->
  (forall q, cell d1 q = cell d2 q) ->
  (forall a b, door d1 a b = door d2 a b) ->
  d1 = d2.
Proof.
  intros Hwf1 Hwf2 Hc Hd.
  assert (E1 : cells d1 = cells d2).
  { apply (nd_ext w h); [apply Hwf1|apply Hwf2|]. intros x y Hx Hy.
    rewrite !cells_get_cell by assumption. rewrite Hc. reflexivity. }
  assert (E2 : hor_doors d1 = hor_doors d2).
  { apply (nd_ext (w - 1) h); [apply Hwf1|apply Hwf2|]. intros x y Hx Hy.
    rewrite (flag_get (w - 1) h) by (try apply Hwf1; assumption).
    rewrite (flag_get (w - 1) h (hor_doors d2)) by (try apply Hwf2; assumption).
    rewrite !flag_hor_door, Hd. reflexivity. }
  assert (E3 : ver_doors d1 = ver_doors d2).
  { apply (nd_ext w (h - 1)); [apply Hwf1|apply Hwf2|]. intros x y Hx Hy.
    rewrite (flag_get w (h - 1)) by (try apply Hwf1; assumption).
    rewrite (flag_get w (h - 1) (ver_doors d2)) by (try apply Hwf2; assumption).
    rewrite !flag_ver_door, Hd. reflexivity. }
  destruct d1, d2. simpl in *. congruence.
Qed.

Lemma wave_desc_sat Al set_iter s spawners c :
  set_iter_ok set_iter -> 0 <= c -> Forall (inb w h) spawners ->
  sat w h Al s (wave set_iter (_PointChecker w h) c spawners set_empty)
    (wave_desc w h set_iter c s spawners).
Proof.
  intros Hsi Hc Hsp. unfold wave.
  eapply sat_bind; [apply scan_sat, Hsp|].
  intros vac s1 _ [Hs1 Hvac].
  assert (Hvac' : forall q, q ∈ vac <-> vacant w h (data s) spawners q).
  { intros q. rewrite Hvac. unfold vacant. split; [|auto].
    intros [Hq|Hq]; [apply elem_of_nil in Hq as []|exact Hq]. }
  pose proof Hs1 as [Hd1 Hr1].
  destruct (set_len vac =? 0)%nat eqn:HL.
  - apply Nat.eqb_eq in HL.
    eapply sat_bind; [apply paint_sat, Hsp|].
    intros [] s2 _ (Hr2 & Hds & Hcell). apply sat_ret.
    exists vac, s1. split; [exact Hvac'|]. split; [exact Hs1|].
    rewrite Hd1 in Hds, Hcell. split; [exact HL|]. split; [congruence|].
    split; assumption.
  - apply Nat.eqb_neq in HL.
    eapply sat_bind; [apply sat_remember, (heads_sat w h Al set_iter Hsi); assumption|].
    intros heads s2 _ [([Hd2 _] & Hin & _) Hrun].
    assert (Hheads : forall q, q ∈ heads -> vacant w h (data s) spawners q).
    { intros q Hq. apply Hvac', Hin, Hq. }
    assert (Hhin : Forall (inb w h) heads).
    { apply Forall_forall. intros q Hq. destruct (Hheads q Hq) as (_ & _ & _ & ? & _).
      assumption. }
    eapply sat_bind; [apply wiring_sat, Hhin|].
    intros [] s3 _ (Hr3 & Hc3 & Hdoor3).
    eapply sat_bind; [apply paint_sat, Hsp|].
    intros [] s4 _ (Hr4 & Hds4 & Hcell4).
    eapply sat_bind; [apply paint_sat, Hhin|].
    intros [] s5 _ (Hr5 & Hds5 & Hcell5). apply sat_ret.
    rewrite Hd2, Hd1 in Hc3, Hdoor3.
    exists vac, s1. split; [exact Hvac'|]. split; [exact Hs1|].
    split; [exact HL|]. split; [exists s2; split; [exact Hrun|congruence]|].
    split; [exact Hhin|]. split; [|split].
    + intros q Hq. destruct (Hheads q Hq) as (sp & ? & ? & _ & ?). split; [assumption|].
      exists sp. auto.
    + intros q. rewrite Hcell5, Hcell4, (cells_same_cell _ _ Hc3 q). reflexivity.
    + intros a b. rewrite (doors_same_door _ _ a b Hds5), (doors_same_door _ _ a b Hds4).
      apply Hdoor3.
Qed.

Lemma wave_agree iter1 iter2 c s1 s2 sp1 sp2 n1 n2 t1 t2 :
  set_iter_ok iter1 -> set_iter_ok iter2 ->
  twin s1 s2 -> (forall p, p ∈ sp1 <-> p ∈ sp2) ->
  wf w h (data t1) -> wf w h (data t2) ->
  wave_desc w h iter1 c s1 sp1 n1 t1 -> wave_desc w h iter2 c s2 sp2 n2 t2 ->
  twin t1 t2 /\
  match n1, n2 with
  | None, None => True
  | Some h1, Some h2 => forall p, p ∈ h1 <-> p ∈ h2
  | _, _ => False
  end.
Proof.
  intros Hi1 Hi2 [Hd Hr] Hsp Hwf1 Hwf2
    (vac1 & u1 & Hv1 & [Hdu1 Hru1] & D1) (vac2 & u2 & Hv2 & [Hdu2 Hru2] & D2).
  assert (Hv : forall q, q ∈ vac1 <-> q ∈ vac2).
  { intros q. rewrite Hv1, Hv2. unfold vacant. rewrite Hd.
    split; intros (sp & Hin & Hrest); exists sp; (split; [apply Hsp, Hin|exact Hrest]). }
  pose proof (same_elements_len _ _ Hv) as HL.
  pose proof (same_elements_sorted _ _ Hv) as Hso.
  destruct n1 as [h1|], n2 as [h2|].
  - destruct D1 as (_ & (v1 & Hrun1 & Hrt1) & _ & Hh1 & Hc1 & Hdo1).
    destruct D2 as (_ & (v2 & Hrun2 & Hrt2) & _ & Hh2 & Hc2 & Hdo2).
    assert (Htw : twin u1 u2) by (split; congruence).
    assert (Hheads : (forall p, p ∈ h1 <-> p ∈ h2) /\ rng v1 = rng v2).
    { unfold head_choice in Hrun1, Hrun2. rewrite HL, Hso in Hrun1.
      destruct (c <? Z.of_nat (set_len vac2)).
      - destruct (blind_random_sample (sorted vac2) c u1 u2 Htw) as [Ho [_ Hrv]].
        rewrite Hrun1, Hrun2 in Ho, Hrv. simpl in Ho, Hrv. injection Ho as ->.
        split; [reflexivity|exact Hrv].
      - unfold ret in Hrun1, Hrun2. injection Hrun1 as <- <-. injection Hrun2 as <- <-.
        split; [|apply Htw]. intros p.
        rewrite (set_iter_elem iter1 Hi1), (set_iter_elem iter2 Hi2). apply Hv. }
    destruct Hheads as [Hhe Hrv]. split; [|exact Hhe].
    split; [|congruence].
    apply arrays_ext; [assumption..| |].
    + intros q. rewrite Hc1, Hc2, Hd.
      destruct (decide (q ∈ h1)) as [H1|H1], (decide (q ∈ h2)) as [H2|H2];
        try reflexivity; try (exfalso; apply Hhe in H1; contradiction);
        try (exfalso; apply Hhe in H2; contradiction).
      destruct (decide (q ∈ sp1)) as [H3|H3], (decide (q ∈ sp2)) as [H4|H4];
        try reflexivity; try (exfalso; apply Hsp in H3; contradiction);
        try (exfalso; apply Hsp in H4; contradiction).
    + intros a b. apply bool_iff. rewrite Hdo1, Hdo2, Hd.
      split; (intros [H|(hd & Hin & Hwi)]; [left; exact H|right; exists hd]);
        (split; [apply Hhe, Hin|exact Hwi]).
  - destruct D1 as (HL1 & _). destruct D2 as (HL2 & _). congruence.
  - destruct D1 as (HL1 & _). destruct D2 as (HL2 & _). congruence.
  - destruct D1 as (_ & Hrt1 & Hds1 & Hc1). destruct D2 as (_ & Hrt2 & Hds2 & Hc2).
    split; [|exact I]. split; [|congruence].
    apply arrays_ext; [assumption..| |].
    + intros q. rewrite Hc1, Hc2, Hd.
      destruct (decide (q ∈ sp1)) as [H3|H3], (decide (q ∈ sp2)) as [H4|H4];
        try reflexivity; try (exfalso; apply Hsp in H3; contradiction);
        try (exfalso; apply Hsp in H4; contradiction).
    + intros a b.
      rewrite (doors_same_door _ _ a b Hds1), (doors_same_door _ _ a b Hds2), Hd.
      reflexivity.
Qed.

Variables (iter1 iter2 : pyset -> list _point).
Hypothesis Hiter1 : set_iter_ok iter1.
Hypothesis Hiter2 : set_iter_ok iter2.
Variables (fuel0 : nat) (chance : Q) (c : Z).
Hypothesis Hc : 0 <= c.

Lemma grow_twin : forall fuel sp1 sp2 s1 s2,
  twin s1 s2 -> wf w h (data s1) ->
  (forall p, p ∈ sp1 <-> p ∈ sp2) -> Forall (inb w h) sp1 ->
  fst (grow iter1 fuel0 w h (_PointChecker w h) chance c fuel sp1 s1) =
  fst (grow iter2 fuel0 w h (_PointChecker w h) chance c fuel sp2 s2) /\
  twin (snd (grow iter1 fuel0 w h (_PointChecker w h) chance c fuel sp1 s1))
       (snd (grow iter2 fuel0 w h (_PointChecker w h) chance c fuel sp2 s2)).
Proof.
  induction fuel as [|fuel IH]; intros sp1 sp2 s1 s2 Htw Hwf1 Hsp Hin1.
  - simpl. split; [reflexivity|exact Htw].
  - assert (Hwf2 : wf w h (data s2)) by (rewrite <- (proj1 Htw); exact Hwf1).
    assert (Hin2 : Forall (inb w h) sp2).
    { apply Forall_forall. intros p Hp. apply (proj1 (Forall_forall _ _) Hin1), Hsp, Hp. }
    set (u1 := Build_World (data s1) (rng s1) (EvWave :: trace s1)).
    set (u2 := Build_World (data s2) (rng s2) (EvWave :: trace s2)).
    assert (Htu : twin u1 u2) by exact Htw.
    destruct (sat_total w h u1 _ _
                (wave_desc_sat never iter1 u1 sp1 c Hiter1 Hc Hin1) Hwf1)
      as (n1 & t1 & Hrun1 & [Hwt1 _] & D1).
    destruct (sat_total w h u2 _ _
                (wave_desc_sat never iter2 u2 sp2 c Hiter2 Hc Hin2) Hwf2)
      as (n2 & t2 & Hrun2 & [Hwt2 _] & D2).
    destruct (wave_agree _ _ _ _ _ _ _ _ _ _ _ Hiter1 Hiter2 Htu Hsp Hwt1 Hwt2 D1 D2)
      as [Htt Hnext].
    assert (E1 : grow iter1 fuel0 w h (_PointChecker w h) chance c (S fuel) sp1 s1 =
                 match n1 with
                 | None => _finish fuel0 w h (_PointChecker w h) chance t1
                 | Some heads =>
                     grow iter1 fuel0 w h (_PointChecker w h) chance c fuel heads t1
                 end).
    { simpl. unfold bind at 1. unfold emit. fold u1. rewrite (bind_ok _ _ _ _ _ Hrun1).
      destruct n1; reflexivity. }
    assert (E2 : grow iter2 fuel0 w h (_PointChecker w h) chance c (S fuel) sp2 s2 =
                 match n2 with
                 | None => _finish fuel0 w h (_PointChecker w h) chance t2
                 | Some heads =>
                     grow iter2 fuel0 w h (_PointChecker w h) chance c fuel heads t2
                 end).
    { simpl. unfold bind at 1. unfold emit. fold u2. rewrite (bind_ok _ _ _ _ _ Hrun2).
      destruct n2; reflexivity. }
    rewrite E1, E2.
    destruct n1 as [h1|], n2 as [h2|]; try contradiction.
    + apply IH; [exact Htt|exact Hwt1|exact Hnext|].
      destruct D1 as (vac & u & _ & _ & _ & _ & Hheads & _). exact Hheads.
    + apply blind_finish, Htt.
Qed.

End Twins.

(** Whatever the order in which the two runs iterate over their sets, the
    same tape gives the same outcome and leaves the same tape. *)
Lemma generate_twin iter1 iter2 fuel w h px py chance c tape :
  set_iter_ok iter1 -> set_iter_ok iter2 ->
  run_outcome (generate iter1 fuel w h px py chance c tape) =
  run_outcome (generate iter2 fuel w h px py chance c tape) /\
  run_tape (generate iter1 fuel w h px py chance c tape) =
  run_tape (generate iter2 fuel w h px py chance c tape).
Proof.
  intros H1 H2.
  destruct (first_violation w h px py chance c) as [msg|] eqn:E.
  { rewrite !(generate_invalid _ _ _ _ _ _ _ _ _ _ E). split; reflexivity. }
  apply first_violation_None in E. pose proof E as (Hw & Hh & Hx & Hy & _ & _ & Hc).
  rewrite !(generate_valid _ _ _ _ _ _ _ _ _ E).
  set (d0 := Build_Arrays _ _ _). set (s0 := Build_World d0 tape []).
  assert (Hwf0 : wf w h d0) by (repeat split; apply np_full_wf || reflexivity).
  assert (Hepi : inb w h (px, py)) by (split; assumption).
  destruct (sat_total w h s0 _ _ (cells_set_sat w h never s0 (px, py) _SPAWNER Hepi) Hwf0)
    as ([] & s1 & Hrun & [Hwf1 _] & _).
  rewrite !(bind_ok _ _ _ _ _ Hrun).
  destruct (grow_twin w h iter1 iter2 H1 H2 fuel chance c Hc fuel
              [(px, py)] [(px, py)] s1 s1 (twin_refl s1) Hwf1)
    as [Ho [_ Hr]]; [tauto|constructor; [exact Hepi|constructor]|].
  destruct (grow iter1 _ _ _ _ _ _ _ _ s1) as [o1 t1].
  destruct (grow iter2 _ _ _ _ _ _ _ _ s1) as [o2 t2].
  simpl in Ho, Hr. unfold run_outcome, run_tape. simpl. split; assumption.
Qed.

(** * The claims *)

(** C1. [generate(1, 1, 0, 0)] does not return: the only cell has no
    neighbour, so no first door is found and [dirs.remove(first)] raises
    [ValueError]; the tape is untouched and nothing but the one cell was
    indexed. *)
Theorem generate_1x1_raises set_iter fuel tape :
  generate set_iter (S fuel) 1 1 0 0 default_chance default_c tape
  = (Raise remove_error, tape,
     [EvIndex ACells (0, 0); EvIndex ACells (0, 0); EvWave; EvIndex ACells (0, 0)]).
Proof. reflexivity. Qed.

(** C2. A validated input can still end in an error: with [c = 0] no head
    is ever chosen, the epicentre stays the only body cell and
    [dirs.remove(first)] raises [ValueError]; the same happens on the one
    by one grid. *)
Theorem generate_c0_raises set_iter fuel tape :
  valid_input 3 3 1 1 default_chance 0 /\
  run_outcome (generate set_iter (S (S fuel)) 3 3 1 1 default_chance 0 tape)
  = Raise remove_error /\
  valid_input 1 1 0 0 default_chance default_c /\
  run_outcome (generate set_iter (S fuel) 1 1 0 0 default_chance default_c tape)
  = Raise remove_error.
Proof.
  split; [unfold valid_input, default_chance, Qlt; simpl; lia|].
  split; [vm_compute; reflexivity|].
  split; [unfold valid_input, default_chance, default_c, Qlt; simpl; lia|].
  reflexivity.
Qed.

(** C3, as stated, fails: after a big room is placed its four cells are no
    longer occupied, yet the doors that lead into the room stay open. *)
Lemma door_symmetry_counterexample :
  exists L,
    run_outcome (generate insertion_order 6 3 2 2 0 default_chance 1 tape_3x2) = Ok L /\
    ~ door_symmetry L.
Proof.
  exists layout_3x2. split; [apply run_3x2|].
  intros H. destruct (H (1, 0) (2, 0) eq_refl) as [H1 _]. discriminate H1.
Qed.

(** C3, amended. In every layout that [generate] returns, an open door
    separates two cells each of which is occupied or was merged into a big
    room. *)
Theorem open_doors_join_covered_cells set_iter fuel w h px py chance c tape L :
  set_iter_ok set_iter ->
  run_outcome (generate set_iter fuel w h px py chance c tape) = Ok L ->
  door_symmetry_merged L.
Proof. intros Hsi H. apply (generate_good _ _ _ _ _ _ _ _ _ _ Hsi H). Qed.

Lemma open_doors_join_covered_cells_witness :
  set_iter_ok insertion_order /\
  run_outcome (generate insertion_order 6 3 2 2 0 default_chance 1 tape_3x2)
  = Ok layout_3x2 /\
  door_symmetry_merged layout_3x2.
Proof.
  assert (Hsi : set_iter_ok insertion_order) by (intros s; reflexivity).
  assert (Hrun : run_outcome (generate insertion_order 6 3 2 2 0 default_chance 1 tape_3x2)
                 = Ok layout_3x2) by (vm_compute; reflexivity).
  split; [exact Hsi|]. split; [exact Hrun|].
  exact (open_doors_join_covered_cells insertion_order 6 3 2 2 0 default_chance 1
           tape_3x2 layout_3x2 Hsi Hrun).
Defined.

(** C4, as stated, fails: a big room placed in the middle of a four by two
    grid leaves two occupied columns with no path between them, and in the
    three by two run the one occupied cell that is left has no occupied
    neighbour. *)
Lemma connectivity_counterexample :
  (exists L,
     run_outcome (generate insertion_order 8 4 2 1 0 default_chance default_c tape_4x2)
     = Ok L /\ 1 < 4 * 2 /\ ~ (connected L /\ no_isolated L)) /\
  (exists L,
     run_outcome (generate insertion_order 6 3 2 2 0 default_chance 1 tape_3x2)
     = Ok L /\ 1 < 3 * 2 /\ ~ (connected L /\ no_isolated L)).
Proof.
  split.
  - exists layout_4x2. split; [apply run_4x2|]. split; [lia|].
    intros [H _]. exact (not_connected_4x2 H).
  - exists layout_3x2. split; [apply run_3x2|]. split; [lia|].
    intros [_ H]. exact (isolated_3x2 H).
Qed.

(** C4, amended. In every layout that [generate] returns, the cells that
    are occupied or were merged into a big room form one connected
    component when two cells are adjacent if the door between them is open
    or if they lie in the same big room, and none of these cells is left
    without such a neighbour. *)
Theorem covered_cells_connected set_iter fuel w h px py chance c tape L :
  set_iter_ok set_iter ->
  run_outcome (generate set_iter fuel w h px py chance c tape) = Ok L ->
  connected_merged L /\ no_isolated_merged L.
Proof.
  intros Hsi H. destruct (generate_good _ _ _ _ _ _ _ _ _ _ Hsi H) as (_ & ? & ? & _).
  auto.
Qed.

Lemma covered_cells_connected_witness :
  set_iter_ok insertion_order /\
  run_outcome (generate insertion_order 8 4 2 1 0 default_chance default_c tape_4x2)
  = Ok layout_4x2 /\
  connected_merged layout_4x2 /\ no_isolated_merged layout_4x2.
Proof.
  assert (Hsi : set_iter_ok insertion_order) by (intros s; reflexivity).
  assert (Hrun : run_outcome
                   (generate insertion_order 8 4 2 1 0 default_chance default_c tape_4x2)
                 = Ok layout_4x2) by (vm_compute; reflexivity).
  split; [exact Hsi|]. split; [exact Hrun|].
  exact (covered_cells_connected insertion_order 8 4 2 1 0 default_chance default_c
           tape_4x2 layout_4x2 Hsi Hrun).
Defined.

(** C5, as stated, fails: the chests are listed before the big rooms are
    placed, and the only neighbour of a chest may be merged into a big
    room, which leaves the chest with no occupied neighbour. *)
Lemma chest_leaf_counterexample :
  exists L,
    run_outcome (generate insertion_order 6 3 2 2 0 default_chance 1 tape_3x2) = Ok L /\
    ~ chest_leaf L.
Proof.
  exists layout_3x2. split; [apply run_3x2|].
  intros H. specialize (H (2, 0) (list_elem_of_here _ _)). discriminate H.
Qed.

(** C5, amended. In every layout that [generate] returns, every chest is
    an occupied cell with exactly one structural neighbour that is
    occupied or was merged into a big room. *)
Theorem chests_are_leaves set_iter fuel w h px py chance c tape L :
  set_iter_ok set_iter ->
  run_outcome (generate set_iter fuel w h px py chance c tape) = Ok L ->
  chest_leaf_merged L.
Proof.
  intros Hsi H. destruct (generate_good _ _ _ _ _ _ _ _ _ _ Hsi H) as (_ & _ & _ & ? & _).
  assumption.
Qed.

Lemma chests_are_leaves_witness :
  set_iter_ok insertion_order /\
  run_outcome (generate insertion_order 6 3 2 2 0 default_chance 1 tape_3x2)
  = Ok layout_3x2 /\
  chest_leaf_merged layout_3x2.
Proof.
  assert (Hsi : set_iter_ok insertion_order) by (intros s; reflexivity).
  assert (Hrun : run_outcome (generate insertion_order 6 3 2 2 0 default_chance 1 tape_3x2)
                 = Ok layout_3x2) by (vm_compute; reflexivity).
  split; [exact Hsi|]. split; [exact Hrun|].
  exact (chests_are_leaves insertion_order 6 3 2 2 0 default_chance 1
           tape_3x2 layout_3x2 Hsi Hrun).
Defined.

(** C6. Every input that breaks a precondition is rejected with a
    [ValueError] that names the first broken precondition, before anything
    is drawn from the random generator or written to an array; so are the
    four calls that the specification lists. *)
Theorem invalid_input_rejected :
  (forall set_iter fuel w h px py chance c tape,
     ~ valid_input w h px py chance c ->
     exists msg,
       first_violation w h px py chance c = Some msg /\
       generate set_iter fuel w h px py chance c tape
       = (Raise (ValueError msg), tape, [])) /\
  (forall set_iter fuel tape,
     generate set_iter fuel 0 5 0 0 default_chance default_c tape
     = (Raise (ValueError "w must be positive"), tape, []) /\
     generate set_iter fuel 5 5 5 0 default_chance default_c tape
     = (Raise (ValueError "0 <= px < w must be True"), tape, []) /\
     generate set_iter fuel 5 5 0 0 1 default_c tape
     = (Raise (ValueError "0.0 < chance < 1.0 must be True"), tape, []) /\
     generate set_iter fuel 5 5 0 0 default_chance (-1) tape
     = (Raise (ValueError "c can not be negative"), tape, [])).
Proof.
  split.
  - intros set_iter fuel w h px py chance c tape Hn.
    destruct (first_violation w h px py chance c) as [msg|] eqn:E.
    + exists msg. split; [reflexivity|]. apply generate_invalid, E.
    + apply first_violation_None in E. contradiction.
  - intros set_iter fuel tape. repeat split; reflexivity.
Qed.

Lemma invalid_input_rejected_witness :
  ~ valid_input 5 0 2 0 default_chance default_c /\
  exists msg,
    first_violation 5 0 2 0 default_chance default_c = Some msg /\
    generate insertion_order 4 5 0 2 0 default_chance default_c [7; 7]
    = (Raise (ValueError msg), [7; 7], []).
Proof.
  assert (Hn : ~ valid_input 5 0 2 0 default_chance default_c).
  { unfold valid_input. lia. }
  split; [exact Hn|].
  exact (proj1 invalid_input_rejected insertion_order 4%nat 5 0 2 0
           default_chance default_c [7; 7] Hn).
Defined.

(** C7. In every layout that [generate] returns, two distinct true entries
    of the big-cell mask are more than one apart in both the larger of
    their coordinate differences, and the two blocks share no cell. *)
Theorem big_rooms_disjoint set_iter fuel w h px py chance c tape L :
  set_iter_ok set_iter ->
  run_outcome (generate set_iter fuel w h px py chance c tape) = Ok L ->
  big_disjoint L.
Proof.
  intros Hsi H. destruct (generate_good _ _ _ _ _ _ _ _ _ _ Hsi H) as (_ & _ & _ & _ & ?).
  assumption.
Qed.

Lemma big_rooms_disjoint_witness :
  set_iter_ok insertion_order /\
  run_outcome (generate insertion_order 10 5 2 2 0 default_chance 10 tape_5x2)
  = Ok layout_5x2 /\
  big_at layout_5x2 (0, 0) = true /\
  big_at layout_5x2 (2, 0) = true /\
  (0, 0) <> (2, 0) /\
  big_disjoint layout_5x2 /\
  1 < _max_point_difference (0, 0) (2, 0) /\
  (forall p, p ∈ block (0, 0) -> p ∉ block (2, 0)).
Proof.
  assert (Hsi : set_iter_ok insertion_order) by (intros s; reflexivity).
  assert (Hrun : run_outcome
                   (generate insertion_order 10 5 2 2 0 default_chance 10 tape_5x2)
                 = Ok layout_5x2) by (vm_compute; reflexivity).
  assert (Ha : big_at layout_5x2 (0, 0) = true) by reflexivity.
  assert (Hb : big_at layout_5x2 (2, 0) = true) by reflexivity.
  assert (Hab : (0, 0) <> ((2, 0) : _point)) by discriminate.
  assert (Hd : big_disjoint layout_5x2)
    by exact (big_rooms_disjoint insertion_order 10 5 2 2 0 default_chance 10
                tape_5x2 layout_5x2 Hsi Hrun).
  split; [exact Hsi|]. split; [exact Hrun|]. split; [exact Ha|].
  split; [exact Hb|]. split; [exact Hab|]. split; [exact Hd|].
  exact (Hd (0, 0) (2, 0) Ha Hb Hab).
Defined.

(** C9. On a valid input with [c >= 1] the loop of waves starts at most
    [w * h] times, and with that much fuel (and at least three units for
    the short loops of the post-passes) the run does not run out of it. *)
Theorem waves_bounded set_iter fuel w h px py chance c tape :
  set_iter_ok set_iter -> valid_input w h px py chance c -> 1 <= c ->
  let r := generate set_iter fuel w h px py chance c tape in
  Z.of_nat (waves (run_trace r)) <= w * h /\
  (Z.max (w * h) 3 <= Z.of_nat fuel -> run_outcome r <> Diverge).
Proof.
  intros Hsi Hv Hc. apply (generate_run set_iter fuel w h px py chance c tape Hsi Hv), Hc.
Qed.

Lemma waves_bounded_witness :
  set_iter_ok insertion_order /\ valid_input 3 2 2 0 default_chance 1 /\ 1 <= 1 /\
  Z.of_nat (waves (run_trace
     (generate insertion_order 6 3 2 2 0 default_chance 1 tape_3x2))) <= 3 * 2 /\
  (Z.max (3 * 2) 3 <= Z.of_nat 6 ->
   run_outcome (generate insertion_order 6 3 2 2 0 default_chance 1 tape_3x2) <> Diverge).
Proof.
  assert (Hsi : set_iter_ok insertion_order) by (intros s; reflexivity).
  assert (Hv : valid_input 3 2 2 0 default_chance 1).
  { unfold valid_input, default_chance, Qlt. simpl. lia. }
  assert (Hc : 1 <= 1) by lia.
  split; [exact Hsi|]. split; [exact Hv|]. split; [exact Hc|].
  exact (waves_bounded insertion_order 6 3 2 2 0 default_chance 1 tape_3x2 Hsi Hv Hc).
Defined.

(** C10. In every run, whatever its outcome, each call of [_get_door] or
    [_set_door] passes a point of the grid and a direction that the
    neighbour enumeration gives for that point, and every index used on
    the cell array and on the two door arrays lies within the bounds of
    its array; no index is negative. *)
Theorem door_calls_in_bounds set_iter fuel w h px py chance c tape :
  set_iter_ok set_iter ->
  Forall (event_ok w h) (run_trace (generate set_iter fuel w h px py chance c tape)).
Proof.
  intros Hsi.
  destruct (first_violation w h px py chance c) as [msg|] eqn:E.
  - rewrite (generate_invalid _ _ _ _ _ _ _ _ _ _ E). constructor.
  - apply first_violation_None in E.
    apply (generate_run set_iter fuel w h px py chance c tape Hsi E).
Qed.

Lemma door_calls_in_bounds_witness :
  set_iter_ok insertion_order /\
  Forall (event_ok 3 2)
    (run_trace (generate insertion_order 6 3 2 2 0 default_chance 1 tape_3x2)).
Proof.
  assert (Hsi : set_iter_ok insertion_order) by (intros s; reflexivity).
  split; [exact Hsi|].
  exact (door_calls_in_bounds insertion_order 6 3 2 2 0 default_chance 1 tape_3x2 Hsi).
Defined.

(** C8. Two invocations of [generate] with the same parameters and the
    same state of the random generator end the same way: both return the
    same four arrays and the same chest list, or both raise the same
    error, and both leave the random generator in the same state.  This
    holds whatever the order in which each invocation iterates over its
    sets of points. *)
Theorem generate_deterministic iter1 iter2 fuel w h px py chance c tape1 tape2 :
  set_iter_ok iter1 -> set_iter_ok iter2 -> tape1 = tape2 ->
  run_outcome (generate iter1 fuel w h px py chance c tape1)
  = run_outcome (generate iter2 fuel w h px py chance c tape2) /\
  run_tape (generate iter1 fuel w h px py chance c tape1)
  = run_tape (generate iter2 fuel w h px py chance c tape2).
Proof. intros H1 H2 ->. apply generate_twin; assumption. Qed.

Lemma generate_deterministic_witness :
  set_iter_ok insertion_order /\ set_iter_ok reversed_order /\ tape_4x2 = [1] /\
  run_outcome (generate insertion_order 8 4 2 1 0 default_chance default_c tape_4x2)
  = run_outcome (generate reversed_order 8 4 2 1 0 default_chance default_c [1]) /\
  run_tape (generate insertion_order 8 4 2 1 0 default_chance default_c tape_4x2)
  = run_tape (generate reversed_order 8 4 2 1 0 default_chance default_c [1]).
Proof.
  assert (H1 : set_iter_ok insertion_order) by (intros s; reflexivity).
  assert (H2 : set_iter_ok reversed_order) by (intros s; apply reverse_Permutation).
  assert (H : tape_4x2 = [1]) by reflexivity.
  split; [exact H1|]. split; [exact H2|]. split; [exact H|].
  exact (generate_deterministic insertion_order reversed_order 8 4 2 1 0
           default_chance default_c tape_4x2 [1] H1 H2 H).
Defined.

(** * Further properties of the functions of [rooms.py] *)

(** ** The three neighbour enumerations *)

(** The three enumerations list the same neighbours in the same order:
    [_get_nbr_points] gives the points and [_get_nbr_dirs] the directions
    of the pairs of [_get_nbr_points_n_dirs], whatever the filter. *)
Theorem nbr_lists_agree point filter_ :
  _get_nbr_points point filter_ = List.map fst (_get_nbr_points_n_dirs point filter_) /\
  _get_nbr_dirs point filter_ = List.map snd (_get_nbr_points_n_dirs point filter_) /\
  _get_nbr_points_n_dirs point filter_ =
    zip (_get_nbr_points point filter_) (_get_nbr_dirs point filter_).
Proof.
  destruct point as [x y].
  unfold _get_nbr_points, _get_nbr_dirs, _get_nbr_points_n_dirs. simpl.
  destruct (filter_ (x - 1, y)), (filter_ (x + 1, y)),
    (filter_ (x, y - 1)), (filter_ (x, y + 1)); repeat split; reflexivity.
Qed.

Lemma difference_abs x y : _difference x y = Z.abs (x - y).
Proof. unfold _difference. destruct (Z.ltb_spec x y); lia. Qed.

(** With the bounds check of the generator as the filter, the neighbours
    of a point are exactly the points of the grid at distance one from it,
    each listed once. *)
Theorem nbr_points_in_grid w h p q :
  (q ∈ _get_nbr_points p (_PointChecker w h) <->
   _PointChecker w h q = true /\
   _difference (fst p) (fst q) + _difference (snd p) (snd q) = 1) /\
  NoDup (_get_nbr_points p (_PointChecker w h)).
Proof.
  split.
  - rewrite points_spec, checker_inb, !difference_abs.
    destruct p as [x y], q as [x' y']. unfold nbrs.
    rewrite !elem_of_cons, elem_of_nil. simpl. split.
    + intros [[H|[H|[H|[H|[]]]]] Hin]; injection H as -> ->; (split; [exact Hin|lia]).
    + intros [Hin Hd]. split; [|exact Hin].
      assert (Hc : (x' = x - 1 /\ y' = y) \/ (x' = x + 1 /\ y' = y) \/
                   (x' = x /\ y' = y - 1) \/ (x' = x /\ y' = y + 1)) by lia.
      destruct Hc as [[-> ->]|[[-> ->]|[[-> ->]|[-> ->]]]]; auto 10.
  - destruct p as [x y]. unfold _get_nbr_points. apply NoDup_ListNoDup, List.NoDup_filter.
    apply NoDup_ListNoDup. repeat constructor;
      rewrite ?elem_of_cons, ?elem_of_nil; intros H;
      repeat (destruct H as [H|H]; [injection H; lia|]); exact H.
Qed.

(** The neighbour relation is symmetric on the grid. *)
Theorem nbr_points_symmetric w h p q :
  _PointChecker w h p = true ->
  q ∈ _get_nbr_points p (_PointChecker w h) ->
  p ∈ _get_nbr_points q (_PointChecker w h).
Proof.
  rewrite !points_spec, checker_inb. intros Hp [Hq Hin].
  split; [apply nbrs_sym, Hq|exact Hp].
Qed.

Lemma nbr_points_symmetric_witness :
  _PointChecker 3 2 (0, 0) = true /\
  (1, 0) ∈ _get_nbr_points (0, 0) (_PointChecker 3 2) /\
  (0, 0) ∈ _get_nbr_points (1, 0) (_PointChecker 3 2).
Proof.
  assert (H1 : _PointChecker 3 2 (0, 0) = true) by reflexivity.
  assert (H2 : (1, 0) ∈ _get_nbr_points (0, 0) (_PointChecker 3 2))
    by (vm_compute; apply list_elem_of_here).
  split; [exact H1|]. split; [exact H2|].
  exact (nbr_points_symmetric 3 2 (0, 0) (1, 0) H1 H2).
Defined.

(** A point of the grid has no neighbour at all exactly on the one by one
    grid. *)
Theorem no_neighbour_iff_single_cell w h p :
  _PointChecker w h p = true ->
  (_get_nbr_points p (_PointChecker w h) = [] <-> w = 1 /\ h = 1).
Proof.
  intros Hp. apply checker_inb in Hp. destruct p as [x y].
  unfold inb in Hp. simpl in Hp. split.
  - intros Hnil.
    assert (Hno : forall q, q ∈ nbrs (x, y) -> ~ inb w h q).
    { intros q Hq Hin.
      assert (H : q ∈ _get_nbr_points (x, y) (_PointChecker w h))
        by (apply points_spec; auto).
      rewrite Hnil in H. apply elem_of_nil in H as []. }
    unfold nbrs in Hno.
    pose proof (Hno (x - 1, y) ltac:(rewrite !elem_of_cons; auto)) as H1.
    pose proof (Hno (x + 1, y) ltac:(rewrite !elem_of_cons; auto)) as H2.
    pose proof (Hno (x, y - 1) ltac:(rewrite !elem_of_cons; auto)) as H3.
    pose proof (Hno (x, y + 1) ltac:(rewrite !elem_of_cons; auto 10)) as H4.
    unfold inb in H1, H2, H3, H4. simpl in *. lia.
  - intros [-> ->]. assert (x = 0) as -> by lia. assert (y = 0) as -> by lia.
    reflexivity.
Qed.

Lemma no_neighbour_iff_single_cell_witness :
  _PointChecker 1 1 (0, 0) = true /\
  (_get_nbr_points (0, 0) (_PointChecker 1 1) = [] <-> 1 = 1 /\ 1 = 1).
Proof.
  assert (H : _PointChecker 1 1 (0, 0) = true) by reflexivity.
  split; [exact H|]. exact (no_neighbour_iff_single_cell 1 1 (0, 0) H).
Defined.

(** ** Distances between big cells *)

(** [_difference] is the absolute difference, and [_max_point_difference]
    is a metric on points: symmetric, zero exactly on equal points, and
    it satisfies the triangle inequality. *)
Theorem max_point_difference_metric a b c :
  _difference (fst a) (fst b) = Z.abs (fst a - fst b) /\
  _max_point_difference a b = _max_point_difference b a /\
  (_max_point_difference a b = 0 <-> a = b) /\
  _max_point_difference a c <= _max_point_difference a b + _max_point_difference b c.
Proof.
  destruct a as [a1 a2], b as [b1 b2], c as [c1 c2].
  unfold _max_point_difference. rewrite !difference_abs. simpl.
  split; [reflexivity|]. split; [lia|]. split; [|lia].
  split; [intros H; f_equal; lia|intros [= -> ->]; lia].
Qed.

(** Two two-by-two blocks share a cell exactly when their corners are at
    most one apart: the candidates that [_finish] drops after placing a
    big cell are the ones that overlap it. *)
Theorem blocks_overlap_iff_close a b :
  (exists q, q ∈ block a /\ q ∈ block b) <-> _max_point_difference a b <= 1.
Proof.
  destruct a as [x y], b as [x' y'].
  unfold _max_point_difference. rewrite !difference_abs. cbn [fst snd]. split.
  - intros ([u v] & Ha & Hb). apply block_coords in Ha, Hb. cbn [fst snd] in *. lia.
  - intros H. exists (Z.max x x', Z.max y y'). rewrite !block_coords. cbn [fst snd]. lia.
Qed.

(** ** The door ledger at and inside the bounds *)

Lemma opposite_is_dir dir : is_dir dir -> is_dir (opposite dir).
Proof.
  unfold is_dir, opposite, _LEFT, _RIGHT, _UP, _DOWN.
  intros H.
  assert (dir = 0 \/ dir = 1 \/ dir = 2 \/ dir = 3) as [-> | [-> | [-> | ->]]] by lia;
    simpl; lia.
Qed.

Lemma nbr_opposite p dir : is_dir dir -> nbr (nbr p dir) (opposite dir) = p.
Proof.
  destruct p as [x y]. unfold is_dir, opposite, nbr, _LEFT, _RIGHT, _UP, _DOWN.
  intros H.
  assert (dir = 0 \/ dir = 1 \/ dir = 2 \/ dir = 3) as [-> | [-> | [-> | ->]]] by lia;
    simpl; f_equal; lia.
Qed.

(** A door that [_set_door] has set is read back by [_get_door] from both
    of its sides: from the same cell in the same direction, and from the
    neighbour in the opposite direction. *)
Theorem set_door_get_door w h s p dir v :
  wf w h (data s) -> _PointChecker w h p = true ->
  dir ∈ _get_nbr_dirs p (_PointChecker w h) ->
  exists s1,
    _set_door p dir v s = (Ok tt, s1) /\
    fst (_get_door p dir s1) = Ok (Some v) /\
    fst (_get_door (nbr p dir) (opposite dir) s1) = Ok (Some v).
Proof.
  intros Hwf Hp Hdir. apply checker_inb in Hp. apply dirs_spec in Hdir as [Hd Hn].
  destruct (sat_total w h s _ _ (_set_door_sat w h never s p dir v Hp Hd Hn) Hwf)
    as ([] & s1 & Hrun & [Hwf1 _] & (_ & _ & Hdoor)).
  exists s1. split; [exact Hrun|].
  destruct (sat_total w h s1 _ _ (_get_door_sat w h never s1 p dir Hp Hd Hn) Hwf1)
    as (r & s2 & Hrun2 & _ & (-> & _)).
  assert (Hback : inb w h (nbr (nbr p dir) (opposite dir)))
    by (rewrite nbr_opposite by exact Hd; exact Hp).
  destruct (sat_total w h s1 _ _
              (_get_door_sat w h never s1 (nbr p dir) (opposite dir) Hn
                 (opposite_is_dir dir Hd) Hback) Hwf1)
    as (r & s3 & Hrun3 & _ & (-> & _)).
  rewrite Hrun2, Hrun3. simpl. rewrite nbr_opposite by exact Hd.
  rewrite (door_sym (data s1) (nbr p dir) p), Hdoor.
  rewrite decide_True by (left; split; reflexivity). split; reflexivity.
Qed.

Lemma set_door_get_door_witness :
  let s := Build_World (Build_Arrays (np_full (2, 1) _EMPTY) (np_full (1, 1) false)
                          (np_full (2, 0) false)) [] [] in
  wf 2 1 (data s) /\ _PointChecker 2 1 (0, 0) = true /\
  _RIGHT ∈ _get_nbr_dirs (0, 0) (_PointChecker 2 1) /\
  exists s1,
    _set_door (0, 0) _RIGHT true s = (Ok tt, s1) /\
    fst (_get_door (0, 0) _RIGHT s1) = Ok (Some true) /\
    fst (_get_door (nbr (0, 0) _RIGHT) (opposite _RIGHT) s1) = Ok (Some true).
Proof.
  intros s.
  assert (H1 : wf 2 1 (data s)) by (repeat split; repeat constructor).
  assert (H2 : _PointChecker 2 1 (0, 0) = true) by reflexivity.
  assert (H3 : _RIGHT ∈ _get_nbr_dirs (0, 0) (_PointChecker 2 1))
    by (vm_compute; apply list_elem_of_here).
  split; [exact H1|]. split; [exact H2|]. split; [exact H3|].
  exact (set_door_get_door 2 1 s (0, 0) _RIGHT true H1 H2 H3).
Defined.

(** [_set_door] changes the one door it names and nothing else: the cells
    and the random generator are untouched and every other door keeps its
    state. *)
Theorem set_door_changes_one_door w h s p dir v :
  wf w h (data s) -> _PointChecker w h p = true ->
  dir ∈ _get_nbr_dirs p (_PointChecker w h) ->
  exists s1,
    _set_door p dir v s = (Ok tt, s1) /\
    wf w h (data s1) /\ rng s1 = rng s /\ cells (data s1) = cells (data s) /\
    forall a b, door (data s1) a b =
      if decide (edge_is a b p (nbr p dir)) then v else door (data s) a b.
Proof.
  intros Hwf Hp Hdir. apply checker_inb in Hp. apply dirs_spec in Hdir as [Hd Hn].
  destruct (sat_total w h s _ _ (_set_door_sat w h never s p dir v Hp Hd Hn) Hwf)
    as ([] & s1 & Hrun & [Hwf1 _] & (Hr & Hc & Hdoor)).
  exists s1. auto.
Qed.

Lemma set_door_changes_one_door_witness :
  let s := Build_World (Build_Arrays (np_full (2, 2) _EMPTY) (np_full (1, 2) false)
                          (np_full (2, 1) false)) [3] [] in
  wf 2 2 (data s) /\ _PointChecker 2 2 (1, 1) = true /\
  _UP ∈ _get_nbr_dirs (1, 1) (_PointChecker 2 2) /\
  exists s1,
    _set_door (1, 1) _UP true s = (Ok tt, s1) /\
    wf 2 2 (data s1) /\ rng s1 = rng s /\ cells (data s1) = cells (data s) /\
    forall a b, door (data s1) a b =
      if decide (edge_is a b (1, 1) (nbr (1, 1) _UP)) then true else door (data s) a b.
Proof.
  intros s.
  assert (H1 : wf 2 2 (data s)) by (repeat split; repeat constructor).
  assert (H2 : _PointChecker 2 2 (1, 1) = true) by reflexivity.
  assert (H3 : _UP ∈ _get_nbr_dirs (1, 1) (_PointChecker 2 2))
    by (apply list_elem_of_In; vm_compute; auto).
  split; [exact H1|]. split; [exact H2|]. split; [exact H3|].
  exact (set_door_changes_one_door 2 2 s (1, 1) _UP true H1 H2 H3).
Defined.

Lemma norm_index_last n : 1 <= n -> norm_index n (-1) = Some (Z.to_nat (n - 1)).
Proof.
  intros Hn. unfold norm_index. simpl.
  replace (- n <=? -1) with true by (symmetry; apply Z.leb_le; lia).
  simpl. do 2 f_equal. lia.
Qed.

Lemma norm_index_len n : 0 <= n -> norm_index n n = None.
Proof.
  intros Hn. unfold norm_index.
  replace (n <? n) with false by (symmetry; apply Z.ltb_ge; lia).
  replace (n <? 0) with false by (symmetry; apply Z.ltb_ge; lia).
  rewrite !andb_false_r. reflexivity.
Qed.

Lemma nd_get_flag d0 d1 (a : ndarray bool) x y :
  wf_nd d0 d1 a -> 0 <= x < d0 -> 0 <= y < d1 -> nd_get a (x, y) = Some (flag a (x, y)).
Proof.
  intros Hwf Hx Hy. destruct (nd_get_inb d0 d1 a x y Hwf Hx Hy) as [v Hv].
  unfold flag. simpl. rewrite Hv.
  replace (0 <=? x) with true by (symmetry; apply Z.leb_le; lia).
  replace (0 <=? y) with true by (symmetry; apply Z.leb_le; lia).
  destruct v; reflexivity.
Qed.

Lemma nd_get_wrap_row d0 d1 (a : ndarray bool) y :
  wf_nd d0 d1 a -> 1 <= d0 -> 0 <= y < d1 ->
  nd_get a (-1, y) = Some (flag a (d0 - 1, y)).
Proof.
  intros Hwf Hd Hy. rewrite <- (nd_get_flag d0 d1) by (try exact Hwf; lia).
  unfold nd_get. destruct Hwf as (Hs & _). rewrite Hs. cbn [fst snd].
  rewrite norm_index_last by exact Hd.
  rewrite (norm_index_nonneg d0 (d0 - 1)) by lia. rewrite decide_True by lia.
  reflexivity.
Qed.

Lemma nd_get_wrap_col d0 d1 (a : ndarray bool) x :
  wf_nd d0 d1 a -> 1 <= d1 -> 0 <= x < d0 ->
  nd_get a (x, -1) = Some (flag a (x, d1 - 1)).
Proof.
  intros Hwf Hd Hx. rewrite <- (nd_get_flag d0 d1) by (try exact Hwf; lia).
  unfold nd_get. destruct Hwf as (Hs & _). rewrite Hs. cbn [fst snd].
  rewrite norm_index_last by exact Hd.
  rewrite (norm_index_nonneg d1 (d1 - 1)) by lia. rewrite decide_True by lia.
  reflexivity.
Qed.

(** At the low edges the ledger does not fail: the index [-1] counts from
    the end, so asking a cell of the first column for its left door reads
    the door between the last two cells of that row, and asking a cell of
    the first row for its upper door reads the door between the last two
    cells of that column. *)
Theorem get_door_wraps_at_low_edge w h s x y :
  wf w h (data s) -> 2 <= w -> 2 <= h -> 0 <= x < w -> 0 <= y < h ->
  fst (_get_door (0, y) _LEFT s) = Ok (Some (door (data s) (w - 2, y) (w - 1, y))) /\
  fst (_get_door (x, 0) _UP s) = Ok (Some (door (data s) (x, h - 2) (x, h - 1))).
Proof.
  intros (_ & Hhor & Hver) Hw Hh Hx Hy.
  assert (E1 : flag (hor_doors (data s)) (w - 1 - 1, y)
               = door (data s) (w - 2, y) (w - 1, y)).
  { replace (w - 1 - 1) with (w - 2) by lia.
    replace (w - 1) with (w - 2 + 1) by lia. apply flag_hor_door. }
  assert (E2 : flag (ver_doors (data s)) (x, h - 1 - 1)
               = door (data s) (x, h - 2) (x, h - 1)).
  { replace (h - 1 - 1) with (h - 2) by lia.
    replace (h - 1) with (h - 2 + 1) by lia. apply flag_ver_door. }
  split.
  - unfold _get_door, hor_get, bind, emit, ret. simpl.
    rewrite (nd_get_wrap_row (w - 1) h) by (try exact Hhor; lia).
    rewrite E1. reflexivity.
  - unfold _get_door, ver_get, bind, emit, ret. simpl.
    rewrite (nd_get_wrap_col w (h - 1)) by (try exact Hver; lia).
    rewrite E2. reflexivity.
Qed.

Lemma get_door_wraps_at_low_edge_witness :
  let s := Build_World
             (Build_Arrays (np_full (3, 2) _EMPTY)
                (NdArray (2, 2) [[false; false]; [true; false]])
                (NdArray (3, 1) [[false]; [true]; [false]])) [] [] in
  wf 3 2 (data s) /\ 2 <= 3 /\ 2 <= 2 /\ 0 <= 1 < 3 /\ 0 <= 0 < 2 /\
  fst (_get_door (0, 0) _LEFT s) = Ok (Some (door (data s) (3 - 2, 0) (3 - 1, 0))) /\
  fst (_get_door (1, 0) _UP s) = Ok (Some (door (data s) (1, 2 - 2) (1, 2 - 1))).
Proof.
  intros s.
  assert (H1 : wf 3 2 (data s)) by (repeat split; repeat constructor).
  assert (H2 : 2 <= 3) by lia. assert (H3 : 2 <= 2) by lia.
  assert (H4 : 0 <= 1 < 3) by lia. assert (H5 : 0 <= 0 < 2) by lia.
  split; [exact H1|]. split; [exact H2|]. split; [exact H3|].
  split; [exact H4|]. split; [exact H5|].
  exact (get_door_wraps_at_low_edge 3 2 s 1 0 H1 H2 H3 H4 H5).
Defined.

Lemma nd_get_past_rows {A} d0 d1 (a : ndarray A) y :
  wf_nd d0 d1 a -> 0 <= d0 -> nd_get a (d0, y) = None.
Proof.
  intros (Hs & _) Hd. unfold nd_get. rewrite Hs. cbn [fst snd].
  rewrite norm_index_len by exact Hd. reflexivity.
Qed.

Lemma nd_get_past_cols {A} d0 d1 (a : ndarray A) x :
  wf_nd d0 d1 a -> 0 <= d1 -> nd_get a (x, d1) = None.
Proof.
  intros (Hs & _) Hd. unfold nd_get. rewrite Hs. cbn [fst snd].
  rewrite (norm_index_len d1) by exact Hd. destruct (norm_index d0 x); reflexivity.
Qed.

Lemma nd_set_past_rows {A} d0 d1 (a : ndarray A) y v :
  wf_nd d0 d1 a -> 0 <= d0 -> nd_set a (d0, y) v = None.
Proof.
  intros (Hs & _) Hd. unfold nd_set. rewrite Hs. cbn [fst snd].
  rewrite norm_index_len by exact Hd. reflexivity.
Qed.

(** At the high edges the ledger fails: for a cell of the last column the
    right door, and for a cell of the last row the lower door, is past the
    end of its array, and both reading and setting it raise [IndexError];
    a failed [_set_door] leaves the arrays as they were. *)
Theorem door_past_high_edge_raises w h s x y v :
  wf w h (data s) -> 0 < w -> 0 < h ->
  fst (_get_door (w - 1, y) _RIGHT s) = Raise index_error /\
  fst (_get_door (x, h - 1) _DOWN s) = Raise index_error /\
  fst (_set_door (w - 1, y) _RIGHT v s) = Raise index_error /\
  data (snd (_set_door (w - 1, y) _RIGHT v s)) = data s.
Proof.
  intros (_ & Hhor & Hver) Hw Hh.
  unfold _get_door, _set_door, hor_get, ver_get, hor_set, bind, emit, ret. simpl.
  rewrite (nd_get_past_rows (w - 1) h) by (try exact Hhor; lia).
  rewrite (nd_get_past_cols w (h - 1)) by (try exact Hver; lia).
  rewrite (nd_set_past_rows (w - 1) h) by (try exact Hhor; lia).
  repeat split; reflexivity.
Qed.

Lemma door_past_high_edge_raises_witness :
  let s := Build_World (Build_Arrays (np_full (2, 2) _EMPTY) (np_full (1, 2) false)
                          (np_full (2, 1) false)) [] [] in
  wf 2 2 (data s) /\ 0 < 2 /\ 0 < 2 /\
  fst (_get_door (2 - 1, 0) _RIGHT s) = Raise index_error /\
  fst (_get_door (0, 2 - 1) _DOWN s) = Raise index_error /\
  fst (_set_door (2 - 1, 0) _RIGHT true s) = Raise index_error /\
  data (snd (_set_door (2 - 1, 0) _RIGHT true s)) = data s.
Proof.
  intros s.
  assert (H1 : wf 2 2 (data s)) by (repeat split; repeat constructor).
  assert (H2 : 0 < 2) by lia.
  split; [exact H1|]. split; [exact H2|]. split; [exact H2|].
  exact (door_past_high_edge_raises 2 2 s 0 0 true H1 H2 H2).
Defined.

(** ** Wiring a head *)

(** [_wire] always succeeds on a point of the grid; it opens the doors
    between the head and its neighbours that are spawners, and changes no
    other door, no cell and not the random generator. *)
Theorem wire_opens_doors_to_spawners w h s p :
  wf w h (data s) -> _PointChecker w h p = true ->
  exists s1,
    _wire p (_PointChecker w h) s = (Ok tt, s1) /\
    wf w h (data s1) /\ rng s1 = rng s /\ cells (data s1) = cells (data s) /\
    forall a b, door (data s1) a b = true <->
      door (data s) a b = true \/
      exists q, edge_is a b p q /\ q ∈ nbrs p /\ cell (data s) q = _SPAWNER.
Proof.
  intros Hwf Hp. apply checker_inb in Hp.
  destruct (sat_total w h s _ _ (_wire_sat w h never s p Hp) Hwf)
    as ([] & s1 & Hrun & [Hwf1 _] & (Hr & Hc & Hdoor)).
  exists s1. auto.
Qed.

Lemma wire_opens_doors_to_spawners_witness :
  let s := Build_World
             (Build_Arrays (NdArray (2, 1) [[_SPAWNER]; [_EMPTY]]) (np_full (1, 1) false)
                (np_full (2, 0) false)) [] [] in
  wf 2 1 (data s) /\ _PointChecker 2 1 (1, 0) = true /\
  exists s1,
    _wire (1, 0) (_PointChecker 2 1) s = (Ok tt, s1) /\
    wf 2 1 (data s1) /\ rng s1 = rng s /\ cells (data s1) = cells (data s) /\
    forall a b, door (data s1) a b = true <->
      door (data s) a b = true \/
      exists q, edge_is a b (1, 0) q /\ q ∈ nbrs (1, 0) /\ cell (data s) q = _SPAWNER.
Proof.
  intros s.
  assert (H1 : wf 2 1 (data s)) by (repeat split; repeat constructor).
  assert (H2 : _PointChecker 2 1 (1, 0) = true) by reflexivity.
  split; [exact H1|]. split; [exact H2|].
  exact (wire_opens_doors_to_spawners 2 1 s (1, 0) H1 H2).
Defined.

(** ** Big cells *)

Lemma sat_conj {A} w h Al s (m : M A) (P Q : A -> World -> Prop) :
  sat w h Al s m P -> sat w h Al s m Q -> sat w h Al s m (fun a s' => P a s' /\ Q a s').
Proof.
  intros HP HQ Hwf. specialize (HP Hwf). specialize (HQ Hwf).
  destruct (m s) as [[a|e|] s']; [|exact HP..]. tauto.
Qed.

Lemma _place_big_cell_rng w h Al s k :
  corner_ok w h k -> sat w h Al s (_place_big_cell k) (fun _ s' => rng s' = rng s).
Proof.
  intros [Hx Hy]. destruct k as [x y]. simpl in Hx, Hy. unfold _place_big_cell.
  eapply sat_bind; [apply cells_set_sat; unfold inb; simpl; lia|].
  intros [] s1 _ (Hr1 & _).
  eapply sat_bind; [apply cells_set_sat; unfold inb; simpl; lia|].
  intros [] s2 _ (Hr2 & _).
  eapply sat_bind; [apply cells_set_sat; unfold inb; simpl; lia|].
  intros [] s3 _ (Hr3 & _).
  eapply sat_bind; [apply cells_set_sat; unfold inb; simpl; lia|].
  intros [] s4 _ (Hr4 & _).
  eapply sat_bind; [apply hor_set_sat; lia|].
  intros [] s5 _ (Hr5 & _).
  eapply sat_bind; [apply hor_set_sat; lia|].
  intros [] s6 _ (Hr6 & _).
  eapply sat_bind; [apply ver_set_sat; lia|].
  intros [] s7 _ (Hr7 & _).
  eapply sat_mono; [apply ver_set_sat; lia|].
  intros [] s8 _ (Hr8 & _). congruence.
Qed.

(** On a corner whose block lies in the grid, [_big_cell_filter] tells
    whether the four doors inside the block are all open; it changes
    neither the arrays nor the random generator. *)
Theorem big_cell_filter_reads_block w h s k :
  wf w h (data s) -> 0 <= fst k <= w - 2 -> 0 <= snd k <= h - 2 ->
  fst (_big_cell_filter k s) = Ok (block_open (data s) k) /\
  data (snd (_big_cell_filter k s)) = data s /\
  rng (snd (_big_cell_filter k s)) = rng s.
Proof.
  intros Hwf Hx Hy.
  destruct (sat_total w h s _ _
              (_big_cell_filter_sat w h never s s k (conj Hx Hy) (same_refl s)) Hwf)
    as (r & s1 & Hrun & _ & (-> & Hd & Hr)).
  rewrite Hrun. simpl. auto.
Qed.

Lemma big_cell_filter_reads_block_witness :
  let s := Build_World
             (Build_Arrays (np_full (2, 2) _BODY) (np_full (1, 2) true)
                (np_full (2, 1) true)) [] [] in
  wf 2 2 (data s) /\ 0 <= fst (0, 0) <= 2 - 2 /\ 0 <= snd (0, 0) <= 2 - 2 /\
  fst (_big_cell_filter (0, 0) s) = Ok (block_open (data s) (0, 0)) /\
  data (snd (_big_cell_filter (0, 0) s)) = data s /\
  rng (snd (_big_cell_filter (0, 0) s)) = rng s.
Proof.
  intros s.
  assert (H1 : wf 2 2 (data s)) by (repeat split; repeat constructor).
  assert (H2 : 0 <= fst (0, 0) <= 2 - 2) by (simpl; lia).
  assert (H3 : 0 <= snd (0, 0) <= 2 - 2) by (simpl; lia).
  split; [exact H1|]. split; [exact H2|]. split; [exact H3|].
  exact (big_cell_filter_reads_block 2 2 s (0, 0) H1 H2 H3).
Defined.

(** [_place_big_cell] on a corner whose block lies in the grid empties the
    four cells of the block and closes the doors between them; every
    other cell and door and the random generator stay as they were. *)
Theorem place_big_cell_effect w h s k :
  wf w h (data s) -> 0 <= fst k <= w - 2 -> 0 <= snd k <= h - 2 ->
  exists s1,
    _place_big_cell k s = (Ok tt, s1) /\ wf w h (data s1) /\ rng s1 = rng s /\
    (forall q, cell (data s1) q =
       if decide (q ∈ block k) then _EMPTY else cell (data s) q) /\
    (forall a b, door (data s1) a b = true <->
       door (data s) a b = true /\ ~ (a ∈ block k /\ b ∈ block k)).
Proof.
  intros Hwf Hx Hy.
  destruct (sat_total w h s _ _
              (sat_conj w h never s _ _ _
                 (_place_big_cell_sat w h never s k (conj Hx Hy))
                 (_place_big_cell_rng w h never s k (conj Hx Hy))) Hwf)
    as ([] & s1 & Hrun & [Hwf1 _] & ([Hc Hd] & Hr)).
  exists s1. auto.
Qed.

Lemma place_big_cell_effect_witness :
  let s := Build_World
             (Build_Arrays (np_full (2, 2) _BODY) (np_full (1, 2) true)
                (np_full (2, 1) true)) [5] [] in
  wf 2 2 (data s) /\ 0 <= fst (0, 0) <= 2 - 2 /\ 0 <= snd (0, 0) <= 2 - 2 /\
  exists s1,
    _place_big_cell (0, 0) s = (Ok tt, s1) /\ wf 2 2 (data s1) /\ rng s1 = rng s /\
    (forall q, cell (data s1) q =
       if decide (q ∈ block (0, 0)) then _EMPTY else cell (data s) q) /\
    (forall a b, door (data s1) a b = true <->
       door (data s) a b = true /\ ~ (a ∈ block (0, 0) /\ b ∈ block (0, 0))).
Proof.
  intros s.
  assert (H1 : wf 2 2 (data s)) by (repeat split; repeat constructor).
  assert (H2 : 0 <= fst (0, 0) <= 2 - 2) by (simpl; lia).
  assert (H3 : 0 <= snd (0, 0) <= 2 - 2) by (simpl; lia).
  split; [exact H1|]. split; [exact H2|]. split; [exact H3|].
  exact (place_big_cell_effect 2 2 s (0, 0) H1 H2 H3).
Defined.

Lemma placed_block_closed d d' k : placed d d' k -> block_open d' k = false.
Proof.
  intros [_ Hd]. destruct k as [x y]. unfold block_open.
  destruct (door d' (x, y) (x + 1, y)) eqn:E; [|reflexivity].
  apply Hd in E as [_ E]. exfalso. apply E.
  unfold block. rewrite !elem_of_cons. auto.
Qed.

(** Once a big cell is placed, [_big_cell_filter] rejects its corner, and
    placing it a second time changes nothing. *)
Theorem placed_big_cell_is_final w h s k :
  wf w h (data s) -> 0 <= fst k <= w - 2 -> 0 <= snd k <= h - 2 ->
  exists s1,
    _place_big_cell k s = (Ok tt, s1) /\
    fst (_big_cell_filter k s1) = Ok false /\
    fst (_place_big_cell k s1) = Ok tt /\
    data (snd (_place_big_cell k s1)) = data s1.
Proof.
  intros Hwf Hx Hy.
  destruct (sat_total w h s _ _ (_place_big_cell_sat w h never s k (conj Hx Hy)) Hwf)
    as ([] & s1 & Hrun & [Hwf1 _] & Hpl).
  exists s1. split; [exact Hrun|].
  destruct (sat_total w h s1 _ _
              (_big_cell_filter_sat w h never s1 s1 k (conj Hx Hy) (same_refl s1)) Hwf1)
    as (r & s2 & Hrun2 & _ & (-> & _)).
  destruct (sat_total w h s1 _ _ (_place_big_cell_sat w h never s1 k (conj Hx Hy)) Hwf1)
    as ([] & s3 & Hrun3 & [Hwf3 _] & [Hc3 Hd3]).
  rewrite Hrun2, Hrun3. simpl. rewrite (placed_block_closed _ _ _ Hpl).
  split; [reflexivity|]. split; [reflexivity|].
  destruct Hpl as [Hc1 Hd1].
  apply (arrays_ext w h); [exact Hwf3|exact Hwf1| |].
  - intros q. rewrite Hc3, Hc1. destruct (decide (q ∈ block k)); reflexivity.
  - intros a b. apply bool_iff. rewrite Hd3, Hd1. tauto.
Qed.

Lemma placed_big_cell_is_final_witness :
  let s := Build_World
             (Build_Arrays (np_full (3, 2) _BODY) (np_full (2, 2) true)
                (np_full (3, 1) true)) [] [] in
  wf 3 2 (data s) /\ 0 <= fst (1, 0) <= 3 - 2 /\ 0 <= snd (1, 0) <= 2 - 2 /\
  exists s1,
    _place_big_cell (1, 0) s = (Ok tt, s1) /\
    fst (_big_cell_filter (1, 0) s1) = Ok false /\
    fst (_place_big_cell (1, 0) s1) = Ok tt /\
    data (snd (_place_big_cell (1, 0) s1)) = data s1.
Proof.
  intros s.
  assert (H1 : wf 3 2 (data s)) by (repeat split; repeat constructor).
  assert (H2 : 0 <= fst (1, 0) <= 3 - 2) by (simpl; lia).
  assert (H3 : 0 <= snd (1, 0) <= 2 - 2) by (simpl; lia).
  split; [exact H1|]. split; [exact H2|]. split; [exact H3|].
  exact (placed_big_cell_is_final 3 2 s (1, 0) H1 H2 H3).
Defined.

(** ** What [_process_as_if_dead_end] does, case by case *)

Lemma count_open_perm d p dirs dirs' :
  dirs ≡ₚ dirs' -> count_open d p dirs = count_open d p dirs'.
Proof.
  unfold count_open. induction 1 as [|x l l' _ IH|x y l|l l' l'' _ IH1 _ IH2]; simpl.
  - reflexivity.
  - destruct (door d p (nbr p x)); simpl; congruence.
  - destruct (door d p (nbr p x)), (door d p (nbr p y)); reflexivity.
  - congruence.
Qed.

Lemma count_open_zero d p dirs dir :
  count_open d p dirs = 0%nat -> dir ∈ dirs -> door d p (nbr p dir) = false.
Proof.
  unfold count_open. induction dirs as [|e dirs IH]; intros Hc Hin.
  - apply elem_of_nil in Hin as [].
  - simpl in Hc. destruct (door d p (nbr p e)) eqn:E; [discriminate|].
    apply elem_of_cons in Hin as [->|Hin]; [exact E|auto].
Qed.

Lemma count_open_pos d p dirs dir :
  dir ∈ dirs -> door d p (nbr p dir) = true -> (1 <= count_open d p dirs)%nat.
Proof.
  unfold count_open. induction dirs as [|e dirs IH]; intros Hin Hd.
  - apply elem_of_nil in Hin as [].
  - simpl. apply elem_of_cons in Hin as [<-|Hin].
    + rewrite Hd. simpl. lia.
    + specialize (IH Hin Hd). destruct (door d p (nbr p e)); simpl; lia.
Qed.

Lemma count_open_cons d p dir dirs :
  count_open d p (dir :: dirs) =
  ((if door d p (nbr p dir) then 1 else 0) + count_open d p dirs)%nat.
Proof. unfold count_open. simpl. destruct (door d p (nbr p dir)); reflexivity. Qed.

Lemma find_first_count w h Al p dirs : forall first s,
  inb w h p -> dirs_ok w h p dirs ->
  sat w h Al s (find_first p dirs first)
    (fun r s' => same s s' /\
       match r with
       | inl _ =>
           (2 <= match first with Some _ => 1 | None => 0 end
                 + count_open (data s) p dirs)%nat
       | inr x =>
           match first with
           | Some f0 => x = Some f0 /\ count_open (data s) p dirs = 0%nat
           | None =>
               match x with
               | None => count_open (data s) p dirs = 0%nat
               | Some f =>
                   f ∈ dirs /\ door (data s) p (nbr p f) = true /\
                   count_open (data s) p dirs = 1%nat
               end
           end
       end).
Proof.
  induction dirs as [|dir dirs IH]; intros first s Hp Hok.
  - simpl. apply sat_ret. split; [apply same_refl|].
    destruct first; [split|]; reflexivity.
  - simpl.
    destruct (Hok dir (list_elem_of_here _ _)) as [Hd Hn].
    assert (Hok' : dirs_ok w h p dirs).
    { intros d0 H0. apply Hok. apply list_elem_of_further, H0. }
    eapply sat_bind; [apply _get_door_sat; assumption|].
    intros r s1 _ [-> Hs1]. simpl.
    assert (Hcount : count_open (data s1) p dirs = count_open (data s) p dirs)
      by (rewrite (proj1 Hs1); reflexivity).
    pose proof (count_open_cons (data s) p dir dirs) as Hcons.
    destruct (door (data s) p (nbr p dir)) eqn:Hdoor.
    + destruct first as [f0|].
      * apply sat_ret. split; [exact Hs1|]. lia.
      * eapply sat_mono; [apply (IH (Some dir) s1 Hp Hok')|].
        intros [u|x] s2 _ [Hs2 Hr]; rewrite ?(proj1 Hs1) in Hr;
          (split; [eapply same_trans; eassumption|]).
        -- lia.
        -- destruct Hr as [-> Hz]. split; [apply list_elem_of_here|].
           split; [exact Hdoor|]. lia.
    + eapply sat_mono; [apply (IH first s1 Hp Hok')|].
      intros [u|x] s2 _ [Hs2 Hr]; rewrite ?(proj1 Hs1) in Hr;
        (split; [eapply same_trans; eassumption|]).
      * destruct first; lia.
      * destruct first as [f0|]; [split; [apply Hr|lia]|].
        destruct x as [f|]; [|lia].
        destruct Hr as (Hin & Hf & Hc). split; [apply list_elem_of_further, Hin|].
        split; [exact Hf|lia].
Qed.

(** The code after the first open door has been found to be the only
    one. *)
Lemma dead_end_tail_sat w h fuel s p chance f dirs :
  inb w h p -> dirs_ok w h p dirs -> (length dirs <= 4)%nat ->
  length dirs <> 1%nat ->
  f ∈ dirs -> door (data s) p (nbr p f) = true ->
  sat w h (only_fuel fuel) s
    (dirs1 <- list_remove (Some f) dirs ;;
     choice <- random_choice dirs1 ;;
     _set_door p choice true ;;
     dirs2 <- list_remove (Some choice) dirs1 ;;
     more_wirings fuel p chance dirs2 ;;
     ret (Some false))%M
    (fun r s' => r = Some false /\ opened s s' p dirs /\
                 (2 <= count_open (data s') p dirs)%nat).
Proof.
  intros Hp Hok Hle Hone Hf Hdoor.
  eapply sat_bind; [apply list_remove_sat, Hf|].
  intros dirs1 s4 _ [Hperm1 ->].
  assert (Hlen1 : length dirs = S (length dirs1)) by (rewrite Hperm1; reflexivity).
  eapply sat_bind.
  { apply random_choice_sat. intros ->. simpl in Hlen1. lia. }
  intros choice s5 _ [Hin Hk5].
  assert (Hin' : choice ∈ dirs) by (rewrite Hperm1; apply list_elem_of_further, Hin).
  destruct (Hok choice Hin') as [Hd Hn].
  eapply sat_bind; [apply _set_door_sat; assumption|].
  intros [] s6 _ Hset. pose proof Hset as (_ & _ & Hdoor6).
  apply door_set_opened in Hset.
  eapply sat_bind; [apply list_remove_sat, Hin|].
  intros dirs2 s7 _ [Hperm2 ->].
  assert (Hlen2 : length dirs1 = S (length dirs2)) by (rewrite Hperm2; reflexivity).
  assert (Hsub2 : forall d0, d0 ∈ dirs2 -> d0 ∈ dirs).
  { intros d0 H0. rewrite Hperm1, Hperm2. do 2 apply list_elem_of_further. exact H0. }
  eapply sat_bind.
  { apply (more_wirings_sat w h (only_fuel fuel) fuel (fun H => conj eq_refl H)
             p chance fuel dirs2 s6 Hp).
    - intros d0 H0. apply Hok, Hsub2, H0.
    - intros Hfuel. split; [reflexivity|]. lia. }
  intros [] s8 _ Hop. apply sat_ret.
  split; [reflexivity|].
  assert (Hall : opened s s8 p dirs).
  { eapply keeps_opened; [exact Hk5|].
    eapply opened_trans.
    + eapply opened_mono; [|exact Hset].
      intros d0 H0. apply list_elem_of_singleton in H0 as ->. exact Hin'.
    + eapply opened_mono; [|exact Hop]. exact Hsub2. }
  split; [exact Hall|].
  rewrite (count_open_perm _ p dirs (f :: choice :: dirs2))
    by (rewrite Hperm1, Hperm2; reflexivity).
  unfold count_open. simpl.
  assert (H1 : door (data s8) p (nbr p f) = true) by (apply Hall, Hdoor).
  assert (H2 : door (data s8) p (nbr p choice) = true).
  { apply Hop. rewrite Hdoor6. rewrite decide_True by (left; split; reflexivity).
    reflexivity. }
  rewrite H1, H2. simpl. lia.
Qed.

Lemma body_dirs_ok w h d p : wf w h d -> dirs_ok w h p (body_dirs w h d p).
Proof.
  intros Hwf dir Hin. apply (body_dirs_spec _ _ _ _ _ Hwf) in Hin as [Hd Hc].
  split; [exact Hd|]. apply (cell_inb w h d); [exact Hwf|]. rewrite Hc. discriminate.
Qed.

Lemma body_dirs_le4 w h d p : (length (body_dirs w h d p) <= 4)%nat.
Proof.
  unfold body_dirs. rewrite length_map.
  etransitivity; [apply List.filter_length_le|].
  destruct p as [x y]. unfold _get_nbr_points_n_dirs.
  etransitivity; [apply List.filter_length_le|]. simpl. lia.
Qed.

Lemma process_cases w h fuel s p chance :
  wf w h (data s) -> inb w h p ->
  exists o s',
    _process_as_if_dead_end fuel p (_PointChecker w h) chance s = (o, s') /\
    quiet w h s s' /\ dead_end_case w h fuel s p o s'.
Proof.
  intros Hwf Hp. unfold _process_as_if_dead_end. destruct p as [x y].
  destruct (sat_total w h s _ _ (cells_get_sat w h never s (x, y) Hp) Hwf)
    as (v & s1 & Hrun1 & Hq1 & (-> & Hs1)).
  rewrite (bind_ok _ _ _ _ _ Hrun1).
  destruct (cell (data s) (x, y) =? _BODY) eqn:Hbody.
  2:{ apply Z.eqb_neq in Hbody.
      exists (Ok None), s1. split; [reflexivity|]. split; [exact Hq1|].
      unfold dead_end_case. rewrite decide_False by exact Hbody. split; auto. }
  apply Z.eqb_eq in Hbody.
  assert (Hwf1 : wf w h (data s1)) by apply Hq1.
  destruct (sat_total w h s1 _ _
              (sat_filterM w h never _
                 (fun pair => cell (data s) (fst pair) =? _BODY) _ s s1 Hs1
                 (fun pair s2 Hin Hs2 =>
                    cell_test_sat w h never s s2 (fst pair) _BODY
                      (proj2 (proj2 (proj1 (pairs_spec w h (x, y) (fst pair) (snd pair))
                         ltac:(destruct pair; exact Hin)))) Hs2)) Hwf1)
    as (pairs & s2 & Hrun2 & Hq2 & (-> & Hs2)).
  rewrite (bind_ok _ _ _ _ _ Hrun2). cbv beta zeta.
  fold (body_dirs w h (data s) (x, y)).
  set (dirs := body_dirs w h (data s) (x, y)).
  assert (Hq02 : quiet w h s s2) by (eapply quiet_trans; eassumption).
  assert (Hwf2 : wf w h (data s2)) by apply Hq2.
  destruct (length dirs =? 1)%nat eqn:Hone.
  { apply Nat.eqb_eq in Hone.
    exists (Ok (Some true)), s2. split; [reflexivity|]. split; [exact Hq02|].
    unfold dead_end_case. rewrite decide_True by exact Hbody.
    rewrite decide_True by exact Hone. split; [reflexivity|exact Hs2]. }
  apply Nat.eqb_neq in Hone.
  assert (Hok : dirs_ok w h (x, y) dirs) by apply body_dirs_ok, Hwf.
  destruct (sat_total w h s2 _ _
              (find_first_count w h never (x, y) dirs None s2 Hp Hok) Hwf2)
    as (found & s3 & Hrun3 & Hq3 & (Hs3 & Hfound)).
  rewrite (bind_ok _ _ _ _ _ Hrun3).
  rewrite (proj1 Hs2) in Hfound.
  assert (Hs03 : same s s3) by (eapply same_trans; eassumption).
  assert (Hq03 : quiet w h s s3) by (eapply quiet_trans; eassumption).
  destruct found as [u|[f|]].
  - simpl in Hfound.
    exists (Ok None), s3. split; [reflexivity|]. split; [exact Hq03|].
    unfold dead_end_case. rewrite decide_True by exact Hbody.
    rewrite decide_False by exact Hone. fold dirs.
    destruct (count_open (data s) (x, y) dirs) as [|[|n]]; [lia|lia|].
    split; [reflexivity|exact Hs03].
  - destruct Hfound as (Hf & Hdoor & Hc).
    assert (Hwf3 : wf w h (data s3)) by apply Hq3.
    rewrite <- (proj1 Hs03) in Hdoor.
    pose proof (dead_end_tail_sat w h fuel s3 (x, y) chance f dirs Hp Hok
                  (body_dirs_le4 w h (data s) (x, y)) Hone Hf Hdoor Hwf3) as Htail.
    match type of Htail with
    | match ?t with _ => _ end => destruct t as [[r|e|] s4] eqn:Hrun4
    end.
    + destruct Htail as (Hq4 & -> & Hop & Hcount).
      exists (Ok (Some false)), s4. split; [reflexivity|].
      split; [eapply quiet_trans; eassumption|].
      unfold dead_end_case. rewrite decide_True by exact Hbody.
      rewrite decide_False by exact Hone. fold dirs. rewrite Hc. left.
      split; [reflexivity|]. split; [|exact Hcount].
      eapply opened_trans; [apply opened_same, Hs03|exact Hop].
    + destruct Htail as (_ & Habs & _). discriminate.
    + destruct Htail as (Hq4 & _ & Hfuel).
      exists Diverge, s4. split; [reflexivity|].
      split; [eapply quiet_trans; eassumption|].
      unfold dead_end_case. rewrite decide_True by exact Hbody.
      rewrite decide_False by exact Hone. fold dirs. rewrite Hc. right. auto.
  - exists (Raise remove_error), s3. split; [reflexivity|]. split; [exact Hq03|].
    unfold dead_end_case. rewrite decide_True by exact Hbody.
    rewrite decide_False by exact Hone. fold dirs. rewrite Hfound.
    split; [reflexivity|exact Hs03].
Qed.

(** What [_process_as_if_dead_end] returns is decided by the cell and its
    body neighbours: [None] on a cell that is not a body cell, [True] on a
    body cell with exactly one body neighbour, and otherwise by the number
    of open doors to body neighbours: none makes [dirs.remove(first)] raise
    [ValueError], one gives [False], two or more give [None]. *)
Theorem dead_end_outcome w h fuel s p chance :
  wf w h (data s) -> _PointChecker w h p = true -> (3 <= fuel)%nat ->
  fst (_process_as_if_dead_end fuel p (_PointChecker w h) chance s) =
    if decide (cell (data s) p = _BODY) then
      if decide (length (body_dirs w h (data s) p) = 1%nat) then Ok (Some true)
      else
        match count_open (data s) p (body_dirs w h (data s) p) with
        | O => Raise remove_error
        | S O => Ok (Some false)
        | S (S _) => Ok None
        end
    else Ok None.
Proof.
  intros Hwf Hp Hfuel. apply checker_inb in Hp.
  destruct (process_cases w h fuel s p chance Hwf Hp) as (o & s' & -> & _ & Hcase).
  unfold dead_end_case in Hcase. simpl.
  destruct (decide (cell (data s) p = _BODY)); [|apply Hcase].
  destruct (decide (length (body_dirs w h (data s) p) = 1%nat)); [apply Hcase|].
  destruct (count_open (data s) p (body_dirs w h (data s) p)) as [|[|k]];
    [apply Hcase| |apply Hcase].
  destruct Hcase as [[-> _]|[_ Hlt]]; [reflexivity|lia].
Qed.

Lemma dead_end_outcome_witness :
  let s := Build_World
             (Build_Arrays (NdArray (2, 1) [[_BODY]; [_BODY]]) (np_full (1, 1) true)
                (np_full (2, 0) false)) [] [] in
  wf 2 1 (data s) /\ _PointChecker 2 1 (0, 0) = true /\ (3 <= 3)%nat /\
  fst (_process_as_if_dead_end 3 (0, 0) (_PointChecker 2 1) default_chance s) =
    if decide (cell (data s) (0, 0) = _BODY) then
      if decide (length (body_dirs 2 1 (data s) (0, 0)) = 1%nat) then Ok (Some true)
      else
        match count_open (data s) (0, 0) (body_dirs 2 1 (data s) (0, 0)) with
        | O => Raise remove_error
        | S O => Ok (Some false)
        | S (S _) => Ok None
        end
    else Ok None.
Proof.
  intros s.
  assert (H1 : wf 2 1 (data s)) by (repeat split; repeat constructor).
  assert (H2 : _PointChecker 2 1 (0, 0) = true) by reflexivity.
  assert (H3 : (3 <= 3)%nat) by lia.
  split; [exact H1|]. split; [exact H2|]. split; [exact H3|].
  exact (dead_end_outcome 2 1 3 s (0, 0) default_chance H1 H2 H3).
Defined.

(** [_process_as_if_dead_end] never writes a cell and never closes a door;
    the doors it opens lead from the processed cell to body neighbours.
    Unless it returns [False] it changes nothing at all and draws nothing
    from the random generator, also when it raises; when it returns
    [False] the cell has at least two open doors to body neighbours
    afterwards. *)
Theorem dead_end_only_opens_doors w h fuel s p chance :
  wf w h (data s) -> _PointChecker w h p = true -> (3 <= fuel)%nat ->
  let r := _process_as_if_dead_end fuel p (_PointChecker w h) chance s in
  cells (data (snd r)) = cells (data s) /\
  (forall a b, door (data s) a b = true -> door (data (snd r)) a b = true) /\
  (forall a b, door (data (snd r)) a b = true ->
     door (data s) a b = true \/
     exists dir, dir ∈ body_dirs w h (data s) p /\ edge_is a b p (nbr p dir)) /\
  (fst r <> Ok (Some false) -> data (snd r) = data s /\ rng (snd r) = rng s) /\
  (fst r = Ok (Some false) ->
     (2 <= count_open (data (snd r)) p (body_dirs w h (data s) p))%nat).
Proof.
  intros Hwf Hp Hfuel. apply checker_inb in Hp.
  destruct (process_cases w h fuel s p chance Hwf Hp) as (o & s' & -> & _ & Hcase).
  unfold dead_end_case in Hcase. simpl.
  assert (Hquiet : forall v, o = v /\ same s s' -> v <> Ok (Some false) ->
            cells (data s') = cells (data s) /\
            (forall a b, door (data s) a b = true -> door (data s') a b = true) /\
            (forall a b, door (data s') a b = true ->
               door (data s) a b = true \/
               exists dir, dir ∈ body_dirs w h (data s) p /\ edge_is a b p (nbr p dir)) /\
            (o <> Ok (Some false) -> data s' = data s /\ rng s' = rng s) /\
            (o = Ok (Some false) ->
               (2 <= count_open (data s') p (body_dirs w h (data s) p))%nat)).
  { intros v [-> [Hd Hr]] Hv. rewrite Hd.
    split; [reflexivity|]. split; [auto|]. split; [auto|]. split; [auto|].
    intros Habs. contradiction. }
  destruct (decide (cell (data s) p = _BODY)); [|apply (Hquiet _ Hcase); discriminate].
  destruct (decide (length (body_dirs w h (data s) p) = 1%nat));
    [apply (Hquiet _ Hcase); discriminate|].
  destruct (count_open (data s) p (body_dirs w h (data s) p)) as [|[|k]];
    [apply (Hquiet _ Hcase); discriminate| |apply (Hquiet _ Hcase); discriminate].
  destruct Hcase as [(-> & [Hc Hop] & Hcount)|[_ Hlt]]; [|lia].
  split; [exact Hc|]. split; [intros a b; apply Hop|]. split; [intros a b; apply Hop|].
  split; [intros Habs; contradiction|]. intros _. exact Hcount.
Qed.

Lemma dead_end_only_opens_doors_witness :
  let s := Build_World
             (Build_Arrays (NdArray (3, 1) [[_BODY]; [_BODY]; [_BODY]])
                (NdArray (2, 1) [[true]; [false]]) (np_full (3, 0) false)) [0] [] in
  let r := _process_as_if_dead_end 3 (1, 0) (_PointChecker 3 1) default_chance s in
  wf 3 1 (data s) /\ _PointChecker 3 1 (1, 0) = true /\ (3 <= 3)%nat /\
  cells (data (snd r)) = cells (data s) /\
  (forall a b, door (data s) a b = true -> door (data (snd r)) a b = true) /\
  (forall a b, door (data (snd r)) a b = true ->
     door (data s) a b = true \/
     exists dir, dir ∈ body_dirs 3 1 (data s) (1, 0) /\
                 edge_is a b (1, 0) (nbr (1, 0) dir)) /\
  (fst r <> Ok (Some false) -> data (snd r) = data s /\ rng (snd r) = rng s) /\
  (fst r = Ok (Some false) ->
     (2 <= count_open (data (snd r)) (1, 0)%Z (body_dirs 3 1 (data s) (1, 0)%Z))%nat).
Proof.
  intros s r.
  assert (H1 : wf 3 1 (data s)) by (repeat split; repeat constructor).
  assert (H2 : _PointChecker 3 1 (1, 0) = true) by reflexivity.
  assert (H3 : (3 <= 3)%nat) by lia.
  split; [exact H1|]. split; [exact H2|]. split; [exact H3|].
  exact (dead_end_only_opens_doors 3 1 3 s (1, 0) default_chance H1 H2 H3).
Defined.

(** *** The pass over all cells *)

Lemma process_sat_strong w h Al fuel s p chance :
  inb w h p ->
  (cell (data s) p = _BODY ->
   count_open (data s) p (body_dirs w h (data s) p) = 0%nat ->
   Al (Raised remove_error)) ->
  ((fuel < 3)%nat -> Al OutOfFuel) ->
  sat w h Al s (_process_as_if_dead_end fuel p (_PointChecker w h) chance)
    (fun r s' => opened s s' p (body_dirs w h (data s) p) /\
       (cell (data s) p = _BODY -> length (body_dirs w h (data s) p) = 1%nat ->
        r = Some true) /\
       (cell (data s) p = _BODY -> length (body_dirs w h (data s) p) <> 1%nat ->
        (2 <= count_open (data s') p (body_dirs w h (data s) p))%nat)).
Proof.
  intros Hp Hraise Hfuel Hwf.
  destruct (process_cases w h fuel s p chance Hwf Hp) as (o & s' & -> & Hq & Hcase).
  unfold dead_end_case in Hcase.
  destruct (decide (cell (data s) p = _BODY)) as [Hb|Hb].
  2:{ destruct Hcase as [-> Hs]. split; [exact Hq|]. split; [apply opened_same, Hs|].
      split; intros Hb'; contradiction. }
  destruct (decide (length (body_dirs w h (data s) p) = 1%nat)) as [Hone|Hone].
  { destruct Hcase as [-> Hs]. split; [exact Hq|]. split; [apply opened_same, Hs|].
    split; [auto|]. intros _ H1. contradiction. }
  destruct (count_open (data s) p (body_dirs w h (data s) p)) as [|[|k]] eqn:Hc.
  - destruct Hcase as [-> Hs]. split; [exact Hq|]. apply Hraise; [exact Hb|reflexivity].
  - destruct Hcase as [(-> & Hop & Hcount)|[-> Hlt]]; (split; [exact Hq|auto]).
    split; [exact Hop|]. split; [intros _ H1; contradiction|]. intros _ _. exact Hcount.
  - destruct Hcase as [-> Hs]. split; [exact Hq|]. split; [apply opened_same, Hs|].
    split; [intros _ H1; contradiction|]. intros _ _.
    rewrite (proj1 Hs), Hc. lia.
Qed.

Lemma count_open_mono d d' p dirs :
  (forall a b, door d a b = true -> door d' a b = true) ->
  (count_open d p dirs <= count_open d' p dirs)%nat.
Proof.
  intros Hmono. induction dirs as [|dir dirs IH]; [reflexivity|].
  rewrite !count_open_cons.
  destruct (door d p (nbr p dir)) eqn:E; [rewrite (Hmono _ _ E); lia|].
  destruct (door d' p (nbr p dir)); lia.
Qed.

Lemma linked_up_count w h d d' p :
  wf w h d -> linked_up d -> cells d' = cells d ->
  (forall a b, door d a b = true -> door d' a b = true) ->
  cell d' p = _BODY -> count_open d' p (body_dirs w h d' p) <> 0%nat.
Proof.
  intros Hwf Hlink Hc Hd Hp. rewrite (cells_same_cell _ _ Hc) in Hp.
  destruct (Hlink p Hp) as (q & Hq & Hqb & Hdoor).
  destruct (nbrs_nbr p q Hq) as (dir & Hdir & ->).
  rewrite (body_dirs_cells w h _ _ p Hc).
  assert (Hin : dir ∈ body_dirs w h d p) by (apply body_dirs_spec; auto).
  pose proof (count_open_pos d' p _ dir Hin (Hd _ _ Hdoor)). lia.
Qed.

Lemma dead_end_pass_strong w h Al fuel s chance l :
  (~ linked_up (data s) -> Al (Raised remove_error)) ->
  ((fuel < 3)%nat -> Al OutOfFuel) ->
  Forall (inb w h) l ->
  sat w h Al s
    (foldM (fun chests cell =>
              r <- _process_as_if_dead_end fuel cell (_PointChecker w h) chance ;;
              ret (if default false r then chests ++ [cell] else chests))
       [] l)%M
    (fun chests s' => sublist chests l /\ cells (data s') = cells (data s) /\
       (forall a b, door (data s) a b = true -> door (data s') a b = true) /\
       (forall p, p ∈ l -> cell (data s) p = _BODY ->
          length (body_dirs w h (data s) p) = 1%nat -> p ∈ chests) /\
       (forall p, p ∈ l -> cell (data s) p = _BODY ->
          length (body_dirs w h (data s) p) <> 1%nat ->
          (2 <= count_open (data s') p (body_dirs w h (data s) p))%nat)).
Proof.
  intros Hraise Hfuel Hl. apply sat_wf. intros Hwf.
  eapply sat_mono.
  { apply (sat_foldM w h Al _
      (fun done chests s1 => sublist chests done /\ cells (data s1) = cells (data s) /\
         (forall a b, door (data s) a b = true -> door (data s1) a b = true) /\
         (forall p, p ∈ done -> cell (data s) p = _BODY ->
            length (body_dirs w h (data s) p) = 1%nat -> p ∈ chests) /\
         (forall p, p ∈ done -> cell (data s) p = _BODY ->
            length (body_dirs w h (data s) p) <> 1%nat ->
            (2 <= count_open (data s1) p (body_dirs w h (data s) p))%nat)) l [] [] s).
    - split; [constructor|]. split; [reflexivity|]. split; [auto|].
      split; intros p Hp; apply elem_of_nil in Hp as [].
    - intros done' p chests s1 [rest Hrest] (Hsub & Hc1 & Hd1 & Hleaf & Hdeg).
      simpl in Hrest.
      assert (Hp : inb w h p).
      { apply (proj1 (Forall_forall _ _) Hl). rewrite Hrest.
        apply elem_of_app. right. apply list_elem_of_here. }
      eapply sat_bind.
      { apply (process_sat_strong w h Al fuel s1 p chance Hp); [|exact Hfuel].
        intros Hb Hzero. apply Hraise. intros Hlink.
        exact (linked_up_count w h _ _ p Hwf Hlink Hc1 Hd1 Hb Hzero). }
      intros r s2 _ ([Hc2 Hop] & Hone & Htwo). apply sat_ret.
      rewrite (body_dirs_cells w h _ _ p Hc1), (cells_same_cell _ _ Hc1) in Hone, Htwo.
      split; [|split; [|split; [|split]]].
      + destruct (default false r).
        * apply sublist_app; [exact Hsub|reflexivity].
        * apply sublist_inserts_r, Hsub.
      + congruence.
      + intros a b H. apply Hop, Hd1, H.
      + intros q Hq Hb H1. apply elem_of_app in Hq as [Hq|Hq].
        * specialize (Hleaf q Hq Hb H1).
          destruct (default false r); [apply elem_of_app; auto|exact Hleaf].
        * apply list_elem_of_singleton in Hq as ->.
          rewrite (Hone Hb H1). simpl. apply elem_of_app. right. apply list_elem_of_here.
      + intros q Hq Hb H1. apply elem_of_app in Hq as [Hq|Hq].
        * specialize (Hdeg q Hq Hb H1).
          pose proof (count_open_mono (data s1) (data s2) q
                        (body_dirs w h (data s) q) (fun a b => proj1 (Hop a b))).
          lia.
        * apply list_elem_of_singleton in Hq as ->. exact (Htwo Hb H1). }
  intros chests s2 _ H. exact H.
Qed.

(** ** What [_finish] and [generate] hand back *)

Lemma assemble_shape_sat w h Al s :
  sat w h Al s
    (foldM (fun cells xy => v <- cells_get xy ;; local_set cells xy (v =? _BODY))
       (np_full (w, h) false) (product (range w) (range h)))%M
    (fun out s' => wf_nd w h out).
Proof.
  eapply sat_mono.
  { apply (sat_foldM w h Al _ (fun done acc s1 => wf_nd w h acc)
             (product (range w) (range h)) [] (np_full (w, h) false) s).
    - apply np_full_wf.
    - intros done' p acc s1 [rest Hrest] Hacc. simpl in Hrest.
      assert (Hp : inb w h p).
      { apply grid_spec. rewrite Hrest. apply elem_of_app. right. apply list_elem_of_here. }
      eapply sat_bind; [apply cells_get_sat, Hp|].
      intros v s2 _ _. destruct p as [x y].
      eapply sat_mono; [apply (local_set_sat w h Al w h); [exact Hacc|apply Hp|apply Hp]|].
      intros acc' s3 _ [_ Hset].
      apply (flag_set w h acc x y _ acc' Hacc (proj1 Hp) (proj2 Hp) Hset). }
  intros out s2 _ H. exact H.
Qed.

Lemma _finish_strong_sat w h Al fuel s chance :
  0 < w -> 0 < h ->
  (~ linked_up (data s) -> Al (Raised remove_error)) ->
  (Z.of_nat fuel < Z.max (w * h) 3 -> Al OutOfFuel) ->
  sat w h Al s (_finish fuel w h (_PointChecker w h) chance)
    (fun L s' => shaped w h L /\
                 sublist (out_chests L) (product (range w) (range h)) /\
                 (forall p, cell (data s) p = _BODY ->
                    length (body_dirs w h (data s) p) = 1%nat -> p ∈ out_chests L)).
Proof.
  intros Hw Hh Hraise Hfuel. apply sat_wf. intros Hwf. unfold _finish.
  eapply sat_bind.
  { apply (dead_end_pass_strong w h Al fuel s chance _ Hraise).
    - intros Hf. apply Hfuel. lia.
    - apply Forall_forall. intros p Hp. apply grid_spec, Hp. }
  intros chests s1 _ (Hsub & _ & _ & Hleaf & _).
  eapply sat_bind.
  { apply (sat_filterM w h Al _ (block_open (data s1)) _ s1 s1 (same_refl s1)).
    intros k s2 Hk Hs2.
    apply _big_cell_filter_sat; [apply (corner_grid w h fuel), Hk|exact Hs2]. }
  intros cands s2 _ [-> [Hd2 _]].
  set (cands := List.filter _ _).
  assert (Hcands : forall k, k ∈ cands -> corner_ok w h k).
  { intros k Hk. apply list_elem_of_In, filter_In in Hk as [Hk _].
    apply (corner_grid w h fuel), list_elem_of_In, Hk. }
  eapply sat_bind.
  { apply (place_big_cells_sat w h Al (data s1) cands Hcands).
    - rewrite Hd2. split; [apply np_full_wf|].
      split; [intros k Hk; rewrite flag_full_false in Hk; discriminate|].
      split; [auto|].
      split; [intros c k _ Hk; rewrite flag_full_false in Hk; discriminate|].
      split; [intros k1 k2 Hk; rewrite flag_full_false in Hk; discriminate|].
      assert (Hna : forall q, ~ absorbed_by (np_full (w - 1, h - 1) false) q).
      { intros q (k & Hk & _). rewrite flag_full_false in Hk. discriminate. }
      split; [intros q Hq; destruct (Hna q Hq)|]. split; [reflexivity|].
      intros a b. split; [|tauto]. intros Hd. split; [exact Hd|].
      intros (k & Hk & _). rewrite flag_full_false in Hk. discriminate.
    - intros Hle. apply Hfuel.
      assert (Hlen : (length cands <= Z.to_nat (w - 1) * Z.to_nat (h - 1))%nat).
      { unfold cands. etransitivity; [apply List.filter_length_le|].
        rewrite product_length, !range_length. reflexivity. }
      nia. }
  intros mask s3 _ (Hmwf & _).
  eapply sat_bind; [apply assemble_shape_sat|].
  intros out s4 _ Hout.
  intros Hwf4. simpl. split; [apply quiet_refl, Hwf4|].
  split; [|split; [exact Hsub|]].
  - split; [exact Hout|]. split; [exact Hmwf|]. split; apply Hwf4.
  - intros p Hb H1. apply Hleaf; [|exact Hb|exact H1]. apply grid_spec.
    apply (cell_inb w h (data s)); [exact Hwf|]. rewrite Hb. discriminate.
Qed.

Lemma range_NoDup n : NoDup (range n).
Proof.
  unfold range. apply NoDup_ListNoDup, List.NoDup_map_inv with (f := Z.to_nat).
  rewrite List.map_map. erewrite List.map_ext; [|intros a; apply Nat2Z.id].
  rewrite List.map_id. apply List.seq_NoDup.
Qed.

Lemma product_NoDup xs ys : NoDup xs -> NoDup ys -> NoDup (product xs ys).
Proof.
  intros Hx Hy. induction Hx as [|x xs Hnin Hx IH]; [constructor|].
  unfold product. simpl. fold (product xs ys).
  apply NoDup_app. split; [|split; [|exact IH]].
  - clear -Hy. induction Hy as [|y ys Hnin Hy IH]; [constructor|].
    simpl. constructor; [|exact IH].
    rewrite list_elem_of_In, in_map_iff. intros (y' & [= ->] & Hin).
    apply Hnin, list_elem_of_In, Hin.
  - intros [a b] H1 H2. apply product_spec in H2 as [H2 _].
    apply list_elem_of_In, in_map_iff in H1 as (y & [= <- <-] & _). contradiction.
Qed.

Section Hooks.

Variables (w h : Z).
Hypothesis Hw : 0 < w.
Hypothesis Hh : 0 < h.
Variable set_iter : pyset -> list _point.
Hypothesis set_iter_perm : set_iter_ok set_iter.
Variables (epi : _point) (fuel0 : nat) (chance : Q) (c : Z).
Hypothesis Hc : 0 <= c.

(** One turn of [while True], with what the wave did. *)
Lemma grow_unroll_desc fuel sp s :
  wf w h (data s) -> Forall (inb w h) sp ->
  exists next s1,
    wf w h (data s1) /\
    grow set_iter fuel0 w h (_PointChecker w h) chance c (S fuel) sp s =
      match next with
      | None => _finish fuel0 w h (_PointChecker w h) chance s1
      | Some heads => grow set_iter fuel0 w h (_PointChecker w h) chance c fuel heads s1
      end /\
    wave_desc w h set_iter c (Build_World (data s) (rng s) (EvWave :: trace s)) sp next s1 /\
    match next with
    | None => wave_end (data s) sp (data s1)
    | Some heads => wave_step (data s) sp heads (data s1) /\ (1 <= c -> heads <> [])
    end.
Proof.
  intros Hwf Hsp.
  set (s0 := Build_World (data s) (rng s) (EvWave :: trace s)).
  destruct (sat_total w h s0 _ _
              (sat_conj w h never s0 _ _ _
                 (wave_desc_sat w h never set_iter s0 sp c set_iter_perm Hc Hsp)
                 (wave_sat w h never set_iter set_iter_perm s0 sp c Hc Hsp)) Hwf)
    as (next & s1 & Hrun & [Hwf1 _] & (Hdesc & Hpost)).
  exists next, s1. split; [exact Hwf1|]. split; [|split; [exact Hdesc|]].
  - simpl. unfold bind at 1. unfold emit. fold s0. unfold bind at 1. rewrite Hrun.
    destruct next; reflexivity.
  - destruct next as [heads|]; [exact Hpost|apply Hpost].
Qed.

(** A run of the loop that returns has gone through [_finish], entered
    with all reached cells turned into body cells. *)
Lemma grow_ok_inv : forall fuel sp s L s',
  wf w h (data s) -> growing epi (data s) sp ->
  grow set_iter fuel0 w h (_PointChecker w h) chance c fuel sp s = (Ok L, s') ->
  exists s1, wf w h (data s1) /\ grown_up epi (data s1) /\
    _finish fuel0 w h (_PointChecker w h) chance s1 = (Ok L, s').
Proof.
  induction fuel as [|fuel IH]; intros sp s L s' Hwf Hg Hrun; [discriminate|].
  destruct (grow_unroll_desc fuel sp s Hwf (growing_inb w h epi _ _ Hwf Hg))
    as (next & s1 & Hwf1 & Heq & _ & Hpost).
  rewrite Heq in Hrun. destruct next as [heads|].
  - destruct Hpost as [Hstep _].
    exact (IH heads s1 L s' Hwf1 (growing_step _ _ _ _ _ Hg Hstep) Hrun).
  - exists s1. split; [exact Hwf1|]. split; [|exact Hrun].
    exact (growing_end _ _ _ _ Hg Hpost).
Qed.

End Hooks.

(** The state in which the loop of waves starts. *)
Lemma generate_start w h px py tape :
  0 < w -> 0 < h -> 0 <= px < w -> 0 <= py < h ->
  exists s1,
    cells_set (px, py) _SPAWNER
      (Build_World (Build_Arrays (np_full (w, h) _EMPTY)
                      (np_full (w - 1, h) false) (np_full (w, h - 1) false))
         tape []) = (Ok tt, s1) /\
    wf w h (data s1) /\ rng s1 = tape /\
    (forall q, cell (data s1) q = if decide (q = (px, py)) then _SPAWNER else _EMPTY) /\
    (forall a b, door (data s1) a b = false) /\
    growing (px, py) (data s1) [(px, py)].
Proof.
  intros Hw Hh Hx Hy.
  set (d0 := Build_Arrays _ _ _). set (s0 := Build_World d0 tape []).
  assert (Hwf0 : wf w h d0) by (repeat split; apply np_full_wf || reflexivity).
  assert (Hepi : inb w h (px, py)) by (split; assumption).
  destruct (sat_total w h s0 _ _ (cells_set_sat w h never s0 (px, py) _SPAWNER Hepi) Hwf0)
    as ([] & s1 & Hrun & [Hwf1 _] & (Hr & Hds & Hcell)).
  assert (Hcell0 : forall q, cell d0 q = _EMPTY) by (intros q; apply (cell_full (w, h))).
  assert (Hcell1 : forall q, cell (data s1) q =
                     if decide (q = (px, py)) then _SPAWNER else _EMPTY).
  { intros q. rewrite Hcell, Hcell0. reflexivity. }
  assert (Hdoor1 : forall a b, door (data s1) a b = false).
  { intros a b. rewrite (doors_same_door _ _ a b Hds). apply door_full. }
  exists s1. split; [exact Hrun|]. split; [exact Hwf1|]. split; [exact Hr|].
  split; [exact Hcell1|]. split; [exact Hdoor1|].
  split; [|split; [|split; [|split]]].
  - intros p. rewrite Hcell1. destruct (decide _); auto.
  - intros p. rewrite Hcell1, list_elem_of_singleton.
    destruct (decide _); [tauto|]. split; [discriminate|contradiction].
  - intros a b Hd. rewrite Hdoor1 in Hd. discriminate.
  - rewrite Hcell1, decide_True by reflexivity. discriminate.
  - intros a. rewrite Hcell1. destruct (decide (a = (px, py))) as [->|_].
    + intros _. apply rtc_refl.
    + intros H. congruence.
Qed.

(** A layout that [generate] returns came out of [_finish]. *)
Lemma generate_ok_inv set_iter fuel w h px py chance c tape L :
  set_iter_ok set_iter ->
  run_outcome (generate set_iter fuel w h px py chance c tape) = Ok L ->
  0 < w /\ 0 < h /\
  exists s1 s', wf w h (data s1) /\ grown_up (px, py) (data s1) /\
    _finish fuel w h (_PointChecker w h) chance s1 = (Ok L, s').
Proof.
  intros Hsi H. pose proof (generate_ok_valid _ _ _ _ _ _ _ _ _ _ H) as Hv.
  pose proof Hv as (Hw & Hh & Hx & Hy & _ & _ & Hc).
  split; [exact Hw|]. split; [exact Hh|].
  rewrite (generate_valid _ _ _ _ _ _ _ _ _ Hv) in H.
  destruct (generate_start w h px py tape Hw Hh Hx Hy)
    as (s1 & Hrun & Hwf1 & _ & _ & _ & Hg).
  rewrite (bind_ok _ _ _ _ _ Hrun) in H.
  destruct (grow set_iter fuel w h (_PointChecker w h) chance c fuel [(px, py)] s1)
    as [o s2] eqn:Hgrow.
  unfold run_outcome in H. simpl in H. subst o.
  destruct (grow_ok_inv w h set_iter Hsi (px, py) fuel chance c Hc fuel
              [(px, py)] s1 L s2 Hwf1 Hg Hgrow) as (s3 & Hwf3 & Hup & Hfin).
  exists s3, s2. auto.
Qed.

Lemma sat_ok {A} w h Al s (m : M A) (P : A -> World -> Prop) a s' :
  sat w h Al s m P -> wf w h (data s) -> m s = (Ok a, s') -> P a s'.
Proof. intros H Hwf Hrun. specialize (H Hwf). rewrite Hrun in H. apply H. Qed.

(** The four arrays that [generate] returns have the shapes [(w, h)],
    [(w - 1, h - 1)], [(w - 1, h)] and [(w, h - 1)]: the occupied mask, the
    big-cell mask, the horizontal doors and the vertical doors. *)
Theorem layout_shapes set_iter fuel w h px py chance c tape L :
  set_iter_ok set_iter ->
  run_outcome (generate set_iter fuel w h px py chance c tape) = Ok L ->
  nd_shape (out_cells L) = (w, h) /\
  nd_shape (out_big_cells L) = (w - 1, h - 1) /\
  nd_shape (out_hor_doors L) = (w - 1, h) /\
  nd_shape (out_ver_doors L) = (w, h - 1) /\
  shaped w h L.
Proof.
  intros Hsi H.
  destruct (generate_ok_inv _ _ _ _ _ _ _ _ _ _ Hsi H)
    as (Hw & Hh & s1 & s' & Hwf1 & _ & Hfin).
  assert (Hs : shaped w h L).
  { apply (sat_ok w h anything s1 _ _ L s'
             (_finish_strong_sat w h anything fuel s1 chance Hw Hh
                (fun _ => I) (fun _ => I)) Hwf1 Hfin). }
  pose proof Hs as ((? & _) & (? & _) & (? & _) & (? & _)). auto.
Qed.

Lemma layout_shapes_witness :
  set_iter_ok insertion_order /\
  run_outcome (generate insertion_order 8 4 2 1 0 default_chance default_c tape_4x2)
  = Ok layout_4x2 /\
  nd_shape (out_cells layout_4x2) = (4, 2) /\
  nd_shape (out_big_cells layout_4x2) = (4 - 1, 2 - 1) /\
  nd_shape (out_hor_doors layout_4x2) = (4 - 1, 2) /\
  nd_shape (out_ver_doors layout_4x2) = (4, 2 - 1) /\
  shaped 4 2 layout_4x2.
Proof.
  assert (Hsi : set_iter_ok insertion_order) by (intros s; reflexivity).
  assert (Hrun : run_outcome
                   (generate insertion_order 8 4 2 1 0 default_chance default_c tape_4x2)
                 = Ok layout_4x2) by (vm_compute; reflexivity).
  split; [exact Hsi|]. split; [exact Hrun|].
  exact (layout_shapes insertion_order 8 4 2 1 0 default_chance default_c
           tape_4x2 layout_4x2 Hsi Hrun).
Defined.

(** The chests are listed in the order in which [_finish] scans the grid
    (first by [x], then by [y]), and no cell is listed twice. *)
Theorem chests_in_scan_order set_iter fuel w h px py chance c tape L :
  set_iter_ok set_iter ->
  run_outcome (generate set_iter fuel w h px py chance c tape) = Ok L ->
  sublist (out_chests L) (product (range w) (range h)) /\ NoDup (out_chests L).
Proof.
  intros Hsi H.
  destruct (generate_ok_inv _ _ _ _ _ _ _ _ _ _ Hsi H)
    as (Hw & Hh & s1 & s' & Hwf1 & _ & Hfin).
  assert (Hsub : sublist (out_chests L) (product (range w) (range h))).
  { apply (sat_ok w h anything s1 _ _ L s'
             (_finish_strong_sat w h anything fuel s1 chance Hw Hh
                (fun _ => I) (fun _ => I)) Hwf1 Hfin). }
  split; [exact Hsub|].
  eapply sublist_NoDup; [|exact Hsub].
  apply product_NoDup; apply range_NoDup.
Qed.

Lemma chests_in_scan_order_witness :
  set_iter_ok insertion_order /\
  run_outcome (generate insertion_order 6 3 2 2 0 default_chance 1 tape_3x2)
  = Ok layout_3x2 /\
  sublist (out_chests layout_3x2) (product (range 3) (range 2)) /\
  NoDup (out_chests layout_3x2).
Proof.
  assert (Hsi : set_iter_ok insertion_order) by (intros s; reflexivity).
  assert (Hrun : run_outcome (generate insertion_order 6 3 2 2 0 default_chance 1 tape_3x2)
                 = Ok layout_3x2) by (vm_compute; reflexivity).
  split; [exact Hsi|]. split; [exact Hrun|].
  exact (chests_in_scan_order insertion_order 6 3 2 2 0 default_chance 1
           tape_3x2 layout_3x2 Hsi Hrun).
Defined.

Lemma generate_finish_post set_iter fuel w h px py chance c tape L :
  set_iter_ok set_iter ->
  run_outcome (generate set_iter fuel w h px py chance c tape) = Ok L ->
  exists d, wf w h d /\ grown_up (px, py) d /\ finish_post d L /\ shaped w h L.
Proof.
  intros Hsi H.
  destruct (generate_ok_inv _ _ _ _ _ _ _ _ _ _ Hsi H)
    as (Hw & Hh & s1 & s' & Hwf1 & Hup & Hfin).
  exists (data s1). split; [exact Hwf1|]. split; [exact Hup|]. split.
  - apply (sat_ok w h anything s1 _ _ L s'
             (_finish_sat w h Hw Hh anything fuel I (fun _ => I) s1 chance) Hwf1 Hfin).
  - apply (sat_ok w h anything s1 _ _ L s'
             (_finish_strong_sat w h anything fuel s1 chance Hw Hh
                (fun _ => I) (fun _ => I)) Hwf1 Hfin).
Qed.

(** In every layout that [generate] returns the epicentre is occupied or
    part of a big room, and every cell that is occupied or part of a big
    room lies in the grid. *)
Theorem epicentre_is_covered set_iter fuel w h px py chance c tape L :
  set_iter_ok set_iter ->
  run_outcome (generate set_iter fuel w h px py chance c tape) = Ok L ->
  covered L (px, py) = true /\
  forall q, covered L q = true -> _PointChecker w h q = true.
Proof.
  intros Hsi H.
  destruct (generate_finish_post _ _ _ _ _ _ _ _ _ _ Hsi H)
    as (d & Hwf & Hup & Hfin & _).
  split.
  - apply (covered_body (px, py) d L Hup Hfin). apply Hup.
  - intros q Hq. apply (covered_body (px, py) d L Hup Hfin) in Hq.
    apply checker_inb. apply (cell_inb w h d); [exact Hwf|]. rewrite Hq. discriminate.
Qed.

Lemma epicentre_is_covered_witness :
  set_iter_ok insertion_order /\
  run_outcome (generate insertion_order 6 3 2 2 0 default_chance 1 tape_3x2)
  = Ok layout_3x2 /\
  covered layout_3x2 (2, 0) = true /\
  forall q, covered layout_3x2 q = true -> _PointChecker 3 2 q = true.
Proof.
  assert (Hsi : set_iter_ok insertion_order) by (intros s; reflexivity).
  assert (Hrun : run_outcome (generate insertion_order 6 3 2 2 0 default_chance 1 tape_3x2)
                 = Ok layout_3x2) by (vm_compute; reflexivity).
  split; [exact Hsi|]. split; [exact Hrun|].
  exact (epicentre_is_covered insertion_order 6 3 2 2 0 default_chance 1
           tape_3x2 layout_3x2 Hsi Hrun).
Defined.

(** A big room of a returned layout lies in the grid; its four cells are
    no longer occupied but count as covered, and no door between two of
    them is open. *)
Theorem big_rooms_are_closed set_iter fuel w h px py chance c tape L k :
  set_iter_ok set_iter ->
  run_outcome (generate set_iter fuel w h px py chance c tape) = Ok L ->
  big_at L k = true ->
  (0 <= fst k <= w - 2 /\ 0 <= snd k <= h - 2) /\
  (forall q, q ∈ block k -> occupied L q = false /\ covered L q = true) /\
  (forall a b, a ∈ block k -> b ∈ block k -> door_open L a b = false).
Proof.
  intros Hsi H Hk.
  destruct (generate_finish_post _ _ _ _ _ _ _ _ _ _ Hsi H)
    as (d & Hwf & Hup & (d2 & _ & _ & _ & _ & _ & Hocc & Hdoor) & (_ & Hmask & _)).
  split; [|split].
  - apply (flag_inb _ _ _ _ Hmask) in Hk. unfold inb in Hk. lia.
  - intros q Hq.
    assert (Hno : occupied L q = false).
    { destruct (occupied L q) eqn:E; [|reflexivity].
      apply Hocc in E as [_ E]. exfalso. apply E. exists k. auto. }
    split; [exact Hno|]. unfold covered, absorbed. rewrite Hno. simpl.
    apply existsb_exists. exists k. split; [|exact Hk].
    apply list_elem_of_In, corners_block, Hq.
  - intros a b Ha Hb. destruct (door_open L a b) eqn:E; [|reflexivity].
    apply Hdoor in E as [_ E]. exfalso. apply E. exists k. auto.
Qed.

Lemma big_rooms_are_closed_witness :
  set_iter_ok insertion_order /\
  run_outcome (generate insertion_order 8 4 2 1 0 default_chance default_c tape_4x2)
  = Ok layout_4x2 /\
  big_at layout_4x2 (1, 0) = true /\
  (0 <= fst (1, 0) <= 4 - 2 /\ 0 <= snd (1, 0) <= 2 - 2) /\
  (forall q, q ∈ block (1, 0) ->
     occupied layout_4x2 q = false /\ covered layout_4x2 q = true) /\
  (forall a b, a ∈ block (1, 0) -> b ∈ block (1, 0) -> door_open layout_4x2 a b = false).
Proof.
  assert (Hsi : set_iter_ok insertion_order) by (intros s; reflexivity).
  assert (Hrun : run_outcome
                   (generate insertion_order 8 4 2 1 0 default_chance default_c tape_4x2)
                 = Ok layout_4x2) by (vm_compute; reflexivity).
  assert (Hk : big_at layout_4x2 (1, 0) = true) by reflexivity.
  split; [exact Hsi|]. split; [exact Hrun|]. split; [exact Hk|].
  exact (big_rooms_are_closed insertion_order 8 4 2 1 0 default_chance default_c
           tape_4x2 layout_4x2 (1, 0) Hsi Hrun Hk).
Defined.

(** ** When [generate] returns and when it raises *)

Lemma grown_up_linked epi d :
  grown_up epi d -> (exists q, q <> epi /\ cell d q = _BODY) -> linked_up d.
Proof.
  intros (Hcells & Hdoors & Hepi & Hreach) (q0 & Hne & Hq0) p Hp.
  destruct (decide (p = epi)) as [->|Hp'].
  - pose proof (Hreach q0 Hq0) as Hr.
    apply rtc_inv in Hr as [Heq|(y & Hl & _)]; [congruence|].
    unfold linked in Hl. exists y. split; [eapply door_nbrs, Hl|].
    split; [apply (Hdoors _ _ Hl)|exact Hl].
  - pose proof (Hreach p Hp) as Hr.
    apply rtc_inv_r in Hr as [Heq|(y & _ & Hl)]; [congruence|].
    unfold linked in Hl. rewrite door_sym in Hl. exists y.
    split; [eapply door_nbrs, Hl|]. split; [|exact Hl].
    rewrite door_sym in Hl. apply (Hdoors _ _ Hl).
Qed.

Lemma bind_fst_raise {A B} (m : M A) (k : A -> M B) s e :
  fst (m s) = Raise e -> fst (bind m k s) = Raise e.
Proof. unfold bind. destruct (m s) as [o s']. simpl. intros ->. reflexivity. Qed.

Lemma body_dirs_nil w h d p :
  wf w h d -> (forall q, q <> p -> cell d q = _EMPTY) -> body_dirs w h d p = [].
Proof.
  intros Hwf Hothers. destruct (body_dirs w h d p) as [|dir ds] eqn:E; [reflexivity|].
  assert (Hin : dir ∈ body_dirs w h d p) by (rewrite E; apply list_elem_of_here).
  apply (body_dirs_spec w h d p dir Hwf) in Hin as [_ Hc].
  rewrite Hothers in Hc; [discriminate|].
  intros Heq. apply (nbrs_irrefl p). rewrite <- Heq at 1. apply nbr_nbrs.
Qed.

(** The pass over the dead ends fails on a lonely epicentre. *)
Lemma pass_raises w h fuel chance epi : forall l acc s,
  wf w h (data s) -> lonely_body epi (data s) ->
  Forall (inb w h) l -> epi ∈ l ->
  fst (foldM (fun chests cell =>
                r <- _process_as_if_dead_end fuel cell (_PointChecker w h) chance ;;
                ret (if default false r then chests ++ [cell] else chests))
         acc l s)%M = Raise remove_error.
Proof.
  induction l as [|x l IH]; intros acc s Hwf [Hepi Hothers] Hl Hin.
  - apply elem_of_nil in Hin as [].
  - assert (Hx : inb w h x) by (apply (Forall_inv Hl)).
    destruct (process_cases w h fuel s x chance Hwf Hx) as (o & s' & Hrun & Hq & Hcase).
    unfold dead_end_case in Hcase. simpl.
    destruct (decide (cell (data s) x = _BODY)) as [Hb|Hb].
    + assert (x = epi) as ->.
      { destruct (decide (x = epi)) as [?|Hne]; [assumption|].
        rewrite (Hothers x Hne) in Hb. discriminate. }
      rewrite (body_dirs_nil w h (data s) epi Hwf Hothers) in Hcase. simpl in Hcase.
      destruct Hcase as [-> _].
      apply bind_fst_raise, bind_fst_raise. rewrite Hrun. reflexivity.
    + destruct Hcase as [-> [Hd _]].
      assert (Hne : x <> epi) by (intros ->; contradiction).
      rewrite (bind_ok _ _ s acc s').
      2:{ rewrite (bind_ok _ _ _ _ _ Hrun). reflexivity. }
      apply IH.
      * apply Hq.
      * rewrite Hd. split; assumption.
      * apply (Forall_inv_tail Hl).
      * apply elem_of_cons in Hin as [Heq|Hin]; [congruence|exact Hin].
Qed.

Lemma finish_np_raises refused w h fuel chance epi s :
  wf w h (data s) -> inb w h epi -> lonely_body epi (data s) ->
  fst (_finish_np refused fuel w h (_PointChecker w h) chance s) = Raise remove_error.
Proof.
  intros Hwf Hepi Hl. unfold _finish_np. apply bind_fst_raise.
  apply (pass_raises w h fuel chance epi); [exact Hwf|exact Hl| |apply grid_spec, Hepi].
  apply Forall_forall. intros p Hp. apply grid_spec, Hp.
Qed.

Lemma bind_ext {A B} (m : M A) (k1 k2 : A -> M B) s :
  (forall a s', k1 a s' = k2 a s') -> bind m k1 s = bind m k2 s.
Proof. intros H. unfold bind. destruct (m s) as [[a|e|] s']; auto. Qed.

(** Where numpy builds the two arrays of [_finish], the two models of it
    agree. *)
Lemma _finish_np_accepts refused fuel w h filter_ chance s :
  finish_refusal refused w h = None ->
  _finish_np refused fuel w h filter_ chance s = _finish fuel w h filter_ chance s.
Proof.
  unfold finish_refusal. intros H.
  destruct (refused DBool (w - 1, h - 1)) as [m|] eqn:E1; [discriminate|].
  unfold _finish_np, _finish, np_new. rewrite E1, H.
  apply bind_ext. intros chests s1. unfold bind at 1. unfold ret at 1.
  apply bind_ext. intros cands s2. apply bind_ext. intros big s3.
  unfold bind at 1. unfold ret at 1. reflexivity.
Qed.

Lemma grow_np_accepts refused set_iter fuel0 w h filter_ chance c :
  finish_refusal refused w h = None ->
  forall fuel sp s,
    grow_np refused set_iter fuel0 w h filter_ chance c fuel sp s
    = grow set_iter fuel0 w h filter_ chance c fuel sp s.
Proof.
  intros H. induction fuel as [|fuel IH]; intros sp s; [reflexivity|].
  simpl. apply bind_ext. intros _ s1. apply bind_ext. intros [heads|] s2.
  - apply IH.
  - apply _finish_np_accepts, H.
Qed.

Lemma bind_ok_inv {A B} (m : M A) (k : A -> M B) s b s' :
  bind m k s = (Ok b, s') -> exists a s1, m s = (Ok a, s1) /\ k a s1 = (Ok b, s').
Proof.
  unfold bind. destruct (m s) as [[a|e|] s1]; [|discriminate|discriminate].
  intros H. exists a, s1. split; [reflexivity|exact H].
Qed.

(** Where numpy refuses one of the two arrays of [_finish], a run of
    [_finish] that would return ends on that refusal. *)
Lemma _finish_np_refused refused fuel w h filter_ chance s msg L s' :
  finish_refusal refused w h = Some msg ->
  _finish fuel w h filter_ chance s = (Ok L, s') ->
  fst (_finish_np refused fuel w h filter_ chance s) = Raise (ValueError msg).
Proof.
  unfold finish_refusal. intros H Hrun. unfold _finish in Hrun.
  apply bind_ok_inv in Hrun as (chests & s1 & Hpass & Hrun).
  unfold _finish_np. rewrite (bind_ok _ _ _ _ _ Hpass). unfold np_new.
  destruct (refused DBool (w - 1, h - 1)) as [m|] eqn:E1.
  - injection H as ->. reflexivity.
  - apply bind_ok_inv in Hrun as (cands & s2 & Hcands & Hrun).
    apply bind_ok_inv in Hrun as (big & s3 & Hbig & Hrun).
    rewrite (bind_ok _ _ s1 (np_full (w - 1, h - 1) false) s1) by reflexivity.
    rewrite (bind_ok _ _ _ _ _ Hcands), (bind_ok _ _ _ _ _ Hbig), H. reflexivity.
Qed.

Lemma grow_np_refused refused set_iter fuel0 w h filter_ chance c msg :
  finish_refusal refused w h = Some msg ->
  forall fuel sp s L s',
    grow set_iter fuel0 w h filter_ chance c fuel sp s = (Ok L, s') ->
    fst (grow_np refused set_iter fuel0 w h filter_ chance c fuel sp s)
    = Raise (ValueError msg).
Proof.
  intros H. induction fuel as [|fuel IH]; intros sp s L s' Hrun; [discriminate|].
  simpl in Hrun.
  apply bind_ok_inv in Hrun as ([] & s1 & Hemit & Hrun).
  apply bind_ok_inv in Hrun as (next & s2 & Hwave & Hrun).
  simpl. rewrite (bind_ok _ _ _ _ _ Hemit), (bind_ok _ _ _ _ _ Hwave).
  destruct next as [heads|].
  - exact (IH heads s2 L s' Hrun).
  - exact (_finish_np_refused refused fuel0 w h filter_ chance s2 msg L s' H Hrun).
Qed.

Section Outcome.

Variables (w h : Z).
Hypothesis Hw : 0 < w.
Hypothesis Hh : 0 < h.
Variable set_iter : pyset -> list _point.
Hypothesis set_iter_perm : set_iter_ok set_iter.
Variables (epi : _point) (fuel0 : nat) (chance : Q) (c : Z).
Hypothesis Hc : 0 <= c.
Variable refused : dtype -> Z * Z -> option string.

Lemma grow_np_unroll_desc fuel sp s :
  wf w h (data s) -> Forall (inb w h) sp ->
  exists next s1,
    wf w h (data s1) /\
    grow_np refused set_iter fuel0 w h (_PointChecker w h) chance c (S fuel) sp s =
      match next with
      | None => _finish_np refused fuel0 w h (_PointChecker w h) chance s1
      | Some heads =>
          grow_np refused set_iter fuel0 w h (_PointChecker w h) chance c fuel heads s1
      end /\
    wave_desc w h set_iter c (Build_World (data s) (rng s) (EvWave :: trace s)) sp next s1 /\
    match next with
    | None => wave_end (data s) sp (data s1)
    | Some heads => wave_step (data s) sp heads (data s1) /\ (1 <= c -> heads <> [])
    end.
Proof.
  intros Hwf Hsp.
  set (s0 := Build_World (data s) (rng s) (EvWave :: trace s)).
  destruct (sat_total w h s0 _ _
              (sat_conj w h never s0 _ _ _
                 (wave_desc_sat w h never set_iter s0 sp c set_iter_perm Hc Hsp)
                 (wave_sat w h never set_iter set_iter_perm s0 sp c Hc Hsp)) Hwf)
    as (next & s1 & Hrun & [Hwf1 _] & (Hdesc & Hpost)).
  exists next, s1. split; [exact Hwf1|]. split; [|split; [exact Hdesc|]].
  - simpl. unfold bind at 1. unfold emit. fold s0. unfold bind at 1. rewrite Hrun.
    destruct next; reflexivity.
  - destruct next as [heads|]; [exact Hpost|apply Hpost].
Qed.

Lemma vacancies_left sp s next s1 :
  wave_desc w h set_iter c (Build_World (data s) (rng s) (EvWave :: trace s)) sp next s1 ->
  match next with
  | None => forall q, ~ vacant w h (data s) sp q
  | Some _ => exists q, vacant w h (data s) sp q
  end.
Proof.
  intros (vac & u & Hvac & _ & D). simpl in Hvac. destruct next as [heads|].
  - destruct D as (HL & _). destruct vac as [|q vac]; [contradiction|].
    exists q. apply Hvac, list_elem_of_here.
  - destruct D as (HL & _). apply set_len_0 in HL. subst vac.
    intros q Hq. apply Hvac in Hq. apply elem_of_nil in Hq as [].
Qed.

(** With at least one head per wave, a growth that has started does not end
    on the error of [dirs.remove(first)]. *)
Lemma grow_no_remove_error : 1 <= c -> forall fuel sp s,
  wf w h (data s) -> growing epi (data s) sp -> started w h epi (data s) sp ->
  fst (grow set_iter fuel0 w h (_PointChecker w h) chance c fuel sp s)
  <> Raise remove_error.
Proof.
  intros Hc1. induction fuel as [|fuel IH]; intros sp s Hwf Hg Hst; [discriminate|].
  destruct (grow_unroll_desc w h set_iter set_iter_perm fuel0 chance c Hc fuel sp s Hwf
              (growing_inb w h epi _ _ Hwf Hg))
    as (next & s1 & Hwf1 & -> & Hdesc & Hpost).
  apply vacancies_left in Hdesc.
  destruct next as [heads|].
  - destruct Hpost as [Hstep Hne].
    apply IH; [exact Hwf1|exact (growing_step _ _ _ _ _ Hg Hstep)|].
    left. destruct heads as [|hd tl]; [destruct (Hne Hc1 eq_refl)|].
    destruct Hstep as (H1 & H2 & _).
    destruct (H1 hd (list_elem_of_here _ _)) as [Hempty _].
    exists hd. split.
    + intros ->. destruct Hg as (_ & _ & _ & Hepi & _). contradiction.
    + rewrite H2, decide_True by apply list_elem_of_here. discriminate.
  - destruct Hst as [(q & Hne & Hq)|(q & Hq)]; [|destruct (Hdesc q Hq)].
    pose proof (growing_end _ _ _ _ Hg Hpost) as Hup.
    assert (Hlink : linked_up (data s1)).
    { apply (grown_up_linked epi _ Hup). exists q. split; [exact Hne|].
      destruct Hpost as [_ Hcell]. destruct Hup as (Hcases & _).
      destruct (Hcases q) as [He|Hb]; [|exact Hb].
      rewrite Hcell in He. destruct (decide (q ∈ sp)); [discriminate|contradiction]. }
    pose proof (_finish_strong_sat w h no_remove_error fuel0 s1 chance Hw Hh
                  (fun Hn => False_ind _ (Hn Hlink)) (fun _ => ltac:(discriminate)) Hwf1)
      as Hfin.
    destruct (_finish fuel0 w h (_PointChecker w h) chance s1) as [[L|e|] s2]; simpl.
    + discriminate.
    + destruct Hfin as [_ Hfin]. intros [= ->]. apply Hfin. reflexivity.
    + discriminate.
Qed.

(** Without a head, the epicentre stays alone and the run ends on the
    error of [dirs.remove(first)], before [_finish] builds an array. *)
Lemma grow_lonely_body fuel s :
  wf w h (data s) -> inb w h epi -> lonely_body epi (data s) ->
  fst (grow_np refused set_iter fuel0 w h (_PointChecker w h) chance c (S fuel) [] s)
  = Raise remove_error.
Proof.
  intros Hwf Hepi Hl.
  destruct (grow_np_unroll_desc fuel [] s Hwf
              (Forall_nil_2 _))
    as (next & s1 & Hwf1 & -> & Hdesc & Hpost).
  apply vacancies_left in Hdesc.
  destruct next as [heads|].
  - destruct Hdesc as (q & sp & Hsp & _). apply elem_of_nil in Hsp as [].
  - apply (finish_np_raises refused w h fuel0 chance epi s1 Hwf1 Hepi).
    destruct Hpost as [_ Hcell]. destruct Hl as [Hb Ho]. split.
    + rewrite Hcell, decide_False by apply not_elem_of_nil. exact Hb.
    + intros q Hq. rewrite Hcell, decide_False by apply not_elem_of_nil. auto.
Qed.

Lemma no_heads_chosen vac u heads s2 :
  c = 0 -> head_choice set_iter c vac u = (Ok heads, s2) -> set_len vac <> 0%nat ->
  heads = [].
Proof.
  intros -> Hrun HL. unfold head_choice in Hrun.
  replace (0 <? Z.of_nat (set_len vac)) with true in Hrun
    by (symmetry; apply Z.ltb_lt; lia).
  unfold random_sample in Hrun. simpl in Hrun.
  replace (Z.of_nat (length (sorted vac)) <? 0) with false in Hrun
    by (symmetry; apply Z.ltb_ge; lia).
  simpl in Hrun. injection Hrun as <- _. reflexivity.
Qed.

Lemma grow_lonely_spawner fuel s :
  c = 0 \/ w * h = 1 ->
  wf w h (data s) -> inb w h epi ->
  cell (data s) epi = _SPAWNER -> (forall q, q <> epi -> cell (data s) q = _EMPTY) ->
  fst (grow_np refused set_iter fuel0 w h (_PointChecker w h) chance c (S (S fuel)) [epi] s)
  = Raise remove_error.
Proof.
  intros Hcase Hwf Hepi Hsp Hothers.
  destruct (grow_np_unroll_desc (S fuel) [epi] s
              Hwf (Forall_cons_2 _ _ _ Hepi (Forall_nil_2 _)))
    as (next & s1 & Hwf1 & -> & Hdesc & Hpost).
  destruct next as [heads|].
  - assert (heads = []) as ->.
    { destruct Hcase as [Hc0|Hone].
      - destruct Hdesc as (vac & u & _ & _ & HL & (s2 & Hrun & _) & _).
        exact (no_heads_chosen vac u heads s2 Hc0 Hrun HL).
      - apply vacancies_left in Hdesc. destruct Hdesc as (q & sp & Hin & Hq & Hinb & _).
        apply list_elem_of_singleton in Hin as ->. exfalso.
        assert (w = 1 /\ h = 1) as [-> ->] by nia.
        assert (q = epi) as ->.
        { destruct epi as [x y], q as [x' y']. unfold inb in Hepi, Hinb.
          simpl in Hepi, Hinb. f_equal; lia. }
        exact (nbrs_irrefl _ Hq). }
    apply grow_lonely_body; [exact Hwf1|exact Hepi|].
    destruct Hpost as [(_ & Hcell & _) _]. split.
    + rewrite Hcell, decide_False by apply not_elem_of_nil.
      rewrite decide_True by apply list_elem_of_here. reflexivity.
    + intros q Hq. rewrite Hcell, decide_False by apply not_elem_of_nil.
      rewrite decide_False by (rewrite list_elem_of_singleton; exact Hq). auto.
  - apply (finish_np_raises refused w h fuel0 chance epi s1 Hwf1 Hepi).
    destruct Hpost as [_ Hcell]. split.
    + rewrite Hcell, decide_True by apply list_elem_of_here. reflexivity.
    + intros q Hq. rewrite Hcell.
      rewrite decide_False by (rewrite list_elem_of_singleton; exact Hq). auto.
Qed.

End Outcome.

Lemma neighbour_in_grid w h px py :
  0 <= px < w -> 0 <= py < h -> 2 <= w * h ->
  exists q, q ∈ nbrs (px, py) /\ inb w h q.
Proof.
  intros Hx Hy Hwh. unfold nbrs, inb.
  destruct (decide (2 <= w)) as [Hw|Hw].
  - destruct (decide (px + 1 < w)).
    + exists (px + 1, py). rewrite !elem_of_cons. simpl. split; [auto|lia].
    + exists (px - 1, py). rewrite !elem_of_cons. simpl. split; [auto|lia].
  - assert (2 <= h) by nia.
    destruct (decide (py + 1 < h)).
    + exists (px, py + 1). rewrite !elem_of_cons. simpl. split; [auto 10|lia].
    + exists (px, py - 1). rewrite !elem_of_cons. simpl. split; [auto 10|lia].
Qed.

(** On every valid input with at least one head per wave ([c >= 1]) and a
    grid of more than one cell, [generate] returns a layout: it raises
    nothing, and [max(w * h, 3)] units of fuel are enough for its loops. *)
Lemma generate_total set_iter fuel w h px py chance c tape :
  set_iter_ok set_iter -> valid_input w h px py chance c ->
  1 <= c -> 2 <= w * h -> Z.max (w * h) 3 <= Z.of_nat fuel ->
  exists L, run_outcome (generate set_iter fuel w h px py chance c tape) = Ok L.
Proof.
  intros Hsi Hv Hc1 Hwh Hfuel.
  pose proof (generate_run set_iter fuel w h px py chance c tape Hsi Hv)
    as (_ & _ & Hraise & Hdiv).
  destruct (Hdiv Hc1) as [_ Hnd]. specialize (Hnd Hfuel).
  assert (Hnr : run_outcome (generate set_iter fuel w h px py chance c tape)
                <> Raise remove_error).
  { pose proof Hv as (Hw & Hh & Hx & Hy & _ & _ & Hc).
    rewrite (generate_valid _ _ _ _ _ _ _ _ _ Hv).
    destruct (generate_start w h px py tape Hw Hh Hx Hy)
      as (s1 & Hrun & Hwf1 & _ & Hcell & _ & Hg).
    rewrite (bind_ok _ _ _ _ _ Hrun).
    assert (Hgrow : fst (grow set_iter fuel w h (_PointChecker w h) chance c fuel
                           [(px, py)] s1) <> Raise remove_error).
    { apply (grow_no_remove_error w h Hw Hh set_iter Hsi (px, py) fuel chance c Hc Hc1
               fuel [(px, py)] s1 Hwf1 Hg).
      right. destruct (neighbour_in_grid w h px py Hx Hy Hwh) as (q & Hq & Hin).
      exists q, (px, py). split; [apply list_elem_of_here|]. split; [exact Hq|].
      split; [exact Hin|]. rewrite Hcell. apply decide_False. intros ->.
      exact (nbrs_irrefl _ Hq). }
    destruct (grow set_iter fuel w h (_PointChecker w h) chance c fuel [(px, py)] s1)
      as [o s2].
    exact Hgrow. }
  destruct (run_outcome (generate set_iter fuel w h px py chance c tape)) as [L|e|].
  - exists L. reflexivity.
  - rewrite (Hraise e eq_refl) in Hnr. contradiction.
  - contradiction.
Qed.

(** On a valid input the checks of the arguments pass: the run ends on the
    first refusal among the arrays of [data], or goes into the loop. *)
Lemma generate_np_valid refused set_iter fuel w h px py chance c tape :
  valid_input w h px py chance c ->
  generate_np refused set_iter fuel w h px py chance c tape =
  match start_refusal refused w h with
  | Some msg => (Raise (ValueError msg), tape, [])
  | None =>
      let '(o, s) :=
        bind (cells_set (px, py) _SPAWNER)
          (fun _ => grow_np refused set_iter fuel w h (_PointChecker w h) chance c fuel
                      [(px, py)])
          (Build_World (Build_Arrays (np_full (w, h) _EMPTY)
                          (np_full (w - 1, h) false) (np_full (w, h - 1) false))
             tape []) in
      (o, rng s, trace s)
  end.
Proof.
  intros (Hw & Hh & Hx & Hy & H0 & H1 & Hc). unfold generate_np, start_refusal.
  replace (w <=? 0) with false by (symmetry; apply Z.leb_gt; lia).
  replace (h <=? 0) with false by (symmetry; apply Z.leb_gt; lia).
  replace ((0 <=? px) && (px <? w)) with true
    by (symmetry; apply andb_true_iff; split; [apply Z.leb_le|apply Z.ltb_lt]; lia).
  replace ((0 <=? py) && (py <? h)) with true
    by (symmetry; apply andb_true_iff; split; [apply Z.leb_le|apply Z.ltb_lt]; lia).
  rewrite (Qlt_b_true 0 chance H0), (Qlt_b_true chance 1 H1).
  replace (c <? 0) with false by (symmetry; apply Z.ltb_ge; lia).
  simpl negb. cbv iota.
  destruct (refused DInt (w, h)); [reflexivity|].
  destruct (refused DBool (w - 1, h)); [reflexivity|].
  destruct (refused DBool (w, h - 1)); reflexivity.
Qed.

(** Where numpy builds the five arrays, [generate_np] is [generate]. *)
Lemma generate_np_accepts refused set_iter fuel w h px py chance c tape :
  valid_input w h px py chance c -> refusal refused w h = None ->
  generate_np refused set_iter fuel w h px py chance c tape
  = generate set_iter fuel w h px py chance c tape.
Proof.
  intros Hv H. unfold refusal in H.
  destruct (start_refusal refused w h) as [m|] eqn:E; [discriminate|].
  rewrite (generate_np_valid _ _ _ _ _ _ _ _ _ _ Hv), E,
    (generate_valid _ _ _ _ _ _ _ _ _ Hv).
  rewrite (bind_ext _ _
             (fun _ => grow set_iter fuel w h (_PointChecker w h) chance c fuel
                         [(px, py)])).
  - reflexivity.
  - intros _ s'. apply grow_np_accepts, H.
Qed.

(** On every valid input with at least one head per wave ([c >= 1]) and a
    grid of more than one cell, a run with [max(w * h, 3)] units of fuel
    ends in one of two ways. If numpy builds the five arrays of the run,
    [generate] returns a layout. If it refuses one, the run raises the
    [ValueError] of the first array refused, in the order [cells],
    [hor_doors], [ver_doors] of [generate], then [big_cells], [cells] of
    [_finish]. *)
Theorem generate_succeeds refused set_iter fuel w h px py chance c tape :
  set_iter_ok set_iter -> valid_input w h px py chance c ->
  1 <= c -> 2 <= w * h -> Z.max (w * h) 3 <= Z.of_nat fuel ->
  match refusal refused w h with
  | None =>
      exists L,
        run_outcome (generate_np refused set_iter fuel w h px py chance c tape) = Ok L
  | Some msg =>
      run_outcome (generate_np refused set_iter fuel w h px py chance c tape)
      = Raise (ValueError msg)
  end.
Proof.
  intros Hsi Hv Hc1 Hwh Hfuel.
  destruct (generate_total set_iter fuel w h px py chance c tape Hsi Hv Hc1 Hwh Hfuel)
    as (L & HL).
  destruct (refusal refused w h) as [msg|] eqn:E.
  - unfold refusal in E. rewrite (generate_np_valid _ _ _ _ _ _ _ _ _ _ Hv).
    destruct (start_refusal refused w h) as [m|] eqn:E1.
    + injection E as ->. reflexivity.
    + pose proof Hv as (Hw & Hh & Hx & Hy & _).
      rewrite (generate_valid _ _ _ _ _ _ _ _ _ Hv) in HL.
      destruct (generate_start w h px py tape Hw Hh Hx Hy) as (s1 & Hrun & _).
      rewrite (bind_ok _ _ _ _ _ Hrun) in HL. rewrite (bind_ok _ _ _ _ _ Hrun).
      destruct (grow set_iter fuel w h (_PointChecker w h) chance c fuel [(px, py)] s1)
        as [o s2] eqn:Hgrow.
      unfold run_outcome in HL. simpl in HL. subst o.
      pose proof (grow_np_refused refused set_iter fuel w h (_PointChecker w h) chance c
                    msg E fuel [(px, py)] s1 L s2 Hgrow) as Hnp.
      destruct (grow_np refused set_iter fuel w h (_PointChecker w h) chance c fuel
                  [(px, py)] s1) as [o' s3].
      exact Hnp.
  - exists L. rewrite (generate_np_accepts _ _ _ _ _ _ _ _ _ _ Hv E). exact HL.
Qed.

Lemma generate_succeeds_witness :
  set_iter_ok insertion_order /\
  (valid_input 3 2 2 0 default_chance 1 /\
   1 <= 1 /\ 2 <= 3 * 2 /\ Z.max (3 * 2) 3 <= Z.of_nat 6 /\
   refusal refuse_huge 3 2 = None /\
   exists L,
     run_outcome (generate_np refuse_huge insertion_order 6 3 2 2 0 default_chance 1
                    tape_3x2) = Ok L) /\
  (valid_input (2 ^ 63) 1 0 0 default_chance 1 /\
   1 <= 1 /\ 2 <= 2 ^ 63 * 1 /\ Z.max (2 ^ 63 * 1) 3 <= Z.of_nat (Z.to_nat (2 ^ 63)) /\
   refusal refuse_huge (2 ^ 63) 1 = Some "Maximum allowed dimension exceeded"%string /\
   run_outcome (generate_np refuse_huge insertion_order (Z.to_nat (2 ^ 63)) (2 ^ 63) 1
                  0 0 default_chance 1 tape_3x2)
   = Raise (ValueError "Maximum allowed dimension exceeded")).
Proof.
  assert (Hsi : set_iter_ok insertion_order) by (intros s; reflexivity).
  assert (Hv : valid_input 3 2 2 0 default_chance 1).
  { unfold valid_input, default_chance, Qlt. simpl. lia. }
  assert (H1 : 1 <= 1) by lia. assert (H2 : 2 <= 3 * 2) by lia.
  assert (H3 : Z.max (3 * 2) 3 <= Z.of_nat 6) by lia.
  assert (Hv' : valid_input (2 ^ 63) 1 0 0 default_chance 1).
  { unfold valid_input, default_chance, Qlt. simpl. lia. }
  assert (H2' : 2 <= 2 ^ 63 * 1) by lia.
  assert (H3' : Z.max (2 ^ 63 * 1) 3 <= Z.of_nat (Z.to_nat (2 ^ 63))) by lia.
  split; [exact Hsi|]. split.
  - split; [exact Hv|]. split; [exact H1|]. split; [exact H2|]. split; [exact H3|].
    split; [reflexivity|].
    exact (generate_succeeds refuse_huge insertion_order 6 3 2 2 0 default_chance 1
             tape_3x2 Hsi Hv H1 H2 H3).
  - split; [exact Hv'|]. split; [exact H1|]. split; [exact H2'|]. split; [exact H3'|].
    split; [reflexivity|].
    exact (generate_succeeds refuse_huge insertion_order (Z.to_nat (2 ^ 63)) (2 ^ 63) 1
             0 0 default_chance 1 tape_3x2 Hsi Hv' H1 H2' H3').
Defined.

(** On every valid input with [c = 0], and on the one by one grid, no run
    returns a layout. If numpy refuses one of the three arrays of [data],
    the run raises the [ValueError] of the first one refused. Otherwise the
    epicentre stays the only body cell and the run raises the [ValueError]
    of [dirs.remove(first)] in the pass over the dead ends, before
    [_finish] builds an array; two rounds of the loop of waves are enough
    to get there. *)
Theorem generate_fails_without_heads refused set_iter fuel w h px py chance c tape :
  set_iter_ok set_iter -> valid_input w h px py chance c ->
  c = 0 \/ w * h = 1 ->
  run_outcome (generate_np refused set_iter (S (S fuel)) w h px py chance c tape)
  = Raise (match start_refusal refused w h with
           | Some msg => ValueError msg
           | None => remove_error
           end).
Proof.
  intros Hsi Hv Hcase. pose proof Hv as (Hw & Hh & Hx & Hy & _ & _ & Hc).
  rewrite (generate_np_valid _ _ _ _ _ _ _ _ _ _ Hv).
  destruct (start_refusal refused w h) as [m|]; [reflexivity|].
  destruct (generate_start w h px py tape Hw Hh Hx Hy)
    as (s1 & Hrun & Hwf1 & _ & Hcell & _ & _).
  rewrite (bind_ok _ _ _ _ _ Hrun).
  assert (Hgrow : fst (grow_np refused set_iter (S (S fuel)) w h (_PointChecker w h)
                         chance c (S (S fuel)) [(px, py)] s1) = Raise remove_error).
  { apply (grow_lonely_spawner w h Hw Hh set_iter Hsi (px, py) (S (S fuel)) chance c Hc
             refused fuel s1 Hcase Hwf1 (conj Hx Hy)).
    - rewrite Hcell, decide_True by reflexivity. reflexivity.
    - intros q Hq. rewrite Hcell, decide_False by exact Hq. reflexivity. }
  destruct (grow_np refused set_iter (S (S fuel)) w h (_PointChecker w h) chance c
              (S (S fuel)) [(px, py)] s1) as [o s2].
  exact Hgrow.
Qed.

Lemma generate_fails_without_heads_witness :
  set_iter_ok insertion_order /\
  (valid_input 5 4 2 3 default_chance 0 /\ (0 = 0 \/ 5 * 4 = 1) /\
   run_outcome (generate_np refuse_huge insertion_order 2 5 4 2 3 default_chance 0
                  [1; 2; 3])
   = Raise remove_error) /\
  (valid_input 1 (2 ^ 63) 0 0 default_chance 0 /\ (0 = 0 \/ 1 * 2 ^ 63 = 1) /\
   run_outcome (generate_np refuse_huge insertion_order 2 1 (2 ^ 63) 0 0 default_chance 0
                  [1; 2; 3])
   = Raise (ValueError "Maximum allowed dimension exceeded")).
Proof.
  assert (Hsi : set_iter_ok insertion_order) by (intros s; reflexivity).
  assert (Hv : valid_input 5 4 2 3 default_chance 0).
  { unfold valid_input, default_chance, Qlt. simpl. lia. }
  assert (Hc : 0 = 0 \/ 5 * 4 = 1) by (left; reflexivity).
  assert (Hv' : valid_input 1 (2 ^ 63) 0 0 default_chance 0).
  { unfold valid_input, default_chance, Qlt. simpl. lia. }
  assert (Hc' : 0 = 0 \/ 1 * 2 ^ 63 = 1) by (left; reflexivity).
  split; [exact Hsi|]. split.
  - split; [exact Hv|]. split; [exact Hc|].
    exact (generate_fails_without_heads refuse_huge insertion_order 0 5 4 2 3
             default_chance 0 [1; 2; 3] Hsi Hv Hc).
  - split; [exact Hv'|]. split; [exact Hc'|].
    exact (generate_fails_without_heads refuse_huge insertion_order 0 1 (2 ^ 63) 0 0
             default_chance 0 [1; 2; 3] Hsi Hv' Hc').
Defined.

(** ** Heads, chests and big rooms *)

Lemma sorted_NoDup vac : NoDup (sorted vac).
Proof. unfold sorted. rewrite merge_sort_Permutation. apply NoDup_remove_dups. Qed.

Lemma sorted_length vac : length (sorted vac) = set_len vac.
Proof. unfold sorted, set_len. rewrite merge_sort_Permutation. reflexivity. Qed.

Lemma submseteq_keeps_NoDup {A} (l k : list A) : l ⊆+ k -> NoDup k -> NoDup l.
Proof.
  intros Hsub Hk. apply submseteq_Permutation in Hsub as [k' Hp].
  rewrite Hp in Hk. apply NoDup_app in Hk. apply Hk.
Qed.

(** One round of [while True] that goes on spawns at most [c] heads, all
    different; each head was an empty cell next to a spawner, and after
    the round the heads are the spawners, the old spawners are body cells
    and no other cell has changed. *)
Theorem wave_heads_bounded set_iter w h c s spawners heads s' :
  set_iter_ok set_iter -> wf w h (data s) -> 0 <= c ->
  Forall (fun p => _PointChecker w h p = true) spawners ->
  wave set_iter (_PointChecker w h) c spawners set_empty s = (Ok (Some heads), s') ->
  Z.of_nat (length heads) <= c /\ NoDup heads /\
  (forall q, q ∈ heads ->
     cell (data s) q = _EMPTY /\
     exists sp, sp ∈ spawners /\ q ∈ _get_nbr_points sp (_PointChecker w h)) /\
  (forall q, cell (data s') q =
     if decide (q ∈ heads) then _SPAWNER
     else if decide (q ∈ spawners) then _BODY else cell (data s) q).
Proof.
  intros Hsi Hwf Hc Hsp Hrun.
  assert (Hsp' : Forall (inb w h) spawners).
  { eapply Forall_impl; [exact Hsp|]. intros p Hp. apply checker_inb, Hp. }
  pose proof (sat_ok w h anything s _ _ _ _
                (wave_desc_sat w h anything set_iter s spawners c Hsi Hc Hsp') Hwf Hrun)
    as (vac & u & Hvac & [Hdu _] & HL & (s2 & Hchoice & _) & Hinb & Hstep).
  assert (Hheads : Z.of_nat (length heads) <= c /\ NoDup heads).
  { unfold head_choice in Hchoice.
    destruct (c <? Z.of_nat (set_len vac)) eqn:E.
    - apply Z.ltb_lt in E.
      assert (Hwfu : wf w h (data u)) by (rewrite Hdu; exact Hwf).
      assert (Hk : 0 <= c <= Z.of_nat (length (sorted vac)))
        by (rewrite sorted_length; lia).
      pose proof (sat_ok w h anything u _ _ _ _
                    (random_sample_sat w h anything u (sorted vac) c Hk) Hwfu Hchoice)
        as (Hlen & Hsub & _).
      split; [lia|]. exact (submseteq_keeps_NoDup _ _ Hsub (sorted_NoDup vac)).
    - apply Z.ltb_ge in E. unfold ret in Hchoice. injection Hchoice as <- _.
      split.
      + rewrite (Hsi vac). fold (set_len vac). exact E.
      + rewrite (Hsi vac). apply NoDup_remove_dups. }
  destruct Hheads as [Hlen Hnd]. destruct Hstep as (Hfrom & Hcells & _).
  split; [exact Hlen|]. split; [exact Hnd|]. split; [|exact Hcells].
  intros q Hq. destruct (Hfrom q Hq) as [He (sp & Hin & Hnb)].
  split; [exact He|]. exists sp. split; [exact Hin|].
  apply points_spec. split; [exact Hnb|].
  exact (proj1 (Forall_forall _ _) Hinb q Hq).
Qed.

Lemma wave_heads_bounded_witness :
  let s := Build_World
             (Build_Arrays (NdArray (3, 1) [[_EMPTY]; [_SPAWNER]; [_EMPTY]])
                (np_full (2, 1) false) (np_full (3, 0) false)) [1] [] in
  set_iter_ok insertion_order /\ wf 3 1 (data s) /\ 0 <= 1 /\
  Forall (fun p => _PointChecker 3 1 p = true) [(1, 0)] /\
  exists s',
    wave insertion_order (_PointChecker 3 1) 1 [(1, 0)] set_empty s
    = (Ok (Some [(2, 0)]), s') /\
    Z.of_nat (length [(2, 0)]) <= 1 /\ NoDup [(2, 0)] /\
    (forall q, q ∈ [(2, 0)] ->
       cell (data s) q = _EMPTY /\
       exists sp, sp ∈ [(1, 0)] /\ q ∈ _get_nbr_points sp (_PointChecker 3 1)) /\
    (forall q, cell (data s') q =
       if decide (q ∈ [(2, 0)]) then _SPAWNER
       else if decide (q ∈ [(1, 0)]) then _BODY else cell (data s) q).
Proof.
  intros s.
  assert (H1 : set_iter_ok insertion_order) by (intros v; reflexivity).
  assert (H2 : wf 3 1 (data s)) by (repeat split; repeat constructor).
  assert (H3 : 0 <= 1) by lia.
  assert (H4 : Forall (fun p => _PointChecker 3 1 p = true) [(1, 0)])
    by (repeat constructor).
  split; [exact H1|]. split; [exact H2|]. split; [exact H3|]. split; [exact H4|].
  eexists. split; [vm_compute; reflexivity|].
  eapply (wave_heads_bounded insertion_order 3 1 1 s [(1, 0)] [(2, 0)] _ H1 H2 H3 H4).
  vm_compute. reflexivity.
Defined.

(** The chest list holds exactly the cells that are occupied or part of a
    big room and have exactly one structural neighbour of that kind: every
    dead end of the level gets a chest, and nothing else does. *)
Theorem chests_are_the_leaves set_iter fuel w h px py chance c tape L p :
  set_iter_ok set_iter ->
  run_outcome (generate set_iter fuel w h px py chance c tape) = Ok L ->
  p ∈ out_chests L <-> covered L p = true /\ count_nbrs (covered L) p = 1%nat.
Proof.
  intros Hsi H. split.
  - intros Hp.
    destruct (generate_good _ _ _ _ _ _ _ _ _ _ Hsi H) as (_ & _ & _ & Hchest & _).
    destruct (Hchest p Hp) as [Hocc Hone]. split; [|exact Hone].
    unfold covered. rewrite Hocc. reflexivity.
  - intros [Hcov Hone].
    destruct (generate_ok_inv _ _ _ _ _ _ _ _ _ _ Hsi H)
      as (Hw & Hh & s1 & s' & Hwf1 & Hup & Hfin).
    pose proof (sat_ok w h anything s1 _ _ L s'
                  (_finish_sat w h Hw Hh anything fuel I (fun _ => I) s1 chance) Hwf1 Hfin)
      as Hpost.
    pose proof (sat_ok w h anything s1 _ _ L s'
                  (_finish_strong_sat w h anything fuel s1 chance Hw Hh
                     (fun _ => I) (fun _ => I)) Hwf1 Hfin) as (_ & _ & Hleaf).
    apply Hleaf.
    + apply (covered_body (px, py) (data s1) L Hup Hpost), Hcov.
    + rewrite (body_dirs_length w h _ _ Hwf1). rewrite <- Hone.
      unfold count_nbrs. f_equal. apply filter_ext. intros q.
      apply bool_iff. unfold is_body. rewrite Z.eqb_eq. symmetry.
      apply (covered_body (px, py) (data s1) L Hup Hpost).
Qed.

Lemma chests_are_the_leaves_witness :
  set_iter_ok insertion_order /\
  run_outcome (generate insertion_order 6 3 2 2 0 default_chance 1 tape_3x2)
  = Ok layout_3x2 /\
  ((2, 0) ∈ out_chests layout_3x2 <->
   covered layout_3x2 (2, 0) = true /\ count_nbrs (covered layout_3x2) (2, 0) = 1%nat).
Proof.
  assert (Hsi : set_iter_ok insertion_order) by (intros s; reflexivity).
  assert (Hrun : run_outcome (generate insertion_order 6 3 2 2 0 default_chance 1 tape_3x2)
                 = Ok layout_3x2) by (vm_compute; reflexivity).
  split; [exact Hsi|]. split; [exact Hrun|].
  exact (chests_are_the_leaves insertion_order 6 3 2 2 0 default_chance 1
           tape_3x2 layout_3x2 (2, 0) Hsi Hrun).
Defined.

(** *** Big rooms are placed wherever they fit *)

Lemma dist_self k : _max_point_difference k k = 0.
Proof.
  unfold _max_point_difference, _difference. rewrite !Z.ltb_irrefl. lia.
Qed.

Lemma place_big_cells_maximal w h Al (cands0 : list _point) :
  (forall k, k ∈ cands0 -> corner_ok w h k) ->
  forall n cands mask s,
  wf_nd (w - 1) (h - 1) mask ->
  (forall k, k ∈ cands -> k ∈ cands0) ->
  (forall k, k ∈ cands0 -> k ∈ cands \/ near_room mask k) ->
  ((n <= length cands)%nat -> Al OutOfFuel) ->
  sat w h Al s (place_big_cells n cands mask)
    (fun mask' s' => forall k, k ∈ cands0 -> near_room mask' k).
Proof.
  intros Hok. induction n as [|n IH]; intros cands mask s Hwf Hc0 Hinv Hfuel.
  - simpl. apply sat_diverge, Hfuel. lia.
  - simpl. destruct (0 <? length cands)%nat eqn:Hlen.
    2:{ apply Nat.ltb_ge in Hlen. destruct cands; [|simpl in Hlen; lia].
        apply sat_ret. intros k Hk. destruct (Hinv k Hk) as [Hin|Hnear]; [|exact Hnear].
        apply elem_of_nil in Hin as []. }
    apply Nat.ltb_lt in Hlen.
    eapply sat_bind.
    { apply random_choice_sat. intros ->. simpl in Hlen. lia. }
    intros choice s1 _ [Hin _].
    assert (Hck : corner_ok w h choice) by apply Hok, Hc0, Hin.
    eapply sat_bind; [apply _place_big_cell_sat, Hck|].
    intros [] s2 _ _.
    destruct choice as [cx cy]. destruct Hck as [Hcx Hcy]. simpl in Hcx, Hcy.
    eapply sat_bind; [apply (local_set_sat w h Al (w - 1) (h - 1)); [exact Hwf|lia|lia]|].
    intros mask' s3 _ [-> Hset].
    destruct (flag_set (w - 1) (h - 1) mask cx cy true mask' Hwf ltac:(lia) ltac:(lia) Hset)
      as [Hwf' Hflag].
    apply IH.
    + exact Hwf'.
    + intros k Hk. apply list_elem_of_In, filter_In in Hk as [Hk _].
      apply Hc0, list_elem_of_In, Hk.
    + intros k Hk. destruct (Hinv k Hk) as [Hkin|(k' & Hk' & Hd)].
      * destruct (1 <? _max_point_difference k (cx, cy)) eqn:Hfar.
        -- left. apply list_elem_of_In, filter_In. split; [apply list_elem_of_In, Hkin|].
           exact Hfar.
        -- right. exists (cx, cy). split; [|apply Z.ltb_ge, Hfar].
           rewrite Hflag. apply decide_True. reflexivity.
      * right. exists k'. split; [|exact Hd].
        rewrite Hflag. destruct (decide _); auto.
    + intros Hle. apply Hfuel.
      assert (Hz : (1 <? _max_point_difference (cx, cy) (cx, cy)) = false).
      { apply Z.ltb_ge. rewrite dist_self. lia. }
      pose proof (filter_shrinks
        (fun cell => 1 <? _max_point_difference cell (cx, cy)) cands (cx, cy) Hin Hz).
      lia.
Qed.

Lemma block_open_corner w h d k :
  wf w h d -> block_open d k = true -> corner_ok w h k.
Proof.
  intros Hwf Hb. destruct k as [x y]. unfold block_open in Hb.
  apply andb_true_iff in Hb as [Hb _]. apply andb_true_iff in Hb as [Hb _].
  apply andb_true_iff in Hb as [H1 H2].
  apply (door_inb w h d _ _ Hwf) in H1 as [_ H1].
  apply (door_inb w h d _ _ Hwf) in H2 as [H0 H2].
  unfold corner_ok, inb in *. simpl in *. lia.
Qed.

Lemma _finish_maximal_sat w h Al fuel s chance :
  0 < w -> 0 < h ->
  Al (Raised remove_error) ->
  (Z.of_nat fuel < Z.max (w * h) 3 -> Al OutOfFuel) ->
  sat w h Al s (_finish fuel w h (_PointChecker w h) chance)
    (fun L s' => forall k, block_open_out L k = true ->
       exists k', big_at L k' = true /\ k' <> k /\ _max_point_difference k k' <= 1).
Proof.
  intros Hw Hh Hraise Hfuel. apply sat_wf. intros Hwf. unfold _finish.
  eapply sat_bind.
  { apply (dead_end_pass_sat w h Al fuel Hraise).
    - intros Hf. apply Hfuel. lia.
    - apply Forall_forall. intros p Hp. apply grid_spec, Hp. }
  intros chests s1 [Hwf1 _] _.
  eapply sat_bind.
  { apply (sat_filterM w h Al _ (block_open (data s1)) _ s1 s1 (same_refl s1)).
    intros k s2 Hk Hs2.
    apply _big_cell_filter_sat; [apply (corner_grid w h fuel), Hk|exact Hs2]. }
  intros cands s2 _ [-> [Hd2 _]].
  set (cands := List.filter _ _).
  assert (Hcands : forall k, k ∈ cands -> corner_ok w h k).
  { intros k Hk. apply list_elem_of_In, filter_In in Hk as [Hk _].
    apply (corner_grid w h fuel), list_elem_of_In, Hk. }
  assert (Hlen : (length cands <= Z.to_nat (w - 1) * Z.to_nat (h - 1))%nat).
  { unfold cands. etransitivity; [apply List.filter_length_le|].
    rewrite product_length, !range_length. reflexivity. }
  eapply sat_bind.
  { apply sat_conj.
    - apply (place_big_cells_sat w h Al (data s1) cands Hcands).
      + rewrite Hd2. split; [apply np_full_wf|].
        split; [intros k Hk; rewrite flag_full_false in Hk; discriminate|].
        split; [auto|].
        split; [intros c k _ Hk; rewrite flag_full_false in Hk; discriminate|].
        split; [intros k1 k2 Hk; rewrite flag_full_false in Hk; discriminate|].
        assert (Hna : forall q, ~ absorbed_by (np_full (w - 1, h - 1) false) q).
        { intros q (k & Hk & _). rewrite flag_full_false in Hk. discriminate. }
        split; [intros q Hq; destruct (Hna q Hq)|]. split; [reflexivity|].
        intros a b. split; [|tauto]. intros Hd. split; [exact Hd|].
        intros (k & Hk & _). rewrite flag_full_false in Hk. discriminate.
      + intros Hle. apply Hfuel. nia.
    - apply (place_big_cells_maximal w h Al cands Hcands).
      + apply np_full_wf.
      + auto.
      + auto.
      + intros Hle. apply Hfuel. nia. }
  intros mask s3 _ [(_ & _ & _ & _ & _ & _ & _ & Hdo) Hmax].
  eapply sat_bind; [apply assemble_sat|].
  intros out s4 _ [[Hd4 _] _].
  intros Hwf4. simpl. split; [apply quiet_refl, Hwf4|].
  intros [x y] Hk. unfold block_open_out in Hk.
  set (L := Build_Layout out mask (hor_doors (data s4)) (ver_doors (data s4)) chests) in *.
  assert (Hdoor : forall a b, door_open L a b = true ->
            door (data s1) a b = true /\ ~ joined_by mask a b).
  { intros a b Hab. rewrite (door_open_door L (data s4)) in Hab by reflexivity.
    rewrite Hd4 in Hab. apply Hdo, Hab. }
  apply andb_true_iff in Hk as [Hk H4]. apply andb_true_iff in Hk as [Hk H3].
  apply andb_true_iff in Hk as [H1 H2].
  apply Hdoor in H1 as [H1 Hn1]. apply Hdoor in H2 as [H2 _].
  apply Hdoor in H3 as [H3 _]. apply Hdoor in H4 as [H4 _].
  assert (Hopen : block_open (data s1) (x, y) = true).
  { unfold block_open. rewrite H1, H2, H3, H4. reflexivity. }
  assert (Hin : (x, y) ∈ cands).
  { apply list_elem_of_In, filter_In. split; [|exact Hopen].
    apply list_elem_of_In, (corner_grid w h fuel).
    exact (block_open_corner w h _ _ Hwf1 Hopen). }
  destruct (Hmax (x, y) Hin) as (k' & Hk' & Hd).
  exists k'. split; [exact Hk'|]. split; [|exact Hd].
  intros ->. apply Hn1. exists (x, y). split; [exact Hk'|].
  unfold block. rewrite !elem_of_cons. auto.
Qed.

(** No room for another big cell is left: in a returned layout, a
    two-by-two block whose four inner doors are all open overlaps a big
    room (some other corner at most one away is flagged). *)
Theorem big_rooms_are_maximal set_iter fuel w h px py chance c tape L k :
  set_iter_ok set_iter ->
  run_outcome (generate set_iter fuel w h px py chance c tape) = Ok L ->
  block_open_out L k = true ->
  exists k', big_at L k' = true /\ k' <> k /\ _max_point_difference k k' <= 1.
Proof.
  intros Hsi H Hk.
  destruct (generate_ok_inv _ _ _ _ _ _ _ _ _ _ Hsi H)
    as (Hw & Hh & s1 & s' & Hwf1 & _ & Hfin).
  exact (sat_ok w h anything s1 _ _ L s'
           (_finish_maximal_sat w h anything fuel s1 chance Hw Hh I (fun _ => I))
           Hwf1 Hfin k Hk).
Qed.

Lemma big_rooms_are_maximal_witness :
  set_iter_ok insertion_order /\
  run_outcome (generate insertion_order 9 3 3 1 1 default_chance 9 tape_3x3)
  = Ok layout_3x3 /\
  block_open_out layout_3x3 (1, 1) = true /\
  exists k', big_at layout_3x3 k' = true /\ k' <> (1, 1) /\
             _max_point_difference (1, 1) k' <= 1.
Proof.
  assert (Hsi : set_iter_ok insertion_order) by (intros s; reflexivity).
  assert (Hrun : run_outcome (generate insertion_order 9 3 3 1 1 default_chance 9 tape_3x3)
                 = Ok layout_3x3) by (vm_compute; reflexivity).
  assert (Hk : block_open_out layout_3x3 (1, 1) = true) by reflexivity.
  split; [exact Hsi|]. split; [exact Hrun|]. split; [exact Hk|].
  exact (big_rooms_are_maximal insertion_order 9 3 3 1 1 default_chance 9 tape_3x3
           layout_3x3 (1, 1) Hsi Hrun Hk).
Defined.

(** ** Filling the grid *)

Lemma sealed_full w h epi d :
  wf w h d -> grown_up epi d -> sealed w h d -> inb w h epi ->
  forall q, inb w h q -> cell d q = _BODY.
Proof.
  intros Hwf (Hcases & _ & Hepi & _) Hseal Hin. destruct epi as [ex ey].
  assert (Hall : forall n q, inb w h q ->
            Z.abs (fst q - ex) + Z.abs (snd q - ey) = Z.of_nat n -> cell d q = _BODY).
  { induction n as [|n IH]; intros [x y] Hq Hd; simpl in Hd.
    - assert (x = ex) as -> by lia. assert (y = ey) as -> by lia. exact Hepi.
    - unfold inb in Hq, Hin. simpl in Hq, Hin.
      assert (Hnext : exists q', inb w h q' /\ (x, y) ∈ nbrs q' /\
                Z.abs (fst q' - ex) + Z.abs (snd q' - ey) = Z.of_nat n).
      { destruct (decide (x = ex)) as [->|Hx].
        - destruct (decide (y < ey)).
          + exists (ex, y + 1). unfold inb, nbrs. simpl. split; [lia|].
            split; [|lia]. rewrite !elem_of_cons. right; right; left. f_equal. lia.
          + exists (ex, y - 1). unfold inb, nbrs. simpl. split; [lia|].
            split; [|lia]. rewrite !elem_of_cons. right; right; right; left. f_equal. lia.
        - destruct (decide (x < ex)).
          + exists (x + 1, y). unfold inb, nbrs. simpl. split; [lia|].
            split; [|lia]. rewrite !elem_of_cons. left. f_equal. lia.
          + exists (x - 1, y). unfold inb, nbrs. simpl. split; [lia|].
            split; [|lia]. rewrite !elem_of_cons. right; left. f_equal. lia. }
      destruct Hnext as (q' & Hq' & Hnb & Hd').
      pose proof (IH q' Hq' Hd') as Hb.
      destruct (Hcases (x, y)) as [He|Hbody]; [|exact Hbody].
      exfalso. exact (Hseal q' (x, y) Hb Hnb Hq He). }
  intros q Hq.
  apply (Hall (Z.to_nat (Z.abs (fst q - ex) + Z.abs (snd q - ey))) q Hq). lia.
Qed.

Section Fill.

Variables (w h : Z).
Hypothesis Hw : 0 < w.
Hypothesis Hh : 0 < h.
Variable set_iter : pyset -> list _point.
Hypothesis set_iter_perm : set_iter_ok set_iter.
Variables (epi : _point) (fuel0 : nat) (chance : Q) (c : Z).
Hypothesis Hc : 0 <= c.
Hypothesis Hbig : w * h <= c.

Lemma set_len_grid (vac : pyset) :
  (forall q, q ∈ vac -> inb w h q) -> Z.of_nat (set_len vac) <= w * h.
Proof.
  intros Hin. unfold set_len.
  assert (Hsub : remove_dups vac ⊆+ product (range w) (range h)).
  { apply NoDup_submseteq; [apply NoDup_remove_dups|].
    intros q Hq. apply grid_spec, Hin. apply elem_of_remove_dups, Hq. }
  apply submseteq_length in Hsub. rewrite product_length, !range_length in Hsub. nia.
Qed.

(** With room for every vacancy, every vacancy becomes a head. *)
Lemma heads_all s sp heads s1 :
  wave_desc w h set_iter c s sp (Some heads) s1 ->
  forall q, q ∈ heads <-> vacant w h (data s) sp q.
Proof.
  intros (vac & u & Hvac & _ & _ & (s2 & Hchoice & _) & _) q.
  unfold head_choice in Hchoice.
  replace (c <? Z.of_nat (set_len vac)) with false in Hchoice.
  2:{ symmetry. apply Z.ltb_ge.
      assert (Z.of_nat (set_len vac) <= w * h); [|lia].
      apply set_len_grid. intros v Hv. apply Hvac in Hv as (_ & _ & _ & Hin & _).
      exact Hin. }
  unfold ret in Hchoice. injection Hchoice as <- _.
  rewrite (set_iter_elem set_iter set_iter_perm). apply Hvac.
Qed.

Lemma sealed_step d sp heads d' :
  sealed w h d -> wave_step d sp heads d' ->
  (forall q, q ∈ heads <-> vacant w h d sp q) -> sealed w h d'.
Proof.
  intros Hseal (_ & Hcell & _) Hall p q Hp Hq Hin. rewrite Hcell in Hp. rewrite Hcell.
  destruct (decide (q ∈ heads)) as [|Hqh]; [discriminate|].
  destruct (decide (q ∈ sp)) as [|Hqs]; [discriminate|].
  destruct (decide (p ∈ heads)) as [|Hph]; [discriminate|].
  destruct (decide (p ∈ sp)) as [Hps|Hps].
  - intros He. apply Hqh, Hall. exists p. auto.
  - exact (Hseal p q Hp Hq Hin).
Qed.

Lemma sealed_end d sp d' :
  sealed w h d -> wave_end d sp d' ->
  (forall q, ~ vacant w h d sp q) -> sealed w h d'.
Proof.
  intros Hseal [_ Hcell] Hnone p q Hp Hq Hin. rewrite Hcell in Hp. rewrite Hcell.
  destruct (decide (q ∈ sp)) as [|Hqs]; [discriminate|].
  destruct (decide (p ∈ sp)) as [Hps|Hps].
  - intros He. apply (Hnone q). exists p. auto.
  - exact (Hseal p q Hp Hq Hin).
Qed.

Lemma grow_fills_inv : forall fuel sp s L s',
  wf w h (data s) -> growing epi (data s) sp -> sealed w h (data s) ->
  grow set_iter fuel0 w h (_PointChecker w h) chance c fuel sp s = (Ok L, s') ->
  exists s1, wf w h (data s1) /\ grown_up epi (data s1) /\ sealed w h (data s1) /\
    _finish fuel0 w h (_PointChecker w h) chance s1 = (Ok L, s').
Proof.
  induction fuel as [|fuel IH]; intros sp s L s' Hwf Hg Hseal Hrun; [discriminate|].
  destruct (grow_unroll_desc w h set_iter set_iter_perm fuel0 chance c Hc fuel sp s Hwf
              (growing_inb w h epi _ _ Hwf Hg))
    as (next & s1 & Hwf1 & Heq & Hdesc & Hpost).
  rewrite Heq in Hrun. destruct next as [heads|].
  - destruct Hpost as [Hstep _].
    apply (IH heads s1 L s' Hwf1 (growing_step _ _ _ _ _ Hg Hstep)); [|exact Hrun].
    apply (sealed_step _ _ _ _ Hseal Hstep). exact (heads_all _ _ _ _ Hdesc).
  - exists s1. split; [exact Hwf1|]. split; [exact (growing_end _ _ _ _ Hg Hpost)|].
    split; [|exact Hrun].
    apply (sealed_end _ _ _ Hseal Hpost).
    exact (vacancies_left w h set_iter c sp s None s1 Hdesc).
Qed.

End Fill.

(** When [c] is at least the number of cells, every wave turns all its
    vacancies into heads and the level fills the grid: every cell of the
    grid is occupied or part of a big room in the returned layout. *)
Theorem generate_fills_grid set_iter fuel w h px py chance c tape L :
  set_iter_ok set_iter ->
  run_outcome (generate set_iter fuel w h px py chance c tape) = Ok L ->
  w * h <= c ->
  forall q, _PointChecker w h q = true -> covered L q = true.
Proof.
  intros Hsi H Hbig q Hq. apply checker_inb in Hq.
  pose proof (generate_ok_valid _ _ _ _ _ _ _ _ _ _ H) as Hv.
  pose proof Hv as (Hw & Hh & Hx & Hy & _ & _ & Hc).
  rewrite (generate_valid _ _ _ _ _ _ _ _ _ Hv) in H.
  destruct (generate_start w h px py tape Hw Hh Hx Hy)
    as (s1 & Hrun & Hwf1 & _ & Hcell & _ & Hg).
  rewrite (bind_ok _ _ _ _ _ Hrun) in H.
  destruct (grow set_iter fuel w h (_PointChecker w h) chance c fuel [(px, py)] s1)
    as [o s2] eqn:Hgrow.
  unfold run_outcome in H. simpl in H. subst o.
  assert (Hseal : sealed w h (data s1)).
  { intros p0 q0 Hp0. rewrite Hcell in Hp0. destruct (decide _); discriminate. }
  destruct (grow_fills_inv w h Hw Hh set_iter Hsi (px, py) fuel chance c Hc Hbig fuel
              [(px, py)] s1 L s2 Hwf1 Hg Hseal Hgrow)
    as (s3 & Hwf3 & Hup & Hseal3 & Hfin).
  pose proof (sat_ok w h anything s3 _ _ L s2
                (_finish_sat w h Hw Hh anything fuel I (fun _ => I) s3 chance) Hwf3 Hfin)
    as Hpost.
  apply (covered_body (px, py) (data s3) L Hup Hpost).
  exact (sealed_full w h (px, py) (data s3) Hwf3 Hup Hseal3 (conj Hx Hy) q Hq).
Qed.

Lemma generate_fills_grid_witness :
  set_iter_ok insertion_order /\
  run_outcome (generate insertion_order 9 3 3 1 1 default_chance 9 tape_3x3)
  = Ok layout_3x3 /\
  3 * 3 <= 9 /\
  forall q, _PointChecker 3 3 q = true -> covered layout_3x3 q = true.
Proof.
  assert (Hsi : set_iter_ok insertion_order) by (intros s; reflexivity).
  assert (Hrun : run_outcome (generate insertion_order 9 3 3 1 1 default_chance 9 tape_3x3)
                 = Ok layout_3x3) by (vm_compute; reflexivity).
  assert (Hc : 3 * 3 <= 9) by lia.
  split; [exact Hsi|]. split; [exact Hrun|]. split; [exact Hc|].
  exact (generate_fills_grid insertion_order 9 3 3 1 1 default_chance 9 tape_3x3
           layout_3x3 Hsi Hrun Hc).
Defined.

(** ** No dead end is left without a chest *)

Lemma NoDup_map_filter {A B} (f : A -> B) (g : A -> bool) l :
  NoDup (List.map f l) -> NoDup (List.map f (List.filter g l)).
Proof.
  induction l as [|a l IH]; simpl; intros H; [constructor|].
  apply NoDup_cons in H as [Hnin Hnd]. destruct (g a); [|auto].
  simpl. constructor; [|auto].
  rewrite list_elem_of_In, in_map_iff. intros (x & Hx & Hin).
  apply filter_In in Hin as [Hin _]. apply Hnin.
  rewrite list_elem_of_In, in_map_iff. exists x. auto.
Qed.

Lemma body_dirs_NoDup w h d p : NoDup (body_dirs w h d p).
Proof.
  unfold body_dirs. apply NoDup_map_filter.
  destruct p as [x y]. unfold _get_nbr_points_n_dirs. apply NoDup_map_filter. simpl.
  unfold _LEFT, _RIGHT, _UP, _DOWN.
  repeat constructor; rewrite ?elem_of_cons, ?elem_of_nil; intros H;
    repeat (destruct H as [H|H]; [discriminate|]); exact H.
Qed.

Lemma two_open d p dirs :
  NoDup dirs -> (2 <= count_open d p dirs)%nat ->
  exists a b, a <> b /\ a ∈ dirs /\ b ∈ dirs /\
    door d p (nbr p a) = true /\ door d p (nbr p b) = true.
Proof.
  intros Hnd Hc. unfold count_open in Hc.
  assert (Hf : NoDup (List.filter (fun dir => door d p (nbr p dir)) dirs)).
  { apply NoDup_ListNoDup, List.NoDup_filter, NoDup_ListNoDup, Hnd. }
  destruct (List.filter (fun dir => door d p (nbr p dir)) dirs) as [|a [|b l]] eqn:E;
    simpl in Hc; try lia.
  assert (Ha : In a (List.filter (fun dir => door d p (nbr p dir)) dirs))
    by (rewrite E; simpl; auto).
  assert (Hb : In b (List.filter (fun dir => door d p (nbr p dir)) dirs))
    by (rewrite E; simpl; auto).
  apply filter_In in Ha as [Ha Hda]. apply filter_In in Hb as [Hb Hdb].
  exists a, b. split.
  - apply NoDup_cons in Hf as [Hnin _]. intros ->. apply Hnin, list_elem_of_here.
  - split; [apply list_elem_of_In, Ha|]. split; [apply list_elem_of_In, Hb|]. auto.
Qed.

Lemma nbr_inj p a b : is_dir a -> is_dir b -> nbr p a = nbr p b -> a = b.
Proof.
  destruct p as [x y]. unfold is_dir, nbr, _LEFT, _RIGHT, _UP, _DOWN. intros Ha Hb.
  assert (a = 0 \/ a = 1 \/ a = 2 \/ a = 3) as [-> | [-> | [-> | ->]]] by lia;
    assert (b = 0 \/ b = 1 \/ b = 2 \/ b = 3) as [-> | [-> | [-> | ->]]] by lia;
    simpl; intros H; try reflexivity; exfalso; injection H; lia.
Qed.

Lemma _finish_degree_sat w h Al fuel s chance :
  0 < w -> 0 < h ->
  (~ linked_up (data s) -> Al (Raised remove_error)) ->
  (Z.of_nat fuel < Z.max (w * h) 3 -> Al OutOfFuel) ->
  sat w h Al s (_finish fuel w h (_PointChecker w h) chance)
    (fun L s' => forall p, occupied L p = true -> p ∉ out_chests L ->
       exists q1 q2, q1 <> q2 /\ door_open L p q1 = true /\ door_open L p q2 = true).
Proof.
  intros Hw Hh Hraise Hfuel. apply sat_wf. intros Hwf. unfold _finish.
  eapply sat_bind.
  { apply (dead_end_pass_strong w h Al fuel s chance _ Hraise).
    - intros Hf. apply Hfuel. lia.
    - apply Forall_forall. intros p Hp. apply grid_spec, Hp. }
  intros chests s1 [Hwf1 _] (_ & Hc1 & _ & Hleaf & Hdeg).
  eapply sat_bind.
  { apply (sat_filterM w h Al _ (block_open (data s1)) _ s1 s1 (same_refl s1)).
    intros k s2 Hk Hs2.
    apply _big_cell_filter_sat; [apply (corner_grid w h fuel), Hk|exact Hs2]. }
  intros cands s2 _ [-> [Hd2 _]].
  set (cands := List.filter _ _).
  assert (Hcands : forall k, k ∈ cands -> corner_ok w h k).
  { intros k Hk. apply list_elem_of_In, filter_In in Hk as [Hk _].
    apply (corner_grid w h fuel), list_elem_of_In, Hk. }
  assert (Hlen : (length cands <= Z.to_nat (w - 1) * Z.to_nat (h - 1))%nat).
  { unfold cands. etransitivity; [apply List.filter_length_le|].
    rewrite product_length, !range_length. reflexivity. }
  eapply sat_bind.
  { apply (place_big_cells_sat w h Al (data s1) cands Hcands).
    - rewrite Hd2. split; [apply np_full_wf|].
      split; [intros k Hk; rewrite flag_full_false in Hk; discriminate|].
      split; [auto|].
      split; [intros c k _ Hk; rewrite flag_full_false in Hk; discriminate|].
      split; [intros k1 k2 Hk; rewrite flag_full_false in Hk; discriminate|].
      assert (Hna : forall q, ~ absorbed_by (np_full (w - 1, h - 1) false) q).
      { intros q (k & Hk & _). rewrite flag_full_false in Hk. discriminate. }
      split; [intros q Hq; destruct (Hna q Hq)|]. split; [reflexivity|].
      intros a b. split; [|tauto]. intros Hd. split; [exact Hd|].
      intros (k & Hk & _). rewrite flag_full_false in Hk. discriminate.
    - intros Hle. apply Hfuel. nia. }
  intros mask s3 _ (_ & _ & _ & _ & _ & Hce & Hcs & Hdo).
  eapply sat_bind; [apply assemble_sat|].
  intros out s4 _ [[Hd4 _] Hout].
  intros Hwf4. simpl. split; [apply quiet_refl, Hwf4|].
  set (L := Build_Layout out mask (hor_doors (data s4)) (ver_doors (data s4)) chests).
  intros p Hocc Hnot. unfold occupied in Hocc. simpl in Hocc, Hnot.
  rewrite Hout in Hocc. unfold is_body in Hocc. apply Z.eqb_eq in Hocc.
  assert (Hna : ~ absorbed_by mask p).
  { intros Ha. rewrite (Hce p Ha) in Hocc. discriminate. }
  rewrite (Hcs p Hna), (cells_same_cell _ _ Hc1) in Hocc.
  assert (Hp : p ∈ product (range w) (range h)).
  { apply grid_spec. apply (cell_inb w h (data s)); [exact Hwf|].
    rewrite Hocc. discriminate. }
  assert (Hone : length (body_dirs w h (data s) p) <> 1%nat).
  { intros H1. apply Hnot. exact (Hleaf p Hp Hocc H1). }
  destruct (two_open (data s1) p _ (body_dirs_NoDup w h (data s) p) (Hdeg p Hp Hocc Hone))
    as (a & b & Hab & Ha & Hb & Hda & Hdb).
  apply (body_dirs_spec w h _ _ _ Hwf) in Ha as [Ha _].
  apply (body_dirs_spec w h _ _ _ Hwf) in Hb as [Hb _].
  assert (Hopen : forall q, door (data s1) p q = true -> door_open L p q = true).
  { intros q Hq. rewrite (door_open_door L (data s4)) by reflexivity.
    rewrite Hd4. apply Hdo. split; [exact Hq|].
    intros (k & Hk & Hpk & _). apply Hna. exists k. auto. }
  exists (nbr p a), (nbr p b). split; [|split; apply Hopen; assumption].
  intros Heq. apply Hab. exact (nbr_inj p a b Ha Hb Heq).
Qed.

(** Every occupied cell of a returned layout that is not in the chest list
    has at least two open doors: the only dead ends left are the ones
    that hold a chest. *)
Theorem no_dead_end_without_chest set_iter fuel w h px py chance c tape L p :
  set_iter_ok set_iter ->
  run_outcome (generate set_iter fuel w h px py chance c tape) = Ok L ->
  occupied L p = true -> p ∉ out_chests L ->
  exists q1 q2, q1 <> q2 /\ door_open L p q1 = true /\ door_open L p q2 = true.
Proof.
  intros Hsi H Hocc Hnot.
  destruct (generate_ok_inv _ _ _ _ _ _ _ _ _ _ Hsi H)
    as (Hw & Hh & s1 & s' & Hwf1 & _ & Hfin).
  exact (sat_ok w h anything s1 _ _ L s'
           (_finish_degree_sat w h anything fuel s1 chance Hw Hh (fun _ => I) (fun _ => I))
           Hwf1 Hfin p Hocc Hnot).
Qed.

Lemma no_dead_end_without_chest_witness :
  set_iter_ok insertion_order /\
  run_outcome (generate insertion_order 9 3 3 1 1 default_chance 9 tape_3x3)
  = Ok layout_3x3 /\
  occupied layout_3x3 (2, 2) = true /\ ((2, 2) ∉ out_chests layout_3x3) /\
  exists q1 q2, q1 <> q2 /\ door_open layout_3x3 (2, 2) q1 = true /\
                door_open layout_3x3 (2, 2) q2 = true.
Proof.
  assert (Hsi : set_iter_ok insertion_order) by (intros s; reflexivity).
  assert (Hrun : run_outcome (generate insertion_order 9 3 3 1 1 default_chance 9 tape_3x3)
                 = Ok layout_3x3) by (vm_compute; reflexivity).
  assert (Hocc : occupied layout_3x3 (2, 2) = true) by reflexivity.
  assert (Hnot : (2, 2) ∉ out_chests layout_3x3) by (simpl; apply not_elem_of_nil).
  split; [exact Hsi|]. split; [exact Hrun|]. split; [exact Hocc|]. split; [exact Hnot|].
  exact (no_dead_end_without_chest insertion_order 9 3 3 1 1 default_chance 9 tape_3x3
           layout_3x3 (2, 2) Hsi Hrun Hocc Hnot).
Defined.
